(** * gokart: transaction coordinators and get-or-compute cache populators

    A shallow embedding of the two transaction helpers of the toolkit
    ([WithTransaction] over a pgx pool, [SQLiteTransaction] over a
    [database/sql] handle) and of the cache populators [Remember] and
    [RememberJSON], with the properties of their commit / rollback /
    panic-recovery and read / compute / write protocols. *)

From Stdlib Require Import String List Ascii Arith Lia Bool ZArith DecimalString.
From stdpp Require Import base decidable option gmap strings.
Import ListNotations.

Open Scope string_scope.
Open Scope list_scope.

(* ===================================================================== *)
(** * Go errors: [errors.New], [fmt.Errorf], [Unwrap], [errors.Is]        *)
(* ===================================================================== *)

Module errors.

(** A non-nil Go [error] value.  [errorString] is a leaf error as made by
    [errors.New] (sentinels such as [sql.ErrTxDone] or [redis.Nil], and the
    drivers' own errors); its identity is its text.  [wrapError] is the
    [*fmt.wrapError] that [fmt.Errorf] builds for a format with one [%w]:
    it stores the rendered message and the wrapped operand.  The Go
    interface value [error] itself, which may be [nil], is [option error]. *)
Inductive error : Type :=
| errorString (s : string)
| wrapError (msg : string) (err : error).

#[global] Instance error_eq_dec : EqDecision error.
Proof. solve_decision. Defined.

(** [err.Error()] *)
Definition Error (e : error) : string :=
  match e with
  | errorString s => s
  | wrapError msg _ => msg
  end.

(** [errors.Unwrap(err)] *)
Definition Unwrap (e : error) : option error :=
  match e with
  | errorString _ => None
  | wrapError _ err => Some err
  end.

(** The chain [errors.Is] and [errors.As] walk: the error itself, then
    what [Unwrap] gives, repeatedly. *)
Fixpoint chain (e : error) : list error :=
  e :: match e with
       | errorString _ => []
       | wrapError _ err => chain err
       end.

(** [errors.Is(err, target)] for comparable errors. *)
Fixpoint Is (err target : error) : bool :=
  if decide (err = target) then true
  else match err with
       | errorString _ => false
       | wrapError _ inner => Is inner target
       end.

(** The formatting pass of [fmt.Errorf] over error operands, for the verbs
    the package uses: [%v] and [%w] both render the operand's [Error()]
    text, [%w] also records the operand as wrapped, [%%] is a percent
    sign.  Returns the message and the operands met under [%w]. *)
Fixpoint sprintf (format : string) (args : list error) : string * list error :=
  match format with
  | EmptyString => (EmptyString, [])
  | String "%" (String "v" rest) =>
      match args with
      | a :: args' => let '(s, w) := sprintf rest args' in (Error a +:+ s, w)
      | [] => let '(s, w) := sprintf rest [] in ("%!v(MISSING)" +:+ s, w)
      end
  | String "%" (String "w" rest) =>
      match args with
      | a :: args' => let '(s, w) := sprintf rest args' in (Error a +:+ s, a :: w)
      | [] => let '(s, w) := sprintf rest [] in ("%!w(MISSING)" +:+ s, w)
      end
  | String "%" (String "%" rest) =>
      let '(s, w) := sprintf rest args in (String "%" s, w)
  | String c rest =>
      let '(s, w) := sprintf rest args in (String c s, w)
  end.

(** [fmt.Errorf(format, args...)]: without [%w] the result is a plain
    string error, with one [%w] it is a [wrapError] around that operand
    (the package never writes a format with two). *)
Definition Errorf (format : string) (args : list error) : error :=
  match sprintf format args with
  | (s, []) => errorString s
  | (s, e :: _) => wrapError s e
  end.

End errors.
Export errors.

(* ===================================================================== *)
(** * Go control flow: return, panic, defer and recover                   *)
(* ===================================================================== *)

Module goruntime.

Section Runtime.
(** The dynamic type of the values a goroutine panics with.  The module
    is built with Go 1.24 (go.mod), where [panic(nil)] reaches [recover]
    as a non-nil [*runtime.PanicNilError]: a panic in flight always has a
    value of this type, and [recover()] returning nil ([None]) means
    that no panic is in flight. *)
Context {any : Type}.

(** How a call ends: it returns a value, or it unwinds with a panic. *)
Inductive Outcome (A : Type) : Type :=
  | Returns (a : A)
  | Panics (p : any).

(** A Go function body working on a world [W]. *)
Definition Go (W A : Type) : Type := W -> Outcome A * W.

Definition ret {W A} (a : A) : Go W A := fun w => (Returns A a, w).

Definition bind {W A B} (m : Go W A) (k : A -> Go W B) : Go W B :=
    fun w =>
      match m w with
      | (Returns _ a, w') => k a w'
      | (Panics _ p, w') => (Panics B p, w')
      end.

(** [panic(p)] *)
Definition panic {W A} (p : any) : Go W A := fun w => (Panics A p, w).

(** [defer func() { ... recover() ... }()] around the rest of a function
    that has no named results.  The deferred function [handler] runs on
    every exit; it receives what its [recover()] call returns.  When it
    returns normally after recovering a panic, the function returns the
    zero value [zero] of its result type; when it panics, that panic
    leaves the function. *)
Definition defer_recover {W A} (zero : A)
      (handler : option any -> Go W unit) (body : Go W A) : Go W A :=
    fun w =>
      match body w with
      | (Returns _ a, w1) =>
          match handler None w1 with
          | (Returns _ _, w2) => (Returns A a, w2)
          | (Panics _ q, w2) => (Panics A q, w2)
          end
      | (Panics _ p, w1) =>
          match handler (Some p) w1 with
          | (Returns _ _, w2) => (Returns A zero, w2)
          | (Panics _ q, w2) => (Panics A q, w2)
          end
      end.
End Runtime.

Arguments Outcome : clear implicits.
Arguments Go : clear implicits.
Arguments Returns {any A} a.
Arguments Panics {any A} p.

Declare Scope go_scope.
Delimit Scope go_scope with go.
Notation "x <- c ;; k" := (bind c (fun x => k))
  (at level 100, c at next level, right associativity) : go_scope.

End goruntime.
Export goruntime.

(* ===================================================================== *)
(** * Transaction coordinators                                            *)
(* ===================================================================== *)

Module tx.

(** What a coordinator asks of its collaborators, in the order it asks:
    the begin call, the call of the unit-of-work callback, a commit
    attempt, a rollback attempt.  The log is ghost state: it only serves
    to state how often each of them happens. *)
Inductive Event : Type := EvBegin | EvInvoke | EvCommit | EvRollback.

#[global] Instance Event_eq_dec : EqDecision Event.
Proof. solve_decision. Defined.

(** The world a coordinator runs in: the state [D] of the store behind the
    connection source, and the log of the coordinator's own calls. *)
Record World (D : Type) : Type := mkWorld { store : D; trace : list Event }.
Arguments mkWorld {D} store trace.
Arguments store {D} w.
Arguments trace {D} w.

(** [sql.TxOptions]; [SQLiteTransaction] passes a nil pointer. *)
Record TxOptions : Type := { Isolation : nat; ReadOnly : bool }.

(** The part of [*pgxpool.Pool] and [pgx.Tx] that [WithTransaction] uses.
    Each call returns its Go result (a handle or a start failure for
    begin, success or failure for commit and rollback) and the new state
    of the store; a cancelled [context] is the driver's business. *)
Class PgxPool (context D Pool Tx : Type) : Type := {
  pool_Begin : Pool -> context -> D -> (Tx + error) * D;
  pgxtx_Commit : Tx -> context -> D -> option error * D;
  pgxtx_Rollback : Tx -> context -> D -> option error * D
}.

(** The part of [*sql.DB] and [*sql.Tx] that [SQLiteTransaction] uses. *)
Class SqlDB (context D DB Tx : Type) : Type := {
  db_BeginTx : DB -> context -> option TxOptions -> D -> (Tx + error) * D;
  sqltx_Commit : Tx -> D -> option error * D;
  sqltx_Rollback : Tx -> D -> option error * D
}.

Section Coordinators.
Context {any context D : Type}.
Open Scope go_scope.

(** A call into the driver: it is logged and changes the store. *)
Definition call {R} (ev : Event) (op : D -> R * D) : Go any (World D) R :=
    fun w => let '(r, d) := op (store w) in
             (Returns r, mkWorld d (trace w ++ [ev])).

(** The call [fn(tx)] of the unit of work: it is logged; the callback
    works on the store through its handle and returns or panics. *)
Definition invoke {R} (f : D -> Outcome any R * D) : Go any (World D) R :=
    fun w => let '(o, d) := f (store w) in
             (o, mkWorld d (trace w ++ [EvInvoke])).

(** [func WithTransaction(ctx, pool, fn) error] *)
Definition WithTransaction {Pool Tx} `{!PgxPool context D Pool Tx}
      (ctx : context) (pool : Pool)
      (fn : Tx -> D -> Outcome any (option error) * D)
    : Go any (World D) (option error) :=
    r <- call EvBegin (pool_Begin pool ctx) ;;
    match r with
    | inr err => ret (Some (Errorf "failed to begin transaction: %w" [err]))
    | inl tx =>
        defer_recover None
          (fun p => match p with
                    | Some p => _ <- call EvRollback (pgxtx_Rollback tx ctx) ;;
                                panic p
                    | None => ret tt
                    end)
          (err <- invoke (fn tx) ;;
           match err with
           | Some err =>
               rbErr <- call EvRollback (pgxtx_Rollback tx ctx) ;;
               match rbErr with
               | Some rbErr =>
                   ret (Some (Errorf "rollback failed: %v (original error: %w)"
                                     [rbErr; err]))
               | None => ret (Some err)
               end
           | None =>
               err <- call EvCommit (pgxtx_Commit tx ctx) ;;
               match err with
               | Some err =>
                   ret (Some (Errorf "failed to commit transaction: %w" [err]))
               | None => ret None
               end
           end)
    end.

(** [func SQLiteTransaction(ctx, db, fn) error] *)
Definition SQLiteTransaction {DB Tx} `{!SqlDB context D DB Tx}
      (ctx : context) (db : DB)
      (fn : Tx -> D -> Outcome any (option error) * D)
    : Go any (World D) (option error) :=
    r <- call EvBegin (db_BeginTx db ctx None) ;;
    match r with
    | inr err => ret (Some (Errorf "failed to begin transaction: %w" [err]))
    | inl tx =>
        defer_recover None
          (fun p => match p with
                    | Some p => _ <- call EvRollback (sqltx_Rollback tx) ;;
                                panic p
                    | None => ret tt
                    end)
          (err <- invoke (fn tx) ;;
           match err with
           | Some err =>
               rbErr <- call EvRollback (sqltx_Rollback tx) ;;
               match rbErr with
               | Some rbErr =>
                   ret (Some (Errorf "rollback failed: %v (original error: %w)"
                                     [rbErr; err]))
               | None => ret (Some err)
               end
           | None =>
               err <- call EvCommit (sqltx_Commit tx) ;;
               match err with
               | Some err =>
                   ret (Some (Errorf "failed to commit transaction: %w" [err]))
               | None => ret None
               end
           end)
    end.

(** The exit paths of a coordinator written out as one table over the
    capabilities {begin, commit, rollback}: for each way the begin call
    and the callback can end, what is attempted and what the caller
    gets.  Both coordinators are compared against it. *)
Definition exit_paths {Tx} (begin : D -> (Tx + error) * D)
      (commit rollback : Tx -> D -> option error * D)
      (fn : Tx -> D -> Outcome any (option error) * D)
    : Go any (World D) (option error) :=
    fun w =>
      match begin (store w) with
      | (inr e, d1) =>
          (Returns (Some (wrapError ("failed to begin transaction: " +:+ Error e) e)),
           mkWorld d1 (trace w ++ [EvBegin]))
      | (inl tx, d1) =>
          match fn tx d1 with
          | (Returns None, d2) =>
              match commit tx d2 with
              | (None, d3) =>
                  (Returns None,
                   mkWorld d3 (trace w ++ [EvBegin; EvInvoke; EvCommit]))
              | (Some e, d3) =>
                  (Returns (Some (wrapError
                     ("failed to commit transaction: " +:+ Error e) e)),
                   mkWorld d3 (trace w ++ [EvBegin; EvInvoke; EvCommit]))
              end
          | (Returns (Some err), d2) =>
              match rollback tx d2 with
              | (None, d3) =>
                  (Returns (Some err),
                   mkWorld d3 (trace w ++ [EvBegin; EvInvoke; EvRollback]))
              | (Some rbErr, d3) =>
                  (Returns (Some (wrapError
                     ("rollback failed: " +:+ Error rbErr +:+
                      " (original error: " +:+ Error err +:+ ")") err)),
                   mkWorld d3 (trace w ++ [EvBegin; EvInvoke; EvRollback]))
              end
          | (Panics p, d2) =>
              (Panics p,
               mkWorld (snd (rollback tx d2))
                       (trace w ++ [EvBegin; EvInvoke; EvRollback]))
          end
      end.

(** Two results of one failed unit of work report a rollback failure by
    divergent policies when one of them is the callback's error [err]
    itself (the rollback failure only logged) and the other is not (the
    rollback failure wrapped into what is returned). *)
Definition divergent_reporting (err : error)
      (r1 r2 : Outcome any (option error)) : Prop :=
    (r1 = Returns (Some err) /\ r2 <> Returns (Some err)) \/
    (r1 <> Returns (Some err) /\ r2 = Returns (Some err)).
End Coordinators.

(** How often the coordinator asked for [ev]. *)
Definition count (ev : Event) (t : list Event) : nat :=
  count_occ Event_eq_dec t ev.

(** A world whose log is still empty. *)
Definition fresh {D} (d : D) : World D := mkWorld d [].

End tx.
Export tx.
(* ===================================================================== *)
(** * An in-memory store, for running the coordinators                    *)
(* ===================================================================== *)

Module memdb.

(** A one-table store with fault injection, standing in for the database
    the way [SQLiteInMemory] does in the package's tests: [rows] is what a
    read outside any transaction sees, [open_tx] the table as the open
    transaction sees it, and the three faults make the next begin, commit
    or rollback fail. *)
Record MemDB : Type := mkMemDB {
  rows : list string;
  open_tx : option (list string);
  begin_fault : option error;
  commit_fault : option error;
  rollback_fault : option error
}.

(** [sql.ErrTxDone] / [pgx.ErrTxClosed]: the handle is already resolved. *)
Definition ErrTxDone : error :=
  errorString "sql: transaction has already been committed or rolled back".

Definition set_tx (t : option (list string)) (d : MemDB) : MemDB :=
  mkMemDB (rows d) t (begin_fault d) (commit_fault d) (rollback_fault d).

Definition set_rows (r : list string) (d : MemDB) : MemDB :=
  mkMemDB r (open_tx d) (begin_fault d) (commit_fault d) (rollback_fault d).

Definition mem_begin (d : MemDB) : (unit + error) * MemDB :=
  match begin_fault d with
  | Some e => (inr e, d)
  | None => (inl tt, set_tx (Some (rows d)) d)
  end.

Definition mem_commit (d : MemDB) : option error * MemDB :=
  match open_tx d with
  | None => (Some ErrTxDone, d)
  | Some pending =>
      match commit_fault d with
      | Some e => (Some e, set_tx None d)
      | None => (None, set_tx None (set_rows pending d))
      end
  end.

Definition mem_rollback (d : MemDB) : option error * MemDB :=
  match open_tx d with
  | None => (Some ErrTxDone, d)
  | Some _ =>
      match rollback_fault d with
      | Some e => (Some e, d)
      | None => (None, set_tx None d)
      end
  end.

(** [tx.Exec(ctx, "INSERT ...", row)] *)
Definition mem_exec (row : string) (d : MemDB) : option error * MemDB :=
  match open_tx d with
  | None => (Some ErrTxDone, d)
  | Some pending => (None, set_tx (Some (pending ++ [row])) d)
  end.

#[global] Instance mem_pgx : PgxPool unit MemDB unit unit := {
  pool_Begin _ _ := mem_begin;
  pgxtx_Commit _ _ := mem_commit;
  pgxtx_Rollback _ _ := mem_rollback
}.

#[global] Instance mem_sql : SqlDB unit MemDB unit unit := {
  db_BeginTx _ _ _ := mem_begin;
  sqltx_Commit _ := mem_commit;
  sqltx_Rollback _ := mem_rollback
}.

(** A healthy store holding [r], and the same store with one fault. *)
Definition healthy (r : list string) : MemDB := mkMemDB r None None None None.
Definition begin_fails (e : error) (r : list string) : MemDB :=
  mkMemDB r None (Some e) None None.
Definition commit_fails (e : error) (r : list string) : MemDB :=
  mkMemDB r None None (Some e) None.
Definition rollback_fails (e : error) (r : list string) : MemDB :=
  mkMemDB r None None None (Some e).

(** Units of work.  Panic values are strings here. *)
Definition UnitOfWork : Type :=
  unit -> MemDB -> Outcome string (option error) * MemDB.

(** Insert a row and return what the insert returned. *)
Definition insert (row : string) : UnitOfWork :=
  fun _ d => let '(err, d') := mem_exec row d in (Returns err, d').

(** Insert a row, then fail with [e]. *)
Definition insert_then_fail (row : string) (e : error) : UnitOfWork :=
  fun _ d => let '(_, d') := mem_exec row d in (Returns (Some e), d').

(** Insert a row, then panic with [p]. *)
Definition insert_then_panic (row : string) (p : string) : UnitOfWork :=
  fun _ d => let '(_, d') := mem_exec row d in (Panics p, d').

(** Insert a row, commit through the handle, then try a second insert and
    return its error (the handle is resolved by then). *)
Definition commit_early (row : string) : UnitOfWork :=
  fun _ d =>
    let '(_, d1) := mem_exec row d in
    let '(_, d2) := mem_commit d1 in
    let '(err, d3) := mem_exec row d2 in
    (Returns err, d3).

End memdb.

(* ===================================================================== *)
(** * Get-or-compute cache populators                                     *)
(* ===================================================================== *)

Module cache.

(** Modelled from the spec: the cache collaborator behind [*Cache]
    (cache.go, with [Get], [Set] and the client's key prefix, is not among
    the sources).  An entry holds a payload and the time-to-live it was
    written with. *)
Record Entry : Type := mkEntry { payload : string; ttl : Z }.

(** Modelled from the spec: the cache server as the populators see it
    (cache.go and the server are not among the sources): the entries by
    full key, and the infrastructure failure, if any, that the next read
    or the next write meets (connectivity, timeout, cancelled context). *)
Record Server : Type := mkServer {
  entries : gmap string Entry;
  read_fault : option error;
  write_fault : option error
}.

(** Modelled from the spec: what a read by key gives (cache.go is not
    among the sources): the stored payload, the distinguished not-found
    signal, or another error. *)
Inductive ReadResult : Type :=
| Found (stored : string)
| NotFound
| ReadFailed (err : error).

(** What a populator asks of its collaborators, in order (ghost state). *)
Inductive Event : Type :=
| EvRead (key : string)
| EvCompute
| EvWrite (key : string) (value : string) (ttl : Z).

(** The world of a populator call: the cache server, the caller's own
    state [U] that the compute callback works on (a call counter, a
    database), and the log of the populator's calls. *)
Record World (U : Type) : Type :=
  mkWorld { server : Server; user : U; trace : list Event }.
Arguments mkWorld {U} server user trace.
Arguments server {U} w.
Arguments user {U} w.
Arguments trace {U} w.

(** The cache handle: the client's configuration. *)
Record Cache : Type := { KeyPrefix : string }.

Section Populators.
(** [any] is Go's [interface{}]: [as_string] is the type switch
    [case string], [Marshal] and [Unmarshal] are the structured
    encode / decode pair ([encoding/json]); [Dest] is what the
    destination pointer of the typed variant points to. *)
Context {any U Dest : Type}.
Context (as_string : any -> option string).
Context (Marshal : any -> string + error).
Context (Unmarshal : string -> Dest -> option error * Dest).
Open Scope go_scope.

(** Modelled from the spec: read by key (cache.go's [Get] is not among
    the sources).  An infrastructure failure wins over the lookup. *)
Definition lookup_key (c : Cache) (key : string) (s : Server) : ReadResult :=
    match read_fault s with
    | Some err => ReadFailed err
    | None =>
        match entries s !! (KeyPrefix c +:+ key) with
        | Some e => Found (payload e)
        | None => NotFound
        end
    end.

(** Modelled from the spec: write by key with TTL (cache.go's [Set] is
    not among the sources). *)
Definition store_key (c : Cache) (key value : string) (t : Z) (s : Server)
    : option error * Server :=
    match write_fault s with
    | Some err => (Some err, s)
    | None =>
        (None, mkServer (<[KeyPrefix c +:+ key := mkEntry value t]> (entries s))
                        (read_fault s) (write_fault s))
    end.

Definition read (c : Cache) (key : string) : Go any (World U) ReadResult :=
    fun w => (Returns (lookup_key c key (server w)),
              mkWorld (server w) (user w) (trace w ++ [EvRead key])).

Definition write (c : Cache) (key value : string) (t : Z)
    : Go any (World U) (option error) :=
    fun w => let '(err, s) := store_key c key value t (server w) in
             (Returns err, mkWorld s (user w) (trace w ++ [EvWrite key value t])).

(** The call [fn()] of the compute callback, on the caller's state. *)
Definition compute (fn : U -> Outcome any (any + error) * U)
    : Go any (World U) (any + error) :=
    fun w => let '(o, u) := fn (user w) in
             (o, mkWorld (server w) u (trace w ++ [EvCompute])).

(** Modelled from the spec: the string-returning populator (cache.go's
    [Remember] is not among the sources).  Read; on a hit return the
    payload as stored; on not-found compute once, keep a string
    verbatim and serialize anything else, store with the TTL and return
    the stored string; any failure on the way is returned as it is. *)
Definition Remember (c : Cache) (key : string) (t : Z)
      (fn : U -> Outcome any (any + error) * U)
    : Go any (World U) (string + error) :=
    r <- read c key ;;
    match r with
    | Found val => ret (inl val)
    | ReadFailed err => ret (inr err)
    | NotFound =>
        res <- compute fn ;;
        match res with
        | inr err => ret (inr err)
        | inl result =>
            match (match as_string result with
                   | Some v => inl v
                   | None => Marshal result
                   end) with
            | inr err => ret (inr err)
            | inl strVal =>
                werr <- write c key strVal t ;;
                match werr with
                | Some err => ret (inr err)
                | None => ret (inl strVal)
                end
            end
        end
    end.

(** Modelled from the spec: the typed populator (cache.go's
    [RememberJSON] is not among the sources).  The destination is
    passed in and handed back with the error.  On a hit the payload is
    deserialized into the destination; on not-found compute once,
    serialize, store with the TTL, and deserialize that same serialized
    form into the destination; a compute, serialization or write
    failure is returned with the destination as it was. *)
Definition RememberJSON (c : Cache) (key : string) (t : Z) (dest : Dest)
      (fn : U -> Outcome any (any + error) * U)
    : Go any (World U) (option error * Dest) :=
    r <- read c key ;;
    match r with
    | Found val => ret (Unmarshal val dest)
    | ReadFailed err => ret (Some err, dest)
    | NotFound =>
        res <- compute fn ;;
        match res with
        | inr err => ret (Some err, dest)
        | inl result =>
            match Marshal result with
            | inr err => ret (Some err, dest)
            | inl data =>
                werr <- write c key data t ;;
                match werr with
                | Some err => ret (Some err, dest)
                | None => ret (Unmarshal data dest)
                end
            end
        end
    end.
End Populators.


(** How often the populator asked the cache to store something. *)
Definition writes (t : list Event) : nat :=
  length (List.filter (fun ev => match ev with EvWrite _ _ _ => true | _ => false end) t).

Definition fresh {U} (s : Server) (u : U) : World U := mkWorld s u [].

End cache.

(* ===================================================================== *)
(** * Values, a codec and callbacks, for running the populators           *)
(* ===================================================================== *)

Module memcache.

(** A few Go values a compute callback may return: a string, a bool, and
    a channel, which [json.Marshal] refuses. *)
Inductive value : Type :=
| VString (s : string)
| VBool (b : bool)
| VChan.

Definition as_string (v : value) : option string :=
  match v with
  | VString s => Some s
  | _ => None
  end.

Definition quote : string := String "034" EmptyString.

(** [json.Marshal] on these values (strings without characters to escape). *)
Definition Marshal (v : value) : string + error :=
  match v with
  | VString s => inl (quote +:+ s +:+ quote)
  | VBool true => inl "true"
  | VBool false => inl "false"
  | VChan => inr (errorString "json: unsupported type: chan int")
  end.

(** [json.Unmarshal(data, &dest)] for a destination of type [interface{}]. *)
Definition Unmarshal (data : string) (dest : value) : option error * value :=
  if String.eqb data "true" then (None, VBool true)
  else if String.eqb data "false" then (None, VBool false)
  else
    let n := String.length data in
    if (2 <=? n)%nat && String.eqb (substring 0 1 data) quote
       && String.eqb (substring (n - 1) 1 data) quote
    then (None, VString (substring 1 (n - 2) data))
    else (Some (errorString "invalid character looking for beginning of value"),
          dest).

(** Compute callbacks instrumented with a call counter: the caller's
    state is the number of calls so far.  Panic values are [value]s. *)
Definition ComputeFn : Type := nat -> Outcome value (value + error) * nat.

Definition computes_to (v : value) : ComputeFn :=
  fun n => (Returns (inl v), S n).

Definition fails_with (e : error) : ComputeFn :=
  fun n => (Returns (inr e), S n).

(** A server without faults holding the given entries, and an empty one. *)
Definition serving (m : gmap string cache.Entry) : cache.Server :=
  cache.mkServer m None None.

Definition no_entries : gmap string cache.Entry := empty.

Definition app_cache : cache.Cache := {| cache.KeyPrefix := "myapp:" |}.

Definition hour : Z := 3600000000000.

End memcache.

(* ===================================================================== *)
(** * Formatting with string and integer operands                         *)
(* ===================================================================== *)

Module fmt.

(** An operand of [fmt.Sprintf] / [fmt.Errorf]: a string, an [int64], an
    error, or a slice of strings. *)
Inductive arg : Type :=
| AString (s : string)
| AInt (n : Z)
| AError (e : error)
| AStrings (l : list string).

(** [%d] of an integer. *)
Definition itoa (n : Z) : string := NilZero.string_of_int (Z.to_int n).

Definition hex_digit (n : nat) : ascii :=
  match n with
  | 0 => "0" | 1 => "1" | 2 => "2" | 3 => "3" | 4 => "4" | 5 => "5"
  | 6 => "6" | 7 => "7" | 8 => "8" | 9 => "9" | 10 => "a" | 11 => "b"
  | 12 => "c" | 13 => "d" | 14 => "e" | _ => "f"
  end%char.

(** How [strconv.Quote] writes one byte of ASCII text: the quote and the
    backslash are escaped, the control characters become their escapes,
    the rest stays.  (Bytes of multi-byte characters are left as they
    are; the package quotes ASCII only.) *)
Definition quote_byte (c : ascii) : string :=
  let n := nat_of_ascii c in
  if (n =? 34)%nat then String "\" (String c EmptyString)
  else if (n =? 92)%nat then "\\"
  else if (n =? 7)%nat then "\a"
  else if (n =? 8)%nat then "\b"
  else if (n =? 12)%nat then "\f"
  else if (n =? 10)%nat then "\n"
  else if (n =? 13)%nat then "\r"
  else if (n =? 9)%nat then "\t"
  else if (n =? 11)%nat then "\v"
  else if ((n <? 32) || (n =? 127))%nat
       then String "\" (String "x" (String (hex_digit (n / 16))
                                   (String (hex_digit (n mod 16)) EmptyString)))
  else String c EmptyString.

Fixpoint quote_bytes (s : string) : string :=
  match s with
  | EmptyString => EmptyString
  | String c rest => quote_byte c +:+ quote_bytes rest
  end.

(** [strconv.Quote(s)], what [%q] prints for a string. *)
Definition Quote (s : string) : string :=
  String "034" (quote_bytes s +:+ String "034" EmptyString).

(** [strings.Join(l, sep)] *)
Fixpoint Join (l : list string) (sep : string) : string :=
  match l with
  | [] => EmptyString
  | [x] => x
  | x :: rest => x +:+ sep +:+ Join rest sep
  end.

(** What a verb prints for an operand, for the verbs and operands the
    package combines: [%s] [%v] [%q] [%w] of strings and errors, [%d] and
    [%v] of integers, [%v] of a slice of strings.  Another combination
    prints a marker in place of Go's bad-verb text. *)
Definition render (verb : ascii) (a : arg) : string :=
  match a with
  | AString s =>
      if Ascii.eqb verb "q" then Quote s
      else if Ascii.eqb verb "s" || Ascii.eqb verb "v" then s
      else "%!(BADVERB)"
  | AError e =>
      if Ascii.eqb verb "q" then Quote (Error e)
      else if Ascii.eqb verb "s" || Ascii.eqb verb "v" || Ascii.eqb verb "w"
           then Error e
      else "%!(BADVERB)"
  | AInt n =>
      if Ascii.eqb verb "d" || Ascii.eqb verb "v" then itoa n
      else "%!(BADVERB)"
  | AStrings l =>
      if Ascii.eqb verb "v" || Ascii.eqb verb "s"
      then "[" +:+ Join l " " +:+ "]"
      else "%!(BADVERB)"
  end.

Definition is_verb (c : ascii) : bool :=
  Ascii.eqb c "s" || Ascii.eqb c "v" || Ascii.eqb c "q"
  || Ascii.eqb c "d" || Ascii.eqb c "w".

(** The formatting pass: the text, and the errors met under [%w]. *)
Fixpoint format (f : string) (args : list arg) : string * list error :=
  match f with
  | EmptyString => (EmptyString, [])
  | String "%" (String c rest) =>
      if Ascii.eqb c "%" then
        let '(s, w) := format rest args in (String "%" s, w)
      else if is_verb c then
        match args with
        | a :: args' =>
            let '(s, w) := format rest args' in
            (render c a +:+ s,
             match a with
             | AError e => if Ascii.eqb c "w" then e :: w else w
             | _ => w
             end)
        | [] =>
            let '(s, w) := format rest [] in
            (String "%" (String "!" (String c "(MISSING)")) +:+ s, w)
        end
      else
        let '(s, w) := format rest args in (String "%" (String c s), w)
  | String c rest =>
      let '(s, w) := format rest args in (String c s, w)
  end.

(** [fmt.Sprintf(f, args...)] *)
Definition Sprintf (f : string) (args : list arg) : string :=
  fst (format f args).

(** [fmt.Errorf(f, args...)]: a [wrapError] around the operand of the one
    [%w], a plain string error without [%w]. *)
Definition Errorf (f : string) (args : list arg) : error :=
  match format f args with
  | (s, []) => errorString s
  | (s, e :: _) => wrapError s e
  end.

End fmt.

(* ===================================================================== *)
(** * Durations and machine integers                                      *)
(* ===================================================================== *)

Module time.

(** [time.Duration] is an [int64] count of nanoseconds. *)
Definition Nanosecond : Z := 1.
Definition Millisecond : Z := 1000000.
Definition Second : Z := 1000000000.
Definition Minute : Z := 60 * Second.
Definition Hour : Z := 60 * Minute.

Definition MaxInt64 : Z := 2 ^ 63 - 1.
Definition MinInt64 : Z := - 2 ^ 63.

(** The value an [int64] holds after an operation whose exact result is
    [z]: two's-complement wrap-around. *)
Definition int64 (z : Z) : Z := (z + 2 ^ 63) mod 2 ^ 64 - 2 ^ 63.

(** [d.Milliseconds()]: [int64(d) / 1e6], Go's division truncating toward
    zero. *)
Definition Milliseconds (d : Z) : Z := Z.quot d 1000000.

End time.

(* ===================================================================== *)
(** * Collaborators with a call log                                       *)
(* ===================================================================== *)

Module logged.

(** The world of a function that works on an outside collaborator: the
    collaborator's state [D] and the log of the calls made to it, with
    their operands (ghost state, as in [tx.World]). *)
Record World (E D : Type) : Type := mkWorld { state : D; log : list E }.
Arguments mkWorld {E D} state log.
Arguments state {E D} w.
Arguments log {E D} w.

Section Calls.
Context {any E D : Type}.

(** A call that returns a result. *)
Definition call {R} (ev : E) (op : D -> R * D) : Go any (World E D) R :=
  fun w => let '(r, d) := op (state w) in
           (Returns r, mkWorld d (log w ++ [ev])).

(** A call without a result. *)
Definition call_ (ev : E) (op : D -> D) : Go any (World E D) unit :=
  fun w => (Returns tt, mkWorld (op (state w)) (log w ++ [ev])).

(** A call that may panic instead of returning. *)
Definition call_or_panic {R} (ev : E) (op : D -> Outcome any R * D)
  : Go any (World E D) R :=
  fun w => let '(o, d) := op (state w) in (o, mkWorld d (log w ++ [ev])).

End Calls.

Definition fresh {E D} (d : D) : World E D := mkWorld d [].

End logged.

(* ===================================================================== *)
(** * Opening a SQLite database                                           *)
(* ===================================================================== *)

Module sqlite.
Import logged.

(** [type SQLiteConfig struct] *)
Record SQLiteConfig : Type := mkConfig {
  Path : string;
  WALMode : bool;
  BusyTimeout : Z;
  MaxOpenConns : Z;
  MaxIdleConns : Z;
  ConnMaxLifetime : Z;
  ForeignKeys : bool
}.

(** [func DefaultSQLiteConfig(path string) SQLiteConfig] *)
Definition DefaultSQLiteConfig (path : string) : SQLiteConfig :=
  {| Path := path;
     WALMode := true;
     BusyTimeout := 5 * time.Second;
     MaxOpenConns := 25;
     MaxIdleConns := 5;
     ConnMaxLifetime := time.Hour;
     ForeignKeys := true |}.

(** The calls [OpenSQLiteWithConfig] makes, with their operands. *)
Inductive Event : Type :=
| EvOpen (driverName dsn : string)
| EvSetMaxOpenConns (n : Z)
| EvSetMaxIdleConns (n : Z)
| EvSetConnMaxLifetime (d : Z)
| EvExec (query : string)
| EvPing
| EvClose.

#[global] Instance Event_eq_dec : EqDecision Event.
Proof. solve_decision. Defined.

(** The part of [database/sql] that opening uses. *)
Class SqlOpener (context D DB : Type) : Type := {
  sql_Open : string -> string -> D -> (DB + error) * D;
  db_SetMaxOpenConns : DB -> Z -> D -> D;
  db_SetMaxIdleConns : DB -> Z -> D -> D;
  db_SetConnMaxLifetime : DB -> Z -> D -> D;
  db_ExecContext : DB -> context -> string -> D -> option error * D;
  db_PingContext : DB -> context -> D -> option error * D;
  db_Close : DB -> D -> option error * D
}.

(** The data source name [OpenSQLiteWithConfig] builds from the path. *)
Definition dsn_of (cfg : SQLiteConfig) : string :=
  if decide (Path cfg <> ":memory:")
  then fmt.Sprintf "file:%s?_txlock=immediate" [fmt.AString (Path cfg)]
  else Path cfg.

(** The pragma list [OpenSQLiteWithConfig] builds, append by append. *)
Definition pragmas_of (cfg : SQLiteConfig) : list string :=
  let pragmas := [] in
  let pragmas :=
    if WALMode cfg
    then (pragmas ++ ["PRAGMA journal_mode=WAL"]) ++ ["PRAGMA synchronous=NORMAL"]
    else pragmas in
  let pragmas :=
    if (0 <? BusyTimeout cfg)%Z
    then pragmas ++ [fmt.Sprintf "PRAGMA busy_timeout=%d"
                       [fmt.AInt (time.Milliseconds (BusyTimeout cfg))]]
    else pragmas in
  let pragmas :=
    if ForeignKeys cfg then pragmas ++ ["PRAGMA foreign_keys=ON"] else pragmas in
  pragmas ++ ["PRAGMA cache_size=-2000"; "PRAGMA temp_store=MEMORY"].

Section Open.
Context {any context D DB : Type} `{!SqlOpener context D DB}.
Open Scope go_scope.

(** The loop [for _, pragma := range pragmas] up to its early return:
    [None] when every pragma was executed, else the pragma that failed
    and its error. *)
Fixpoint exec_pragmas (db : DB) (ctx : context) (pragmas : list string)
  : Go any (World Event D) (option (string * error)) :=
  match pragmas with
  | [] => ret None
  | pragma :: rest =>
      err <- call (EvExec pragma) (db_ExecContext db ctx pragma) ;;
      match err with
      | Some err => ret (Some (pragma, err))
      | None => exec_pragmas db ctx rest
      end
  end.

(** [func OpenSQLiteWithConfig(ctx, cfg)], returning the handle or an error *)
Definition OpenSQLiteWithConfig (ctx : context) (cfg : SQLiteConfig)
  : Go any (World Event D) (DB + error) :=
  let dsn := dsn_of cfg in
  r <- call (EvOpen "sqlite" dsn) (sql_Open "sqlite" dsn) ;;
  match r with
  | inr err => ret (inr (fmt.Errorf "failed to open sqlite: %w" [fmt.AError err]))
  | inl db =>
      _ <- (if (0 <? MaxOpenConns cfg)%Z
            then call_ (EvSetMaxOpenConns (MaxOpenConns cfg))
                       (db_SetMaxOpenConns db (MaxOpenConns cfg))
            else ret tt) ;;
      _ <- (if (0 <? MaxIdleConns cfg)%Z
            then call_ (EvSetMaxIdleConns (MaxIdleConns cfg))
                       (db_SetMaxIdleConns db (MaxIdleConns cfg))
            else ret tt) ;;
      _ <- (if (0 <? ConnMaxLifetime cfg)%Z
            then call_ (EvSetConnMaxLifetime (ConnMaxLifetime cfg))
                       (db_SetConnMaxLifetime db (ConnMaxLifetime cfg))
            else ret tt) ;;
      failed <- exec_pragmas db ctx (pragmas_of cfg) ;;
      match failed with
      | Some (pragma, err) =>
          _ <- call EvClose (db_Close db) ;;
          ret (inr (fmt.Errorf "failed to set pragma %q: %w"
                               [fmt.AString pragma; fmt.AError err]))
      | None =>
          err <- call EvPing (db_PingContext db ctx) ;;
          match err with
          | Some err =>
              _ <- call EvClose (db_Close db) ;;
              ret (inr (fmt.Errorf "failed to ping sqlite: %w" [fmt.AError err]))
          | None => ret (inl db)
          end
      end
  end.

(** [func OpenSQLiteContext(ctx, path)], returning the handle or an error *)
Definition OpenSQLiteContext (ctx : context) (path : string)
  : Go any (World Event D) (DB + error) :=
  OpenSQLiteWithConfig ctx (DefaultSQLiteConfig path).

(** [func OpenSQLite(path)], returning the handle or an error; [background] is
    [context.Background()]. *)
Definition OpenSQLite (background : context) (path : string)
  : Go any (World Event D) (DB + error) :=
  OpenSQLiteWithConfig background (DefaultSQLiteConfig path).

(** [func SQLiteInMemory()], returning the handle or an error *)
Definition SQLiteInMemory (background : context)
  : Go any (World Event D) (DB + error) :=
  let cfg := DefaultSQLiteConfig ":memory:" in
  let cfg := mkConfig (Path cfg) false (BusyTimeout cfg) (MaxOpenConns cfg)
                      (MaxIdleConns cfg) (ConnMaxLifetime cfg)
                      (ForeignKeys cfg) in
  let cfg := mkConfig (Path cfg) (WALMode cfg) (BusyTimeout cfg) 1
                      (MaxIdleConns cfg) (ConnMaxLifetime cfg)
                      (ForeignKeys cfg) in
  let cfg := mkConfig (Path cfg) (WALMode cfg) (BusyTimeout cfg)
                      (MaxOpenConns cfg) 1 (ConnMaxLifetime cfg)
                      (ForeignKeys cfg) in
  OpenSQLiteWithConfig background cfg.

(** The driver's state once the pool limits of [cfg] that are positive
    were handed to the handle [db], in the order of the code. *)
Definition with_pool_limits (db : DB) (cfg : SQLiteConfig) (d : D) : D :=
  let d := if (0 <? MaxOpenConns cfg)%Z
           then db_SetMaxOpenConns db (MaxOpenConns cfg) d else d in
  let d := if (0 <? MaxIdleConns cfg)%Z
           then db_SetMaxIdleConns db (MaxIdleConns cfg) d else d in
  if (0 <? ConnMaxLifetime cfg)%Z
  then db_SetConnMaxLifetime db (ConnMaxLifetime cfg) d else d.

(** What the driver answers when the statements [queries] are executed
    one after the other from the state [d]: the state they lead to when
    every one of them succeeds, [None] as soon as one of them fails. *)
Fixpoint succeed_all (db : DB) (ctx : context) (queries : list string) (d : D)
  : option D :=
  match queries with
  | [] => Some d
  | query :: queries =>
      match db_ExecContext db ctx query d with
      | (None, d') => succeed_all db ctx queries d'
      | (Some _, _) => None
      end
  end.
End Open.

(** How often [ev] was called. *)
Definition count (ev : Event) (t : list Event) : nat :=
  count_occ Event_eq_dec t ev.

(** The statements executed, in order. *)
Definition executed (t : list Event) : list string :=
  omap (fun ev => match ev with EvExec q => Some q | _ => None end) t.

(** The pool-setting calls a configuration leads to, in order. *)
Definition setter_calls (cfg : SQLiteConfig) : list Event :=
  (if (0 <? MaxOpenConns cfg)%Z then [EvSetMaxOpenConns (MaxOpenConns cfg)]
   else [])
  ++ (if (0 <? MaxIdleConns cfg)%Z then [EvSetMaxIdleConns (MaxIdleConns cfg)]
      else [])
  ++ (if (0 <? ConnMaxLifetime cfg)%Z
      then [EvSetConnMaxLifetime (ConnMaxLifetime cfg)] else []).

End sqlite.

(* ===================================================================== *)
(** * A scripted SQLite driver, for running the opening                   *)
(* ===================================================================== *)

Module memsqlite.
Import sqlite.

(** A driver that records the pool settings it was given and fails where
    it is told to: at open, at the statement equal to [fail_exec], at
    ping. *)
Record Driver : Type := mkDriver {
  fail_open : option error;
  fail_exec : option (string * error);
  fail_ping : option error;
  max_open : option Z;
  max_idle : option Z;
  max_lifetime : option Z;
  closed : bool
}.

#[global] Instance scripted : SqlOpener unit Driver unit := {
  sql_Open _ _ d :=
    match fail_open d with
    | Some e => (inr e, d)
    | None => (inl tt, d)
    end;
  db_SetMaxOpenConns _ n d :=
    mkDriver (fail_open d) (fail_exec d) (fail_ping d) (Some n) (max_idle d)
             (max_lifetime d) (closed d);
  db_SetMaxIdleConns _ n d :=
    mkDriver (fail_open d) (fail_exec d) (fail_ping d) (max_open d) (Some n)
             (max_lifetime d) (closed d);
  db_SetConnMaxLifetime _ n d :=
    mkDriver (fail_open d) (fail_exec d) (fail_ping d) (max_open d) (max_idle d)
             (Some n) (closed d);
  db_ExecContext _ _ q d :=
    match fail_exec d with
    | Some (q', e) => if String.eqb q q' then (Some e, d) else (None, d)
    | None => (None, d)
    end;
  db_PingContext _ _ d := (fail_ping d, d);
  db_Close _ d :=
    (None, mkDriver (fail_open d) (fail_exec d) (fail_ping d) (max_open d)
                    (max_idle d) (max_lifetime d) true)
}.

Definition working : Driver := mkDriver None None None None None None false.
Definition exec_fails (q : string) (e : error) : Driver :=
  mkDriver None (Some (q, e)) None None None None false.
Definition ping_fails (e : error) : Driver :=
  mkDriver None None (Some e) None None None false.
Definition open_fails (e : error) : Driver :=
  mkDriver (Some e) None None None None None false.

(** The state of [exec_fails q e] once the default pool limits were
    handed to it. *)
Definition limits_set (q : string) (e : error) : Driver :=
  mkDriver None (Some (q, e)) None (Some 25%Z) (Some 5%Z) (Some time.Hour)
           false.

End memsqlite.

(* ===================================================================== *)
(** * Opening a PostgreSQL pool                                           *)
(* ===================================================================== *)

Module postgres.
Import logged.

(** [type PostgresConfig struct]; [MaxConns] and [MinConns] are [int32],
    the others durations. *)
Record PostgresConfig : Type := mkConfig {
  URL : string;
  MaxConns : Z;
  MinConns : Z;
  MaxConnLifetime : Z;
  MaxConnIdleTime : Z;
  HealthCheckPeriod : Z
}.

(** [func DefaultPostgresConfig(url string) PostgresConfig] *)
Definition DefaultPostgresConfig (url : string) : PostgresConfig :=
  {| URL := url;
     MaxConns := 25;
     MinConns := 5;
     MaxConnLifetime := time.Hour;
     MaxConnIdleTime := 30 * time.Minute;
     HealthCheckPeriod := time.Minute |}.

(** The fields of [pgxpool.Config] that the package touches; [conn] is the
    rest of what [pgxpool.ParseConfig] made of the connection string. *)
Record PoolConfig (C : Type) : Type := mkPoolConfig {
  conn : C;
  pc_MaxConns : Z;
  pc_MinConns : Z;
  pc_MaxConnLifetime : Z;
  pc_MaxConnIdleTime : Z;
  pc_HealthCheckPeriod : Z
}.
Arguments mkPoolConfig {C} conn _ _ _ _ _.
Arguments conn {C} p.
Arguments pc_MaxConns {C} p.
Arguments pc_MinConns {C} p.
Arguments pc_MaxConnLifetime {C} p.
Arguments pc_MaxConnIdleTime {C} p.
Arguments pc_HealthCheckPeriod {C} p.

(** The calls the opening functions make, with their operands. *)
Inductive Event (C : Type) : Type :=
| EvParseConfig (connString : string)
| EvNewWithConfig (poolCfg : PoolConfig C)
| EvNew (connString : string)
| EvPing
| EvClose.
Arguments EvParseConfig {C} connString.
Arguments EvNewWithConfig {C} poolCfg.
Arguments EvNew {C} connString.
Arguments EvPing {C}.
Arguments EvClose {C}.

(** The part of [pgxpool] that opening uses. *)
Class PgxOpener (context D C Pool : Type) : Type := {
  pgxpool_ParseConfig : string -> D -> (PoolConfig C + error) * D;
  pgxpool_NewWithConfig : context -> PoolConfig C -> D -> (Pool + error) * D;
  pgxpool_New : context -> string -> D -> (Pool + error) * D;
  pool_Ping : Pool -> context -> D -> option error * D;
  pool_Close : Pool -> D -> D
}.

(** The block "Apply configuration" of [OpenPostgresWithConfig]: a
    positive field of [cfg] replaces the parsed one. *)
Definition apply_config {C} (cfg : PostgresConfig) (poolCfg : PoolConfig C)
  : PoolConfig C :=
  let poolCfg :=
    if (0 <? MaxConns cfg)%Z
    then mkPoolConfig (conn poolCfg) (MaxConns cfg) (pc_MinConns poolCfg)
           (pc_MaxConnLifetime poolCfg) (pc_MaxConnIdleTime poolCfg)
           (pc_HealthCheckPeriod poolCfg)
    else poolCfg in
  let poolCfg :=
    if (0 <? MinConns cfg)%Z
    then mkPoolConfig (conn poolCfg) (pc_MaxConns poolCfg) (MinConns cfg)
           (pc_MaxConnLifetime poolCfg) (pc_MaxConnIdleTime poolCfg)
           (pc_HealthCheckPeriod poolCfg)
    else poolCfg in
  let poolCfg :=
    if (0 <? MaxConnLifetime cfg)%Z
    then mkPoolConfig (conn poolCfg) (pc_MaxConns poolCfg) (pc_MinConns poolCfg)
           (MaxConnLifetime cfg) (pc_MaxConnIdleTime poolCfg)
           (pc_HealthCheckPeriod poolCfg)
    else poolCfg in
  let poolCfg :=
    if (0 <? MaxConnIdleTime cfg)%Z
    then mkPoolConfig (conn poolCfg) (pc_MaxConns poolCfg) (pc_MinConns poolCfg)
           (pc_MaxConnLifetime poolCfg) (MaxConnIdleTime cfg)
           (pc_HealthCheckPeriod poolCfg)
    else poolCfg in
  if (0 <? HealthCheckPeriod cfg)%Z
  then mkPoolConfig (conn poolCfg) (pc_MaxConns poolCfg) (pc_MinConns poolCfg)
         (pc_MaxConnLifetime poolCfg) (pc_MaxConnIdleTime poolCfg)
         (HealthCheckPeriod cfg)
  else poolCfg.

Section Open.
Context {any context D C Pool : Type} `{!PgxOpener context D C Pool}.
Open Scope go_scope.

(** [func OpenPostgresWithConfig(ctx, cfg)], returning the pool or an
    error. *)
Definition OpenPostgresWithConfig (ctx : context) (cfg : PostgresConfig)
  : Go any (World (Event C) D) (Pool + error) :=
  r <- call (EvParseConfig (URL cfg)) (pgxpool_ParseConfig (URL cfg)) ;;
  match r with
  | inr err => ret (inr (fmt.Errorf "invalid postgres URL: %w" [fmt.AError err]))
  | inl poolCfg =>
      let poolCfg := apply_config cfg poolCfg in
      r <- call (EvNewWithConfig poolCfg) (pgxpool_NewWithConfig ctx poolCfg) ;;
      match r with
      | inr err =>
          ret (inr (fmt.Errorf "failed to create postgres pool: %w"
                               [fmt.AError err]))
      | inl pool =>
          err <- call EvPing (pool_Ping pool ctx) ;;
          match err with
          | Some err =>
              _ <- call_ EvClose (pool_Close pool) ;;
              ret (inr (fmt.Errorf "failed to ping postgres: %w"
                                   [fmt.AError err]))
          | None => ret (inl pool)
          end
      end
  end.

(** [func OpenPostgres(ctx, url)], returning the pool or an error. *)
Definition OpenPostgres (ctx : context) (url : string)
  : Go any (World (Event C) D) (Pool + error) :=
  OpenPostgresWithConfig ctx (DefaultPostgresConfig url).

(** [func PostgresFromEnv(ctx)], returning the pool or an error. *)
Definition PostgresFromEnv (ctx : context)
  : Go any (World (Event C) D) (Pool + error) :=
  r <- call (EvNew "") (pgxpool_New ctx "") ;;
  match r with
  | inr err =>
      ret (inr (fmt.Errorf "failed to create postgres pool from env: %w"
                           [fmt.AError err]))
  | inl pool =>
      err <- call EvPing (pool_Ping pool ctx) ;;
      match err with
      | Some err =>
          _ <- call_ EvClose (pool_Close pool) ;;
          ret (inr (fmt.Errorf "failed to ping postgres: %w" [fmt.AError err]))
      | None => ret (inl pool)
      end
  end.
End Open.

End postgres.

(* ===================================================================== *)
(** * A scripted pool driver, for running the opening                     *)
(* ===================================================================== *)

Module mempgx.
Import postgres.

(** A driver that parses every connection string to the pool settings
    [parsed] (as if the string carried them), fails where it is told to,
    and counts the pools it has open. *)
Record Driver : Type := mkDriver {
  parsed : PoolConfig string;
  fail_parse : option error;
  fail_new : option error;
  fail_ping : option error;
  open_pools : Z
}.

Definition with_pools (n : Z) (d : Driver) : Driver :=
  mkDriver (parsed d) (fail_parse d) (fail_new d) (fail_ping d) n.

#[global] Instance scripted : PgxOpener unit Driver string (PoolConfig string) := {
  pgxpool_ParseConfig url d :=
    match fail_parse d with
    | Some e => (inr e, d)
    | None => (inl (mkPoolConfig url (pc_MaxConns (parsed d))
                      (pc_MinConns (parsed d)) (pc_MaxConnLifetime (parsed d))
                      (pc_MaxConnIdleTime (parsed d))
                      (pc_HealthCheckPeriod (parsed d))), d)
    end;
  pgxpool_NewWithConfig _ poolCfg d :=
    match fail_new d with
    | Some e => (inr e, d)
    | None => (inl poolCfg, with_pools (open_pools d + 1) d)
    end;
  pgxpool_New _ connString d :=
    match fail_new d with
    | Some e => (inr e, d)
    | None => (inl (parsed d), with_pools (open_pools d + 1) d)
    end;
  pool_Ping _ _ d := (fail_ping d, d);
  pool_Close _ d := with_pools (open_pools d - 1) d
}.

(** What [pgxpool.ParseConfig] gives for a URL with
    [pool_max_conns=4&pool_min_conns=0] and no other pool parameter. *)
Definition url_settings : PoolConfig string :=
  mkPoolConfig "" 4 0 time.Hour (30 * time.Minute) time.Minute.

Definition working : Driver := mkDriver url_settings None None None 0.
Definition ping_fails (e : error) : Driver :=
  mkDriver url_settings None None (Some e) 0.

End mempgx.

(* ===================================================================== *)
(** * The retrying HTTP client                                            *)
(* ===================================================================== *)

Module httpclient.

(** [type HTTPConfig struct] *)
Record HTTPConfig : Type := mkConfig {
  Timeout : Z;
  RetryMax : Z;
  RetryWait : Z
}.

(** The fields of [*retryablehttp.Client] that [NewHTTPClient] sets
    ([HTTPClient_Timeout] is [client.HTTPClient.Timeout]); [rest] is what
    else [retryablehttp.NewClient()] put into the client. *)
Record Client (R : Type) : Type := mkClient {
  rest : R;
  HTTPClient_Timeout : Z;
  client_RetryMax : Z;
  RetryWaitMin : Z;
  RetryWaitMax : Z
}.
Arguments mkClient {R} rest _ _ _ _.
Arguments rest {R} c.
Arguments HTTPClient_Timeout {R} c.
Arguments client_RetryMax {R} c.
Arguments RetryWaitMin {R} c.
Arguments RetryWaitMax {R} c.

(** [func NewHTTPClient(cfg HTTPConfig) *retryablehttp.Client];
    [NewClient] is what [retryablehttp.NewClient()] returns. *)
Definition NewHTTPClient {R} (NewClient : Client R) (cfg : HTTPConfig)
  : Client R :=
  let client := NewClient in
  let timeout := Timeout cfg in
  let timeout := if (timeout =? 0)%Z then time.int64 (30 * time.Second)
                 else timeout in
  let client := mkClient (rest client) timeout (client_RetryMax client)
                         (RetryWaitMin client) (RetryWaitMax client) in
  let client :=
    if (0 <? RetryMax cfg)%Z
    then mkClient (rest client) (HTTPClient_Timeout client) (RetryMax cfg)
                  (RetryWaitMin client) (RetryWaitMax client)
    else mkClient (rest client) (HTTPClient_Timeout client) 3
                  (RetryWaitMin client) (RetryWaitMax client) in
  if (0 <? RetryWait cfg)%Z
  then mkClient (rest client) (HTTPClient_Timeout client)
                (client_RetryMax client) (RetryWait cfg)
                (time.int64 (RetryWait cfg * 10))
  else mkClient (rest client) (HTTPClient_Timeout client)
                (client_RetryMax client) (time.int64 (1 * time.Second))
                (time.int64 (10 * time.Second)).

(** A duration an [int64] can hold. *)
Definition is_duration (d : Z) : Prop :=
  (time.MinInt64 <= d <= time.MaxInt64)%Z.

End httpclient.

(* ===================================================================== *)
(** * Loading configuration                                               *)
(* ===================================================================== *)

Module config.
Import logged.

(** The part of [*viper.Viper] that loading uses, for a target type [T].
    [ReadInConfig] reads the file set by [SetConfigFile] (the file system
    is part of the instance); [Unmarshal v result] is
    [v.Unmarshal(&result)] and gives the error and what [result] holds
    afterwards. *)
Class Viper (V T : Type) : Type := {
  viper_New : V;
  AutomaticEnv : V -> V;
  SetEnvKeyReplacer : string -> string -> V -> V;
  SetConfigFile : string -> V -> V;
  ReadInConfig : V -> option error * V;
  Unmarshal : V -> T -> option error * T
}.

Section Load.
Context {any V T : Type} `{!Viper V T}.
Open Scope go_scope.

(** A call on the viper instance that is not logged. *)
Definition set (f : V -> V) : Go any (World string V) unit :=
  fun w => (Returns tt, mkWorld (f (state w)) (log w)).

(** The loop over [paths] with its [break]: the value of [configFound]
    after it.  The log holds the paths handed to [ReadInConfig]. *)
Fixpoint try_paths (paths : list string) : Go any (World string V) bool :=
  match paths with
  | [] => ret false
  | path :: rest =>
      _ <- set (SetConfigFile path) ;;
      err <- call path ReadInConfig ;;
      match err with
      | None => ret true
      | Some _ => try_paths rest
      end
  end.

(** [func LoadConfigWithDefaults[T any](defaults T, paths ...string) (T, error)],
    run on the viper instance it creates; [zero] is the zero value of [T].
    Returns the pair of results, with the instance and the log of reads. *)
Definition LoadConfigWithDefaults (zero : T) (defaults : T) (paths : list string)
  : Outcome any (T * option error) * World string V :=
  (_ <- set AutomaticEnv ;;
   _ <- set (SetEnvKeyReplacer "." "_") ;;
   configFound <- try_paths paths ;;
   if negb configFound && (0 <? length paths)%nat
   then ret (defaults,
             Some (fmt.Errorf "no config file found in paths: %v"
                              [fmt.AStrings paths]))
   else
     v <- (fun w => (Returns (state w), w)) ;;
     let result := zero in
     match Unmarshal v result with
     | (Some err, _) =>
         ret (defaults,
              Some (fmt.Errorf "failed to unmarshal config: %w" [fmt.AError err]))
     | (None, result) => ret (result, None)
     end)
  (mkWorld viper_New []).

(** [func LoadConfig[T any](paths ...string) (T, error)] *)
Definition LoadConfig (zero : T) (paths : list string)
  : Outcome any (T * option error) * World string V :=
  LoadConfigWithDefaults zero zero paths.
End Load.

(** The paths up to and including the first one that can be read. *)
Fixpoint up_to_first (readable : string -> bool) (paths : list string)
  : list string :=
  match paths with
  | [] => []
  | path :: rest =>
      if readable path then [path] else path :: up_to_first readable rest
  end.

End config.

(* ===================================================================== *)
(** * A viper over a file table, for running the loader                   *)
(* ===================================================================== *)

Module memviper.
Import config.

(** The target type: a host and a port. *)
Record AppConfig : Type := mkApp { host : string; port : Z }.

(** A viper instance: the file it was pointed at and the configuration
    it has read. *)
Record Instance : Type := mkInstance {
  config_file : string;
  loaded : option AppConfig
}.

(** Viper over a fixed file table [fs]: a path without entry cannot be
    read; decoding into the target fails when [decodable] is false. *)
Definition on_files (fs : gmap string AppConfig) (decodable : bool)
  : Viper Instance AppConfig := {|
  viper_New := mkInstance "" None;
  AutomaticEnv v := v;
  SetEnvKeyReplacer _ _ v := v;
  SetConfigFile path v := mkInstance path (loaded v);
  ReadInConfig v :=
    match fs !! config_file v with
    | Some c => (None, mkInstance (config_file v) (Some c))
    | None => (Some (errorString "no such file or directory"), v)
    end;
  Unmarshal v result :=
    if decodable
    then (None, match loaded v with Some c => c | None => result end)
    else (Some (errorString "cannot decode"), result)
|}.

(** Whether the file table holds the path. *)
Definition readable_in (fs : gmap string AppConfig) (path : string) : bool :=
  match fs !! path with
  | Some _ => true
  | None => false
  end.

Definition zero : AppConfig := mkApp "" 0.
Definition local : AppConfig := mkApp "localhost" 5432.
Definition prod : AppConfig := mkApp "db.internal" 6432.

Definition one_file : gmap string AppConfig := <["config.json" := prod]> empty.

End memviper.

(* ===================================================================== *)
(** * Validation helpers                                                  *)
(* ===================================================================== *)

Module validate.

(** [type ValidatorConfig struct] *)
Record ValidatorConfig : Type := mkConfig { UseJSONNames : bool }.

#[global] Instance ValidatorConfig_eq_dec : EqDecision ValidatorConfig.
Proof. solve_decision. Defined.

(** What the tag-name function reads of a [reflect.StructField]: the Go
    name of the field and the value of its [json] tag
    ([fld.Tag.Get("json")], empty when there is none). *)
Record StructField : Type := mkField { Name : string; json_tag : string }.

(** Where [s] is cut at the first [sep]: the text before it and the text
    after it, if [sep] occurs. *)
Fixpoint cut (s : string) (sep : ascii) : option (string * string) :=
  match s with
  | EmptyString => None
  | String c rest =>
      if Ascii.eqb c sep then Some (EmptyString, rest)
      else match cut rest sep with
           | Some (before, after) => Some (String c before, after)
           | None => None
           end
  end.

(** Whether the byte [c] occurs in [s]. *)
Fixpoint has_byte (c : ascii) (s : string) : bool :=
  match s with
  | EmptyString => false
  | String c' rest => Ascii.eqb c' c || has_byte c rest
  end.

(** [strings.SplitN(s, sep, 2)] for a separator of one byte. *)
Definition SplitN2 (s : string) (sep : ascii) : list string :=
  match cut s sep with
  | Some (before, after) => [before; after]
  | None => [s]
  end.

(** The function [NewValidator] hands to [RegisterTagNameFunc]. *)
Definition json_name (fld : StructField) : string :=
  let name := nth 0 (SplitN2 (json_tag fld) ",") EmptyString in
  if String.eqb name "-" then EmptyString
  else if String.eqb name EmptyString then Name fld
  else name.

(** The condition under which [NewValidator] registers [json_name]:
    [cfg.UseJSONNames || cfg == (ValidatorConfig{})]. *)
Definition registers_json_names (cfg : ValidatorConfig) : bool :=
  UseJSONNames cfg || bool_decide (cfg = mkConfig false).

(** What [ValidationErrors] reads of a [validator.FieldError]. *)
Record FieldError : Type := mkFieldError {
  Field : string;
  Tag : string;
  Param : string
}.

(** [func validationMessage(fe validator.FieldError) string] *)
Definition validationMessage (fe : FieldError) : string :=
  let tag := Tag fe in
  if String.eqb tag "required" then "is required"
  else if String.eqb tag "notblank" then "cannot be blank"
  else if String.eqb tag "email" then "must be a valid email"
  else if String.eqb tag "url" then "must be a valid URL"
  else if String.eqb tag "uuid" then "must be a valid UUID"
  else if String.eqb tag "min" then "is too short"
  else if String.eqb tag "max" then "is too long"
  else if String.eqb tag "gte"
       then "must be greater than or equal to " +:+ Param fe
  else if String.eqb tag "lte"
       then "must be less than or equal to " +:+ Param fe
  else if String.eqb tag "oneof" then "must be one of: " +:+ Param fe
  else "failed " +:+ Tag fe +:+ " validation".

(** The dynamic type of the [err] handed to [ValidationErrors]: a
    [validator.ValidationErrors] (a slice of field errors), or anything
    else, nil included. *)
Inductive ErrValue : Type :=
| IsValidationErrors (ve : list FieldError)
| IsOther (err : option error).

(** [func ValidationErrors(err error) map[string]string]; the nil map is
    [None]. *)
Definition ValidationErrors (err : ErrValue) : option (gmap string string) :=
  match err with
  | IsOther _ => None
  | IsValidationErrors ve =>
      Some (fold_left (fun errors fe => <[Field fe := validationMessage fe]> errors)
                      ve empty)
  end.

End validate.

(* ===================================================================== *)
(** * HTTP response helpers                                               *)
(* ===================================================================== *)

Module response.
Import logged.

(** The calls the helpers make on an [http.ResponseWriter]. *)
Inductive Event : Type :=
| EvHeaderSet (key value : string)
| EvWriteHeader (status : Z)
| EvWrite (body : string).

Definition StatusOK : Z := 200.
Definition StatusNoContent : Z := 204.

(** The part of the interface [http.ResponseWriter] the helpers use, on
    the writer's state [W]: [w.Header().Set(key, value)],
    [w.WriteHeader(status)] and [w.Write(body)].  The methods are the
    writer's own: each of them returns or panics (the writers of
    [net/http] panic in [WriteHeader] for a status outside 100..999). *)
Class ResponseWriter (any W : Type) : Type := {
  w_Header_Set : string -> string -> W -> Outcome any unit * W;
  w_WriteHeader : Z -> W -> Outcome any unit * W;
  w_Write : string -> W -> Outcome any (option error) * W
}.

Section Helpers.
(** [any] is the type of the data to encode and of panic values;
    [Marshal] is the encoding of [encoding/json], which returns the
    text or an error, or passes on the panic of a marshalling method;
    [error_body message] is the value
    [map[string]string{"error": message}]. *)
Context {any W : Type} `{!ResponseWriter any W}.
Context (Marshal : any -> Outcome any (string + error)).
Context (error_body : string -> any).
Open Scope go_scope.

(** [json.NewEncoder(w).Encode(data)]: the value is encoded first; only
    an encoded value is written, followed by a newline. *)
Definition Encode (data : any) : Go any (World Event W) (option error) :=
  match Marshal data with
  | Panics p => panic p
  | Returns (inr err) => ret (Some err)
  | Returns (inl b) =>
      let body := b +:+ String "010" EmptyString in
      call_or_panic (EvWrite body) (w_Write body)
  end.

(** [func JSONStatus(w, status, data)] *)
Definition JSONStatus (status : Z) (data : any) : Go any (World Event W) unit :=
  _ <- call_or_panic (EvHeaderSet "Content-Type" "application/json")
                     (w_Header_Set "Content-Type" "application/json") ;;
  _ <- call_or_panic (EvWriteHeader status) (w_WriteHeader status) ;;
  _ <- Encode data ;;
  ret tt.

(** [func JSON(w, data)] *)
Definition JSON (data : any) : Go any (World Event W) unit :=
  JSONStatus StatusOK data.

(** [func JSONStatusE(w, status, data) error] *)
Definition JSONStatusE (status : Z) (data : any)
  : Go any (World Event W) (option error) :=
  _ <- call_or_panic (EvHeaderSet "Content-Type" "application/json")
                     (w_Header_Set "Content-Type" "application/json") ;;
  _ <- call_or_panic (EvWriteHeader status) (w_WriteHeader status) ;;
  err <- Encode data ;;
  match err with
  | Some err => ret (Some (fmt.Errorf "json encode: %w" [fmt.AError err]))
  | None => ret None
  end.

(** [func Error(w, status, message)] *)
Definition Error (status : Z) (message : string) : Go any (World Event W) unit :=
  JSONStatus status (error_body message).

(** [func NoContent(w)] *)
Definition NoContent : Go any (World Event W) unit :=
  call_or_panic (EvWriteHeader StatusNoContent) (w_WriteHeader StatusNoContent).
End Helpers.

End response.

(* ===================================================================== *)
(** * A recording response writer, for running the helpers                *)
(* ===================================================================== *)

Module memwriter.
Import response.

(** A writer that keeps what it is given, after
    [httptest.ResponseRecorder]: the header fields set, whether the
    status was written and which, and the body. *)
Record Recorder : Type := mkRecorder {
  HeaderMap : list (string * string);
  wroteHeader : bool;
  Code : Z;
  Body : string
}.

(** The check of [net/http] on a status: outside 100..999 it panics. *)
Definition checkWriteHeaderCode (code : Z) : option string :=
  if ((code <? 100) || (999 <? code))%Z
  then Some (fmt.Sprintf "invalid WriteHeader code %v" [fmt.AInt code])
  else None.

#[global] Instance recorder : ResponseWriter string Recorder := {
  w_Header_Set key value r :=
    (Returns tt,
     mkRecorder ((key, value) :: HeaderMap r) (wroteHeader r) (Code r) (Body r));
  w_WriteHeader code r :=
    if wroteHeader r then (Returns tt, r)
    else match checkWriteHeaderCode code with
         | Some p => (Panics p, r)
         | None => (Returns tt, mkRecorder (HeaderMap r) true code (Body r))
         end;
  w_Write body r :=
    (Returns None,
     mkRecorder (HeaderMap r) true (if wroteHeader r then Code r else 200%Z)
                (Body r +:+ body))
}.

Definition empty : Recorder := mkRecorder [] false 200 EmptyString.

(** An encoder of strings that refuses the text ["NaN"], as
    [encoding/json] refuses the number. *)
Definition marshal (data : string) : Outcome string (string + error) :=
  if String.eqb data "NaN"
  then Returns (inr (errorString "json: unsupported value: NaN"))
  else Returns (inl (fmt.Quote data)).

End memwriter.

(* ===================================================================== *)
(** * Terminal tables                                                     *)
(* ===================================================================== *)

Module cli.

(** An [io.Writer] a table prints to: [os.Stdout], or the
    [strings.Builder] number [id]. *)
Inductive Writer : Type :=
| Stdout
| Builder (id : nat).

(** [type Table struct] *)
Record Table : Type := mkTable {
  headers : list string;
  rows : list (list string);
  writer : Writer
}.

(** What has been written so far: to standard output, and to each
    builder made so far, in the order they were made. *)
Record Output : Type := mkOutput {
  stdout : string;
  builders : list string
}.

(** Appends [text] to what [w] holds. *)
Definition write_to (w : Writer) (text : string) (o : Output) : Output :=
  match w with
  | Stdout => mkOutput (stdout o +:+ text) (builders o)
  | Builder id =>
      mkOutput (stdout o)
               (alter (fun held => held +:+ text) id (builders o))
  end.

Section Tables.
(** [render headers rows] is the text of the [lipgloss] table built in
    [Print] from the headers and the rows. *)
Context (render : list string -> list (list string) -> string).

(** [func NewTable(headers ...string) *Table] *)
Definition NewTable (headers : list string) : Table :=
  mkTable headers [] Stdout.

(** [func (t *Table) AddRow(values ...string) *Table] *)
Definition AddRow (t : Table) (values : list string) : Table :=
  mkTable (headers t) (rows t ++ [values]) (writer t).

(** [func (t *Table) SetWriter(w io.Writer) *Table] *)
Definition SetWriter (t : Table) (w : Writer) : Table :=
  mkTable (headers t) (rows t) w.

(** [func (t *Table) Print()]: [fmt.Fprintln] of the rendered table. *)
Definition Print (t : Table) (o : Output) : Output :=
  if (length (rows t) =? 0)%nat then o
  else write_to (writer t)
                (render (headers t) (rows t) +:+ String "010" EmptyString) o.

(** [func (t *Table) String() string]: the text, the table as the call
    leaves it, and the output with the new builder. *)
Definition String_ (t : Table) (o : Output) : string * Table * Output :=
  let sb := length (builders o) in
  let o := mkOutput (stdout o) (builders o ++ [EmptyString]) in
  let t := SetWriter t (Builder sb) in
  let o := Print t o in
  (nth sb (builders o) EmptyString, t, o).

(** [func SimpleTable(headers []string, rows [][]string)] *)
Definition SimpleTable (headers : list string) (rows : list (list string))
    (o : Output) : Output :=
  let t := NewTable headers in
  let t := fold_left AddRow rows t in
  Print t o.
End Tables.

End cli.

(* ===================================================================== *)
(** * Facts about errors                                                  *)
(* ===================================================================== *)

Lemma append_nil_r (s : string) : s +:+ "" = s.
Proof.
  induction s as [|c s IH]; [reflexivity |].
  change (String c (s +:+ "") = String c s). now rewrite IH.
Qed.

Lemma length_append (s1 s2 : string) :
  String.length (s1 +:+ s2) = String.length s1 + String.length s2.
Proof.
  induction s1 as [|c s1 IH]; [reflexivity |].
  change (S (String.length (s1 +:+ s2))
          = S (String.length s1) + String.length s2).
  now rewrite IH.
Qed.

Lemma Errorf_begin (e : error) :
  Errorf "failed to begin transaction: %w" [e]
  = wrapError ("failed to begin transaction: " +:+ Error e) e.
Proof. unfold Errorf; simpl. now rewrite append_nil_r. Qed.

Lemma Errorf_commit (e : error) :
  Errorf "failed to commit transaction: %w" [e]
  = wrapError ("failed to commit transaction: " +:+ Error e) e.
Proof. unfold Errorf; simpl. now rewrite append_nil_r. Qed.

Lemma Errorf_rollback (rbErr err : error) :
  Errorf "rollback failed: %v (original error: %w)" [rbErr; err]
  = wrapError ("rollback failed: " +:+ Error rbErr +:+
               " (original error: " +:+ Error err +:+ ")") err.
Proof. reflexivity. Qed.

Lemma Is_refl (e : error) : Is e e = true.
Proof. destruct e; simpl; now rewrite decide_True. Qed.

Lemma Is_chain (e target : error) : Is e target = true <-> In target (chain e).
Proof.
  induction e as [s | msg inner IH]; simpl.
  - destruct (decide (errorString s = target)) as [Heq | Hne].
    + split; auto.
    + split; [discriminate | intros [H | []]; contradiction].
  - destruct (decide (wrapError msg inner = target)) as [Heq | Hne].
    + split; auto.
    + rewrite IH. split; [auto | intros [H | H]; [contradiction | exact H]].
Qed.

(** A wrapper is never the error it wraps. *)
Lemma wrapError_neq (e : error) : forall msg : string, wrapError msg e <> e.
Proof.
  induction e as [s | m inner IH]; intros msg H; [discriminate |].
  injection H as _ H. exact (IH m H).
Qed.

(** The compound error of a failed rollback is never the rollback error
    itself: its message is strictly longer than the rollback error's. *)
Lemma compound_fresh (rbErr err : error) :
  wrapError ("rollback failed: " +:+ Error rbErr +:+
             " (original error: " +:+ Error err +:+ ")") err <> rbErr.
Proof.
  intros H. apply (f_equal (fun e => String.length (Error e))) in H.
  simpl in H. rewrite !length_append in H. simpl in H. lia.
Qed.

(* ===================================================================== *)
(** * Facts about the coordinators                                        *)
(* ===================================================================== *)

Section CoordinatorFacts.
Context {any context D Pool Tx DB STx : Type}.
Context `{!PgxPool context D Pool Tx} `{!SqlDB context D DB STx}.

(** [WithTransaction] takes exactly the exit paths of the table. *)
Lemma WithTransaction_exit_paths (ctx : context) (pool : Pool)
      (fn : Tx -> D -> Outcome any (option error) * D) (w : World D) :
    WithTransaction ctx pool fn w
    = exit_paths (pool_Begin pool ctx) (fun tx => pgxtx_Commit tx ctx)
                 (fun tx => pgxtx_Rollback tx ctx) fn w.
  Proof.
    unfold WithTransaction, exit_paths, bind, call, invoke, defer_recover,
      ret, panic.
    destruct (pool_Begin pool ctx (store w)) as [[tx | e] d1]; simpl.
    - destruct (fn tx d1) as [[[err |] | p] d2]; simpl.
      + destruct (pgxtx_Rollback tx ctx d2) as [[rbErr |] d3]; simpl;
          rewrite <- ?app_assoc; reflexivity.
      + destruct (pgxtx_Commit tx ctx d2) as [[e |] d3]; simpl;
          rewrite <- ?app_assoc, ?Errorf_commit; reflexivity.
      + destruct (pgxtx_Rollback tx ctx d2) as [rb d3]; simpl;
          rewrite <- ?app_assoc; reflexivity.
    - now rewrite Errorf_begin.
  Qed.

(** [SQLiteTransaction] takes exactly the exit paths of the table. *)
Lemma SQLiteTransaction_exit_paths (ctx : context) (db : DB)
      (fn : STx -> D -> Outcome any (option error) * D) (w : World D) :
    SQLiteTransaction ctx db fn w
    = exit_paths (db_BeginTx db ctx None) sqltx_Commit sqltx_Rollback fn w.
  Proof.
    unfold SQLiteTransaction, exit_paths, bind, call, invoke, defer_recover,
      ret, panic.
    destruct (db_BeginTx db ctx None (store w)) as [[tx | e] d1]; simpl.
    - destruct (fn tx d1) as [[[err |] | p] d2]; simpl.
      + destruct (sqltx_Rollback tx d2) as [[rbErr |] d3]; simpl;
          rewrite <- ?app_assoc; reflexivity.
      + destruct (sqltx_Commit tx d2) as [[e |] d3]; simpl;
          rewrite <- ?app_assoc, ?Errorf_commit; reflexivity.
      + destruct (sqltx_Rollback tx d2) as [rb d3]; simpl;
          rewrite <- ?app_assoc; reflexivity.
    - now rewrite Errorf_begin.
  Qed.
End CoordinatorFacts.

(* ===================================================================== *)
(** * The coordinators on the in-memory store                             *)
(* ===================================================================== *)

(** A unit of work that inserts a row and returns nil: the row is visible
    after the call. *)
Example commit_publishes_the_insert :
  memdb.rows (store (snd (WithTransaction (any := string) tt tt
                            (memdb.insert "a")
                            (fresh (memdb.healthy ["x"])))))
  = ["x"; "a"].
Proof. reflexivity. Qed.

(** A unit of work that inserts a row and then returns an error: as many
    rows after the call as before it. *)
Example rollback_keeps_the_row_count :
  length (memdb.rows
            (store (snd (SQLiteTransaction (any := string) tt tt
                           (memdb.insert_then_fail "a" (errorString "boom"))
                           (fresh (memdb.healthy ["x"; "y"]))))))
  = length ["x"; "y"].
Proof. reflexivity. Qed.

(** A unit of work that inserts a row and then panics: the handle is
    closed, the row is gone, the panic value is the callback's. *)
Example panic_discards_the_insert :
  WithTransaction tt tt (memdb.insert_then_panic "a" "boom")
                  (fresh (memdb.healthy ["x"]))
  = (Panics "boom",
     mkWorld (memdb.healthy ["x"]) [EvBegin; EvInvoke; EvRollback]).
Proof. reflexivity. Qed.

(** The three messages the coordinators format. *)
Example Errorf_messages :
  Error (Errorf "failed to begin transaction: %w" [errorString "pool closed"])
  = "failed to begin transaction: pool closed"
  /\ Error (Errorf "failed to commit transaction: %w" [errorString "disk full"])
     = "failed to commit transaction: disk full"
  /\ Error (Errorf "rollback failed: %v (original error: %w)"
                   [errorString "connection lost"; errorString "boom"])
     = "rollback failed: connection lost (original error: boom)".
Proof. repeat split. Qed.

(* ===================================================================== *)
(** * Properties of the transaction coordinators                          *)
(* ===================================================================== *)

Section CoordinatorClaims.
Context {any context D Pool Tx DB STx : Type}.
Context `{!PgxPool context D Pool Tx} `{!SqlDB context D DB STx}.

(** C1.  When the unit of work panics, the coordinator catches the panic,
    attempts the rollback once and, whatever the rollback returns (its
    result is dropped), panics again with the same value: the call never
    ends in an ordinary return.  Holds for [WithTransaction] and for
    [SQLiteTransaction]. *)
Theorem panic_rolls_back_and_is_raised_again :
  (forall (ctx : context) (pool : Pool)
          (fn : Tx -> D -> Outcome any (option error) * D) (w : World D)
          (tx : Tx) (d1 d2 : D) (p : any),
      pool_Begin pool ctx (store w) = (inl tx, d1) ->
      fn tx d1 = (Panics p, d2) ->
      WithTransaction ctx pool fn w
      = (Panics p,
         mkWorld (snd (pgxtx_Rollback tx ctx d2))
                 (trace w ++ [EvBegin; EvInvoke; EvRollback])))
  /\
  (forall (ctx : context) (db : DB)
          (fn : STx -> D -> Outcome any (option error) * D) (w : World D)
          (tx : STx) (d1 d2 : D) (p : any),
      db_BeginTx db ctx None (store w) = (inl tx, d1) ->
      fn tx d1 = (Panics p, d2) ->
      SQLiteTransaction ctx db fn w
      = (Panics p,
         mkWorld (snd (sqltx_Rollback tx d2))
                 (trace w ++ [EvBegin; EvInvoke; EvRollback]))).
Proof.
  split; intros ctx h fn w tx d1 d2 p Hbegin Hfn.
  - rewrite WithTransaction_exit_paths. unfold exit_paths.
    now rewrite Hbegin, Hfn.
  - rewrite SQLiteTransaction_exit_paths. unfold exit_paths.
    now rewrite Hbegin, Hfn.
Qed.

(** C2.  A call that has begun a transaction resolves the handle exactly
    once on every exit path, whatever the unit of work does (return nil,
    return an error, panic): between begin and exit the coordinator calls
    the unit of work once, attempts at most one commit and at most one
    rollback, and exactly one of the two; nothing is tried a second time.
    The attempt is made on the handle the begin call returned and on
    the store as the unit of work left it: the store the call leaves
    behind is what the driver's commit (when the unit of work returned
    nil) or the driver's rollback (in every other case) made of that
    store, applied once. *)
Theorem handle_is_resolved_exactly_once :
  (forall (ctx : context) (pool : Pool)
          (fn : Tx -> D -> Outcome any (option error) * D) (w : World D)
          (tx : Tx) (d1 : D),
      pool_Begin pool ctx (store w) = (inl tx, d1) ->
      exists evs : list Event,
        trace (snd (WithTransaction ctx pool fn w)) = trace w ++ evs
        /\ count EvBegin evs = 1 /\ count EvInvoke evs = 1
        /\ count EvCommit evs <= 1 /\ count EvRollback evs <= 1
        /\ count EvCommit evs + count EvRollback evs = 1
        /\ ((fst (fn tx d1) = Returns None
             /\ count EvCommit evs = 1
             /\ store (snd (WithTransaction ctx pool fn w))
                = snd (pgxtx_Commit tx ctx (snd (fn tx d1))))
            \/ (fst (fn tx d1) <> Returns None
                /\ count EvRollback evs = 1
                /\ store (snd (WithTransaction ctx pool fn w))
                   = snd (pgxtx_Rollback tx ctx (snd (fn tx d1))))))
  /\
  (forall (ctx : context) (db : DB)
          (fn : STx -> D -> Outcome any (option error) * D) (w : World D)
          (tx : STx) (d1 : D),
      db_BeginTx db ctx None (store w) = (inl tx, d1) ->
      exists evs : list Event,
        trace (snd (SQLiteTransaction ctx db fn w)) = trace w ++ evs
        /\ count EvBegin evs = 1 /\ count EvInvoke evs = 1
        /\ count EvCommit evs <= 1 /\ count EvRollback evs <= 1
        /\ count EvCommit evs + count EvRollback evs = 1
        /\ ((fst (fn tx d1) = Returns None
             /\ count EvCommit evs = 1
             /\ store (snd (SQLiteTransaction ctx db fn w))
                = snd (sqltx_Commit tx (snd (fn tx d1))))
            \/ (fst (fn tx d1) <> Returns None
                /\ count EvRollback evs = 1
                /\ store (snd (SQLiteTransaction ctx db fn w))
                   = snd (sqltx_Rollback tx (snd (fn tx d1)))))).
Proof.
  split; intros ctx h fn w tx d1 Hbegin.
  - rewrite WithTransaction_exit_paths. unfold exit_paths. rewrite Hbegin.
    destruct (fn tx d1) as [[[err |] | p] d2]; cbn [fst snd].
    + destruct (pgxtx_Rollback tx ctx d2) as [[rbErr |] d3];
        (eexists; split; [reflexivity |]);
        (repeat (split; [cbn; lia |])); right; (split; [discriminate |]); split; reflexivity.
    + destruct (pgxtx_Commit tx ctx d2) as [[e |] d3];
        (eexists; split; [reflexivity |]);
        (repeat (split; [cbn; lia |])); left; (split; [reflexivity |]); split; reflexivity.
    + eexists; split; [reflexivity |].
      repeat (split; [cbn; lia |]). right; (split; [discriminate |]); split; reflexivity.
  - rewrite SQLiteTransaction_exit_paths. unfold exit_paths. rewrite Hbegin.
    destruct (fn tx d1) as [[[err |] | p] d2]; cbn [fst snd].
    + destruct (sqltx_Rollback tx d2) as [[rbErr |] d3];
        (eexists; split; [reflexivity |]);
        (repeat (split; [cbn; lia |])); right; (split; [discriminate |]); split; reflexivity.
    + destruct (sqltx_Commit tx d2) as [[e |] d3];
        (eexists; split; [reflexivity |]);
        (repeat (split; [cbn; lia |])); left; (split; [reflexivity |]); split; reflexivity.
    + eexists; split; [reflexivity |].
      repeat (split; [cbn; lia |]). right; (split; [discriminate |]); split; reflexivity.
Qed.

(** C3.  When the unit of work returns nil the coordinator attempts the
    commit (and no rollback).  If the commit succeeds the call returns
    nil; if the commit fails with [e] the call returns a non-nil error
    that carries [e]: its text ends in [e]'s text and it unwraps to [e]. *)
Theorem success_commits_and_commit_failure_is_returned :
  (forall (ctx : context) (pool : Pool)
          (fn : Tx -> D -> Outcome any (option error) * D) (w : World D)
          (tx : Tx) (d1 d2 : D),
      pool_Begin pool ctx (store w) = (inl tx, d1) ->
      fn tx d1 = (Returns None, d2) ->
      (forall d3 : D,
          pgxtx_Commit tx ctx d2 = (None, d3) ->
          WithTransaction ctx pool fn w
          = (Returns None,
             mkWorld d3 (trace w ++ [EvBegin; EvInvoke; EvCommit])))
      /\
      (forall (e : error) (d3 : D),
          pgxtx_Commit tx ctx d2 = (Some e, d3) ->
          WithTransaction ctx pool fn w
          = (Returns (Some (wrapError
                              ("failed to commit transaction: " +:+ Error e) e)),
             mkWorld d3 (trace w ++ [EvBegin; EvInvoke; EvCommit]))))
  /\
  (forall (ctx : context) (db : DB)
          (fn : STx -> D -> Outcome any (option error) * D) (w : World D)
          (tx : STx) (d1 d2 : D),
      db_BeginTx db ctx None (store w) = (inl tx, d1) ->
      fn tx d1 = (Returns None, d2) ->
      (forall d3 : D,
          sqltx_Commit tx d2 = (None, d3) ->
          SQLiteTransaction ctx db fn w
          = (Returns None,
             mkWorld d3 (trace w ++ [EvBegin; EvInvoke; EvCommit])))
      /\
      (forall (e : error) (d3 : D),
          sqltx_Commit tx d2 = (Some e, d3) ->
          SQLiteTransaction ctx db fn w
          = (Returns (Some (wrapError
                              ("failed to commit transaction: " +:+ Error e) e)),
             mkWorld d3 (trace w ++ [EvBegin; EvInvoke; EvCommit])))).
Proof.
  split; intros ctx h fn w tx d1 d2 Hbegin Hfn.
  - rewrite WithTransaction_exit_paths. unfold exit_paths.
    rewrite Hbegin, Hfn.
    split; [intros d3 Hc | intros e d3 Hc]; now rewrite Hc.
  - rewrite SQLiteTransaction_exit_paths. unfold exit_paths.
    rewrite Hbegin, Hfn.
    split; [intros d3 Hc | intros e d3 Hc]; now rewrite Hc.
Qed.

(** C4.  When the unit of work returns a non-nil error the coordinator
    attempts the rollback once and never commits; if the rollback
    succeeds, the call returns the callback's error itself, not a wrapper
    around it. *)
Theorem failure_rolls_back_and_returns_the_error :
  (forall (ctx : context) (pool : Pool)
          (fn : Tx -> D -> Outcome any (option error) * D) (w : World D)
          (tx : Tx) (d1 d2 : D) (err : error),
      pool_Begin pool ctx (store w) = (inl tx, d1) ->
      fn tx d1 = (Returns (Some err), d2) ->
      snd (WithTransaction ctx pool fn w)
      = mkWorld (snd (pgxtx_Rollback tx ctx d2))
                (trace w ++ [EvBegin; EvInvoke; EvRollback])
      /\
      (fst (pgxtx_Rollback tx ctx d2) = None ->
       fst (WithTransaction ctx pool fn w) = Returns (Some err)))
  /\
  (forall (ctx : context) (db : DB)
          (fn : STx -> D -> Outcome any (option error) * D) (w : World D)
          (tx : STx) (d1 d2 : D) (err : error),
      db_BeginTx db ctx None (store w) = (inl tx, d1) ->
      fn tx d1 = (Returns (Some err), d2) ->
      snd (SQLiteTransaction ctx db fn w)
      = mkWorld (snd (sqltx_Rollback tx d2))
                (trace w ++ [EvBegin; EvInvoke; EvRollback])
      /\
      (fst (sqltx_Rollback tx d2) = None ->
       fst (SQLiteTransaction ctx db fn w) = Returns (Some err))).
Proof.
  split; intros ctx h fn w tx d1 d2 err Hbegin Hfn.
  - rewrite WithTransaction_exit_paths. unfold exit_paths.
    rewrite Hbegin, Hfn.
    destruct (pgxtx_Rollback tx ctx d2) as [[rbErr |] d3]; simpl;
      (split; [reflexivity | intros Hrb; congruence]).
  - rewrite SQLiteTransaction_exit_paths. unfold exit_paths.
    rewrite Hbegin, Hfn.
    destruct (sqltx_Rollback tx d2) as [[rbErr |] d3]; simpl;
      (split; [reflexivity | intros Hrb; congruence]).
Qed.

(** C5.  When the transaction cannot be begun the coordinator returns a
    non-nil error at once: the begin call is all it asks of the store;
    the unit of work is not called (the result does not depend on it) and
    neither commit nor rollback is attempted. *)
Theorem begin_failure_is_returned_at_once :
  (forall (ctx : context) (pool : Pool)
          (fn : Tx -> D -> Outcome any (option error) * D) (w : World D)
          (e : error) (d1 : D),
      pool_Begin pool ctx (store w) = (inr e, d1) ->
      WithTransaction ctx pool fn w
      = (Returns (Some (wrapError
                          ("failed to begin transaction: " +:+ Error e) e)),
         mkWorld d1 (trace w ++ [EvBegin])))
  /\
  (forall (ctx : context) (db : DB)
          (fn : STx -> D -> Outcome any (option error) * D) (w : World D)
          (e : error) (d1 : D),
      db_BeginTx db ctx None (store w) = (inr e, d1) ->
      SQLiteTransaction ctx db fn w
      = (Returns (Some (wrapError
                          ("failed to begin transaction: " +:+ Error e) e)),
         mkWorld d1 (trace w ++ [EvBegin]))).
Proof.
  split; intros ctx h fn w e d1 Hbegin.
  - rewrite WithTransaction_exit_paths. unfold exit_paths. now rewrite Hbegin.
  - rewrite SQLiteTransaction_exit_paths. unfold exit_paths. now rewrite Hbegin.
Qed.

(** C10, as amended.  When the unit of work returns [err] and the rollback
    then fails with [rbErr], the call returns a compound error that wraps
    [err] (it unwraps to [err], so [errors.Is] finds [err]) and carries
    [rbErr] only as text inside its message.  The compound error adds no
    link to [rbErr]: its chain is itself followed by the chain of [err],
    so [errors.Is] finds [rbErr] in it exactly when it finds [rbErr]
    in [err]. *)
Theorem compound_error_wraps_the_callback_error_only :
  (forall (ctx : context) (pool : Pool)
          (fn : Tx -> D -> Outcome any (option error) * D) (w : World D)
          (tx : Tx) (d1 d2 d3 : D) (err rbErr : error),
      pool_Begin pool ctx (store w) = (inl tx, d1) ->
      fn tx d1 = (Returns (Some err), d2) ->
      pgxtx_Rollback tx ctx d2 = (Some rbErr, d3) ->
      exists compound : error,
        fst (WithTransaction ctx pool fn w) = Returns (Some compound)
        /\ Unwrap compound = Some err
        /\ Is compound err = true
        /\ Error compound = "rollback failed: " +:+ Error rbErr +:+
                            " (original error: " +:+ Error err +:+ ")"
        /\ chain compound = compound :: chain err
        /\ Is compound rbErr = Is err rbErr)
  /\
  (forall (ctx : context) (db : DB)
          (fn : STx -> D -> Outcome any (option error) * D) (w : World D)
          (tx : STx) (d1 d2 d3 : D) (err rbErr : error),
      db_BeginTx db ctx None (store w) = (inl tx, d1) ->
      fn tx d1 = (Returns (Some err), d2) ->
      sqltx_Rollback tx d2 = (Some rbErr, d3) ->
      exists compound : error,
        fst (SQLiteTransaction ctx db fn w) = Returns (Some compound)
        /\ Unwrap compound = Some err
        /\ Is compound err = true
        /\ Error compound = "rollback failed: " +:+ Error rbErr +:+
                            " (original error: " +:+ Error err +:+ ")"
        /\ chain compound = compound :: chain err
        /\ Is compound rbErr = Is err rbErr).
Proof.
  assert (Hcompound : forall err rbErr : error,
    let compound :=
      wrapError ("rollback failed: " +:+ Error rbErr +:+
                 " (original error: " +:+ Error err +:+ ")") err in
    Unwrap compound = Some err
    /\ Is compound err = true
    /\ Error compound = "rollback failed: " +:+ Error rbErr +:+
                        " (original error: " +:+ Error err +:+ ")"
    /\ chain compound = compound :: chain err
    /\ Is compound rbErr = Is err rbErr).
  { intros err rbErr compound. repeat split.
    - apply Is_chain. right. apply Is_chain, Is_refl.
    - unfold compound. cbn [Is].
      rewrite decide_False by apply compound_fresh. reflexivity. }
  split; intros ctx h fn w tx d1 d2 d3 err rbErr Hbegin Hfn Hrb.
  - rewrite WithTransaction_exit_paths. unfold exit_paths.
    rewrite Hbegin, Hfn, Hrb. eexists. split; [reflexivity |].
    apply Hcompound.
  - rewrite SQLiteTransaction_exit_paths. unfold exit_paths.
    rewrite Hbegin, Hfn, Hrb. eexists. split; [reflexivity |].
    apply Hcompound.
Qed.

End CoordinatorClaims.

Section OneStoreTwoCoordinators.
Context {any context D Pool DB Tx : Type}.
Context `{!PgxPool context D Pool Tx} `{!SqlDB context D DB Tx}.

(** C6, as amended.  Over a store that answers the calls of both drivers
    alike, [WithTransaction] and [SQLiteTransaction] are indistinguishable:
    for every unit of work and every starting state they end the same way
    (same return value or same panic), leave the same store and have
    asked for the same begin / callback / commit / rollback calls.  In
    particular both report a failed rollback by the same policy: the
    rollback failure is wrapped, with the callback's error, into the
    error that is returned; neither returns the callback's error alone. *)
Theorem coordinators_behave_alike :
  forall (ctx : context) (pool : Pool) (db : DB),
    (forall d : D, pool_Begin pool ctx d = db_BeginTx db ctx None d) ->
    (forall (tx : Tx) (d : D), pgxtx_Commit tx ctx d = sqltx_Commit tx d) ->
    (forall (tx : Tx) (d : D), pgxtx_Rollback tx ctx d = sqltx_Rollback tx d) ->
    (forall (fn : Tx -> D -> Outcome any (option error) * D) (w : World D),
        WithTransaction ctx pool fn w = SQLiteTransaction ctx db fn w)
    /\
    (forall (fn : Tx -> D -> Outcome any (option error) * D) (w : World D)
            (tx : Tx) (d1 d2 d3 : D) (err rbErr : error),
        pool_Begin pool ctx (store w) = (inl tx, d1) ->
        fn tx d1 = (Returns (Some err), d2) ->
        pgxtx_Rollback tx ctx d2 = (Some rbErr, d3) ->
        let compound :=
          wrapError ("rollback failed: " +:+ Error rbErr +:+
                     " (original error: " +:+ Error err +:+ ")") err in
        fst (WithTransaction ctx pool fn w) = Returns (Some compound)
        /\ fst (SQLiteTransaction ctx db fn w) = Returns (Some compound)
        /\ compound <> err
        /\ ~ divergent_reporting err (fst (WithTransaction ctx pool fn w))
                                     (fst (SQLiteTransaction ctx db fn w))).
Proof.
  intros ctx pool db Hb Hc Hr.
  assert (Hsame : forall fn w,
             WithTransaction (any := any) ctx pool fn w
             = SQLiteTransaction ctx db fn w).
  { intros fn w.
    rewrite WithTransaction_exit_paths, SQLiteTransaction_exit_paths.
    unfold exit_paths. rewrite Hb.
    destruct (db_BeginTx db ctx None (store w)) as [[tx | e] d1];
      [| reflexivity].
    destruct (fn tx d1) as [[[err |] | p] d2].
    - now rewrite Hr.
    - now rewrite Hc.
    - now rewrite Hr. }
  split; [exact Hsame |].
  intros fn w tx d1 d2 d3 err rbErr Hbegin Hfn Hrb compound.
  rewrite <- Hsame. rewrite WithTransaction_exit_paths. unfold exit_paths.
  rewrite Hbegin, Hfn, Hrb. cbn [fst].
  split; [reflexivity |]. split; [reflexivity |].
  split; [apply wrapError_neq |].
  intros [[He Hne] | [Hne He]]; exact (Hne He).
Qed.

End OneStoreTwoCoordinators.

Import memdb.

Lemma panic_rolls_back_and_is_raised_again_witness :
  WithTransaction tt tt (insert_then_panic "a" "boom")
                  (fresh (rollback_fails (errorString "connection lost") ["x"]))
  = (Panics "boom",
     mkWorld (mkMemDB ["x"] (Some ["x"; "a"]) None None
                      (Some (errorString "connection lost")))
             [EvBegin; EvInvoke; EvRollback])
  /\
  SQLiteTransaction tt tt (insert_then_panic "a" "boom") (fresh (healthy ["x"]))
  = (Panics "boom", mkWorld (healthy ["x"]) [EvBegin; EvInvoke; EvRollback]).
Proof.
  split.
  - exact (proj1 (panic_rolls_back_and_is_raised_again (any := string))
                 tt tt (insert_then_panic "a" "boom")
                 (fresh (rollback_fails (errorString "connection lost") ["x"]))
                 tt _ _ "boom" eq_refl eq_refl).
  - exact (proj2 (panic_rolls_back_and_is_raised_again (any := string)
                    (Pool := unit) (Tx := unit))
                 tt tt (insert_then_panic "a" "boom") (fresh (healthy ["x"]))
                 tt _ _ "boom" eq_refl eq_refl).
Defined.

Lemma handle_is_resolved_exactly_once_witness :
  (exists evs : list Event,
      trace (snd (WithTransaction (any := string) tt tt (insert "a")
                                  (fresh (healthy ["x"])))) = [] ++ evs
      /\ count EvBegin evs = 1 /\ count EvInvoke evs = 1
      /\ count EvCommit evs <= 1 /\ count EvRollback evs <= 1
      /\ count EvCommit evs + count EvRollback evs = 1
      /\ ((fst (insert "a" tt (set_tx (Some ["x"]) (healthy ["x"])))
           = Returns None
           /\ count EvCommit evs = 1
           /\ store (snd (WithTransaction (any := string) tt tt (insert "a")
                                          (fresh (healthy ["x"]))))
              = snd (mem_commit
                       (snd (insert "a" tt
                               (set_tx (Some ["x"]) (healthy ["x"]))))))
          \/ (fst (insert "a" tt (set_tx (Some ["x"]) (healthy ["x"])))
              <> Returns None
              /\ count EvRollback evs = 1
              /\ store (snd (WithTransaction (any := string) tt tt (insert "a")
                                             (fresh (healthy ["x"]))))
                 = snd (mem_rollback
                          (snd (insert "a" tt
                                  (set_tx (Some ["x"]) (healthy ["x"]))))))))
  /\
  (exists evs : list Event,
      trace (snd (SQLiteTransaction tt tt (insert_then_panic "a" "boom")
                                    (fresh (healthy ["x"])))) = [] ++ evs
      /\ count EvBegin evs = 1 /\ count EvInvoke evs = 1
      /\ count EvCommit evs <= 1 /\ count EvRollback evs <= 1
      /\ count EvCommit evs + count EvRollback evs = 1
      /\ ((fst (insert_then_panic "a" "boom" tt (set_tx (Some ["x"]) (healthy ["x"])))
           = Returns None
           /\ count EvCommit evs = 1
           /\ store (snd (SQLiteTransaction tt tt (insert_then_panic "a" "boom")
                                            (fresh (healthy ["x"]))))
              = snd (mem_commit
                       (snd (insert_then_panic "a" "boom" tt
                               (set_tx (Some ["x"]) (healthy ["x"]))))))
          \/ (fst (insert_then_panic "a" "boom" tt (set_tx (Some ["x"]) (healthy ["x"])))
              <> Returns None
              /\ count EvRollback evs = 1
              /\ store (snd (SQLiteTransaction tt tt
                               (insert_then_panic "a" "boom")
                               (fresh (healthy ["x"]))))
                 = snd (mem_rollback
                          (snd (insert_then_panic "a" "boom" tt
                                  (set_tx (Some ["x"]) (healthy ["x"])))))))).
Proof.
  split.
  - exact (proj1 (handle_is_resolved_exactly_once (any := string))
                 tt tt (insert "a") (fresh (healthy ["x"])) tt
                 (set_tx (Some ["x"]) (healthy ["x"])) eq_refl).
  - exact (proj2 (handle_is_resolved_exactly_once (any := string)
                    (Pool := unit) (Tx := unit))
                 tt tt (insert_then_panic "a" "boom") (fresh (healthy ["x"]))
                 tt (set_tx (Some ["x"]) (healthy ["x"])) eq_refl).
Defined.

Lemma success_commits_and_commit_failure_is_returned_witness :
  WithTransaction (any := string) tt tt (insert "a") (fresh (healthy ["x"]))
  = (Returns None, mkWorld (healthy ["x"; "a"]) [EvBegin; EvInvoke; EvCommit])
  /\
  SQLiteTransaction (any := string) tt tt (insert "a")
                    (fresh (commit_fails (errorString "disk full") ["x"]))
  = (Returns (Some (wrapError "failed to commit transaction: disk full"
                              (errorString "disk full"))),
     mkWorld (commit_fails (errorString "disk full") ["x"])
             [EvBegin; EvInvoke; EvCommit]).
Proof.
  split.
  - exact (proj1 (proj1 (success_commits_and_commit_failure_is_returned
                           (any := string))
                        tt tt (insert "a") (fresh (healthy ["x"]))
                        tt _ _ eq_refl eq_refl)
                 _ eq_refl).
  - exact (proj2 (proj2 (success_commits_and_commit_failure_is_returned
                           (any := string) (Pool := unit) (Tx := unit))
                        tt tt (insert "a")
                        (fresh (commit_fails (errorString "disk full") ["x"]))
                        tt _ _ eq_refl eq_refl)
                 (errorString "disk full") _ eq_refl).
Defined.

Lemma failure_rolls_back_and_returns_the_error_witness :
  WithTransaction (any := string) tt tt
                  (insert_then_fail "a" (errorString "boom"))
                  (fresh (healthy ["x"]))
  = (Returns (Some (errorString "boom")),
     mkWorld (healthy ["x"]) [EvBegin; EvInvoke; EvRollback])
  /\
  SQLiteTransaction (any := string) tt tt
                    (insert_then_fail "a" (errorString "boom"))
                    (fresh (healthy ["x"]))
  = (Returns (Some (errorString "boom")),
     mkWorld (healthy ["x"]) [EvBegin; EvInvoke; EvRollback]).
Proof.
  pose proof (proj1 (failure_rolls_back_and_returns_the_error (any := string))
                tt tt (insert_then_fail "a" (errorString "boom"))
                (fresh (healthy ["x"])) tt _ _ _ eq_refl eq_refl) as [Hw Hr].
  pose proof (proj2 (failure_rolls_back_and_returns_the_error (any := string)
                       (Pool := unit) (Tx := unit))
                tt tt (insert_then_fail "a" (errorString "boom"))
                (fresh (healthy ["x"])) tt _ _ _ eq_refl eq_refl) as [Hw' Hr'].
  split; apply injective_projections.
  - exact (Hr eq_refl).
  - exact Hw.
  - exact (Hr' eq_refl).
  - exact Hw'.
Defined.

Lemma begin_failure_is_returned_at_once_witness :
  WithTransaction (any := string) tt tt (insert "a")
                  (fresh (begin_fails (errorString "pool closed") ["x"]))
  = (Returns (Some (wrapError "failed to begin transaction: pool closed"
                              (errorString "pool closed"))),
     mkWorld (begin_fails (errorString "pool closed") ["x"]) [EvBegin])
  /\
  SQLiteTransaction (any := string) tt tt (insert "a")
                    (fresh (begin_fails (errorString "pool closed") ["x"]))
  = (Returns (Some (wrapError "failed to begin transaction: pool closed"
                              (errorString "pool closed"))),
     mkWorld (begin_fails (errorString "pool closed") ["x"]) [EvBegin]).
Proof.
  split.
  - exact (proj1 (begin_failure_is_returned_at_once (any := string))
                 tt tt (insert "a")
                 (fresh (begin_fails (errorString "pool closed") ["x"]))
                 (errorString "pool closed") _ eq_refl).
  - exact (proj2 (begin_failure_is_returned_at_once (any := string)
                    (Pool := unit) (Tx := unit))
                 tt tt (insert "a")
                 (fresh (begin_fails (errorString "pool closed") ["x"]))
                 (errorString "pool closed") _ eq_refl).
Defined.

Lemma compound_error_wraps_the_callback_error_only_witness :
  (exists compound : error,
      fst (WithTransaction (any := string) tt tt
             (insert_then_fail "a" (errorString "boom"))
             (fresh (rollback_fails (errorString "connection lost") ["x"])))
      = Returns (Some compound)
      /\ Unwrap compound = Some (errorString "boom")
      /\ Is compound (errorString "boom") = true
      /\ Error compound
         = "rollback failed: connection lost (original error: boom)"
      /\ chain compound = compound :: chain (errorString "boom")
      /\ Is compound (errorString "connection lost")
         = Is (errorString "boom") (errorString "connection lost"))
  /\
  (exists compound : error,
      fst (SQLiteTransaction (any := string) tt tt
             (insert_then_fail "a" (errorString "boom"))
             (fresh (rollback_fails (errorString "connection lost") ["x"])))
      = Returns (Some compound)
      /\ Unwrap compound = Some (errorString "boom")
      /\ Is compound (errorString "boom") = true
      /\ Error compound
         = "rollback failed: connection lost (original error: boom)"
      /\ chain compound = compound :: chain (errorString "boom")
      /\ Is compound (errorString "connection lost")
         = Is (errorString "boom") (errorString "connection lost")).
Proof.
  split.
  - exact (proj1 (compound_error_wraps_the_callback_error_only (any := string))
                 tt tt (insert_then_fail "a" (errorString "boom"))
                 (fresh (rollback_fails (errorString "connection lost") ["x"]))
                 tt _ _ _ (errorString "boom") (errorString "connection lost")
                 eq_refl eq_refl eq_refl).
  - exact (proj2 (compound_error_wraps_the_callback_error_only (any := string)
                    (Pool := unit) (Tx := unit))
                 tt tt (insert_then_fail "a" (errorString "boom"))
                 (fresh (rollback_fails (errorString "connection lost") ["x"]))
                 tt _ _ _ (errorString "boom") (errorString "connection lost")
                 eq_refl eq_refl eq_refl).
Defined.

(** C10, as first stated, fails.  A unit of work that commits through its
    handle and then uses the handle again returns the driver's
    already-resolved error; the coordinator's rollback on the resolved
    handle fails with that same error.  The compound error unwraps to the
    callback's error, which is the rollback error: [errors.Is] finds the
    rollback error by unwrapping. *)
Lemma rollback_error_reached_by_unwrapping :
  fst (commit_early "a" tt (snd (mem_begin (healthy ["x"]))))
  = Returns (any := string) (Some ErrTxDone)
  /\ fst (mem_rollback
            (snd (commit_early "a" tt (snd (mem_begin (healthy ["x"]))))))
     = Some ErrTxDone
  /\ (exists compound : error,
         fst (SQLiteTransaction (any := string) tt tt (commit_early "a")
                                (fresh (healthy ["x"])))
         = Returns (Some compound)
         /\ Is compound ErrTxDone = true)
  /\ (exists compound : error,
         fst (WithTransaction (any := string) tt tt (commit_early "a")
                              (fresh (healthy ["x"])))
         = Returns (Some compound)
         /\ Is compound ErrTxDone = true).
Proof.
  repeat split; try reflexivity; eexists; split; reflexivity.
Qed.

Lemma coordinators_behave_alike_witness :
  WithTransaction (any := string) tt tt (insert "a") (fresh (healthy ["x"]))
  = SQLiteTransaction tt tt (insert "a") (fresh (healthy ["x"]))
  /\
  fst (WithTransaction (any := string) tt tt
         (insert_then_fail "a" (errorString "boom"))
         (fresh (rollback_fails (errorString "connection lost") ["x"])))
  = Returns (Some (wrapError
                     "rollback failed: connection lost (original error: boom)"
                     (errorString "boom"))).
Proof.
  pose proof (coordinators_behave_alike (any := string) tt tt tt
                (fun _ => eq_refl) (fun _ _ => eq_refl) (fun _ _ => eq_refl))
    as [Hsame Hwrap].
  split; [exact (Hsame (insert "a") (fresh (healthy ["x"]))) |].
  exact (proj1 (Hwrap (insert_then_fail "a" (errorString "boom"))
                      (fresh (rollback_fails (errorString "connection lost")
                                             ["x"]))
                      tt _ _ _ (errorString "boom")
                      (errorString "connection lost")
                      eq_refl eq_refl eq_refl)).
Defined.

(** C6, as first stated, fails in its second half.  With a unit of work
    that fails with "boom" and a rollback that fails too, both variants
    return the same compound error and neither returns "boom" alone: the
    two variants do not report the rollback failure by divergent
    policies. *)
Lemma rollback_failure_reporting_does_not_diverge :
  fst (WithTransaction (any := string) tt tt
         (insert_then_fail "a" (errorString "boom"))
         (fresh (rollback_fails (errorString "connection lost") ["x"])))
  = Returns (Some (wrapError
                     "rollback failed: connection lost (original error: boom)"
                     (errorString "boom")))
  /\
  fst (SQLiteTransaction (any := string) tt tt
         (insert_then_fail "a" (errorString "boom"))
         (fresh (rollback_fails (errorString "connection lost") ["x"])))
  = Returns (Some (wrapError
                     "rollback failed: connection lost (original error: boom)"
                     (errorString "boom")))
  /\
  ~ divergent_reporting (errorString "boom")
      (fst (WithTransaction (any := string) tt tt
              (insert_then_fail "a" (errorString "boom"))
              (fresh (rollback_fails (errorString "connection lost") ["x"]))))
      (fst (SQLiteTransaction (any := string) tt tt
              (insert_then_fail "a" (errorString "boom"))
              (fresh (rollback_fails (errorString "connection lost") ["x"])))).
Proof.
  split; [reflexivity |]. split; [reflexivity |].
  intros [[He Hne] | [Hne He]]; vm_compute in He; discriminate He.
Qed.

(* ===================================================================== *)
(** * Properties of the cache populators                                  *)
(* ===================================================================== *)

Module populators.
Import cache.

Section PopulatorClaims.
Context {any U Dest : Type}.
Context (as_string : any -> option string).
Context (Marshal : any -> string + error).
Context (Unmarshal : string -> Dest -> option error * Dest).


(** C7.  After a cache miss and a successful computation, a result that
    fails to serialize makes both populators stop before any write: the
    call returns the serialization error, the server is as it was, and
    the populator asked only for the read and the computation.
    ([Remember] serializes only a result that is not a string.) *)
Theorem serialization_failure_aborts_before_the_write :
  forall (c : Cache) (key : string) (t : Z)
         (fn : U -> Outcome any (any + error) * U) (w : World U)
         (result : any) (u' : U) (e : error),
    lookup_key c key (server w) = NotFound ->
    fn (user w) = (Returns (inl result), u') ->
    Marshal result = inr e ->
    (as_string result = None ->
     Remember as_string Marshal c key t fn w
     = (Returns (inr e),
        mkWorld (server w) u' (trace w ++ [EvRead key; EvCompute])))
    /\
    (forall dest : Dest,
        RememberJSON Marshal Unmarshal c key t dest fn w
        = (Returns (Some e, dest),
           mkWorld (server w) u' (trace w ++ [EvRead key; EvCompute]))).
Proof.
  intros c key t fn w result u' e Hmiss Hfn Henc. split.
  - intros Hstr. unfold Remember, bind, read, compute, ret. cbn.
    rewrite Hmiss; cbn. rewrite Hfn; cbn. rewrite Hstr, Henc. cbn.
    now rewrite <- app_assoc.
  - intros dest. unfold RememberJSON, bind, read, compute, ret. cbn.
    rewrite Hmiss; cbn. rewrite Hfn; cbn. rewrite Henc. cbn.
    now rewrite <- app_assoc.
Qed.

(** C8.  When the compute callback returns a failure, the populators
    write nothing: the server after the call is the server before it and
    no write was asked for; and on the miss that makes the populator call
    the callback, the call returns that failure itself, [RememberJSON]
    leaving its destination as it was. *)
Theorem compute_failure_writes_nothing :
  forall (c : Cache) (key : string) (t : Z)
         (fn : U -> Outcome any (any + error) * U) (w : World U)
         (e : error) (u' : U),
    fn (user w) = (Returns (inr e), u') ->
    (server (snd (Remember as_string Marshal c key t fn w)) = server w
     /\ exists evs : list Event,
          trace (snd (Remember as_string Marshal c key t fn w)) = trace w ++ evs
          /\ writes evs = 0)
    /\
    (forall dest : Dest,
        server (snd (RememberJSON Marshal Unmarshal c key t dest fn w))
        = server w
        /\ exists evs : list Event,
             trace (snd (RememberJSON Marshal Unmarshal c key t dest fn w))
             = trace w ++ evs
             /\ writes evs = 0)
    /\
    (lookup_key c key (server w) = NotFound ->
     Remember as_string Marshal c key t fn w
     = (Returns (inr e),
        mkWorld (server w) u' (trace w ++ [EvRead key; EvCompute]))
     /\
     forall dest : Dest,
       RememberJSON Marshal Unmarshal c key t dest fn w
       = (Returns (Some e, dest),
          mkWorld (server w) u' (trace w ++ [EvRead key; EvCompute]))).
Proof.
  intros c key t fn w e u' Hfn.
  split; [| split].
  - unfold Remember, bind, read, compute, ret. cbn.
    destruct (lookup_key c key (server w)) as [stored | | err]; cbn.
    + split; [reflexivity | now exists [EvRead key]].
    + rewrite Hfn. cbn. split; [reflexivity |].
      exists [EvRead key; EvCompute]. now rewrite <- app_assoc.
    + split; [reflexivity | now exists [EvRead key]].
  - intros dest. unfold RememberJSON, bind, read, compute, ret. cbn.
    destruct (lookup_key c key (server w)) as [stored | | err]; cbn.
    + split; [reflexivity | now exists [EvRead key]].
    + rewrite Hfn. cbn. split; [reflexivity |].
      exists [EvRead key; EvCompute]. now rewrite <- app_assoc.
    + split; [reflexivity | now exists [EvRead key]].
  - intros Hmiss. split; [| intros dest].
    + unfold Remember, bind, read, compute, ret. cbn.
      rewrite Hmiss; cbn. rewrite Hfn; cbn. now rewrite <- app_assoc.
    + unfold RememberJSON, bind, read, compute, ret. cbn.
      rewrite Hmiss; cbn. rewrite Hfn; cbn. now rewrite <- app_assoc.
Qed.


End PopulatorClaims.

Import memcache.

(** Key "k1", TTL one hour, a callback computing "v1": the call returns
    "v1" and stores it under the prefixed key with that TTL; a second call
    whose callback would compute "v2" still returns "v1", and the callback
    has run once in all. *)
Example remember_then_hit :
  Remember as_string Marshal app_cache "k1" hour (computes_to (VString "v1"))
           (fresh (serving no_entries) 0)
  = (Returns (inl "v1"),
     mkWorld (serving (<["myapp:k1" := mkEntry "v1" hour]> no_entries)) 1
             [EvRead "k1"; EvCompute; EvWrite "k1" "v1" hour])
  /\
  Remember as_string Marshal app_cache "k1" hour (computes_to (VString "v2"))
           (fresh (serving (<["myapp:k1" := mkEntry "v1" hour]> no_entries)) 1)
  = (Returns (inl "v1"),
     mkWorld (serving (<["myapp:k1" := mkEntry "v1" hour]> no_entries)) 1
             [EvRead "k1"]).
Proof. split; vm_compute; reflexivity. Qed.

(** On a miss [RememberJSON] stores the serialized form and fills the
    destination from that same form. *)
Example remember_json_miss :
  RememberJSON Marshal Unmarshal app_cache "flag" hour (VString "")
               (computes_to (VBool true)) (fresh (serving no_entries) 0)
  = (Returns (None, VBool true),
     mkWorld (serving (<["myapp:flag" := mkEntry "true" hour]> no_entries)) 1
             [EvRead "flag"; EvCompute; EvWrite "flag" "true" hour]).
Proof. vm_compute. reflexivity. Qed.

(** A read that fails for another reason than not-found is returned and
    the callback is not called. *)
Example read_failure_is_returned :
  Remember as_string Marshal app_cache "k1" hour (computes_to (VString "v1"))
           (fresh (mkServer no_entries (Some (errorString "i/o timeout")) None)
                  0)
  = (Returns (inr (errorString "i/o timeout")),
     mkWorld (mkServer no_entries (Some (errorString "i/o timeout")) None) 0
             [EvRead "k1"]).
Proof. reflexivity. Qed.

Lemma serialization_failure_aborts_before_the_write_witness :
  Remember as_string Marshal app_cache "k1" hour (computes_to VChan)
           (fresh (serving no_entries) 0)
  = (Returns (inr (errorString "json: unsupported type: chan int")),
     mkWorld (serving no_entries) 1 [EvRead "k1"; EvCompute])
  /\
  RememberJSON Marshal Unmarshal app_cache "k1" hour (VBool true)
               (computes_to VChan) (fresh (serving no_entries) 0)
  = (Returns (Some (errorString "json: unsupported type: chan int"),
              VBool true),
     mkWorld (serving no_entries) 1 [EvRead "k1"; EvCompute]).
Proof.
  pose proof (serialization_failure_aborts_before_the_write
                as_string Marshal Unmarshal app_cache "k1" hour
                (computes_to VChan) (fresh (serving no_entries) 0)
                VChan 1 (errorString "json: unsupported type: chan int")
                eq_refl eq_refl eq_refl) as [Hstr Hjson].
  split; [exact (Hstr eq_refl) | exact (Hjson (VBool true))].
Defined.

Lemma compute_failure_writes_nothing_witness :
  Remember as_string Marshal app_cache "k1" hour
           (fails_with (errorString "computation failed"))
           (fresh (serving no_entries) 0)
  = (Returns (inr (errorString "computation failed")),
     mkWorld (serving no_entries) 1 [EvRead "k1"; EvCompute])
  /\
  RememberJSON Marshal Unmarshal app_cache "k1" hour (VBool true)
               (fails_with (errorString "computation failed"))
               (fresh (serving no_entries) 0)
  = (Returns (Some (errorString "computation failed"), VBool true),
     mkWorld (serving no_entries) 1 [EvRead "k1"; EvCompute]).
Proof.
  pose proof (compute_failure_writes_nothing
                as_string Marshal Unmarshal app_cache "k1" hour
                (fails_with (errorString "computation failed"))
                (fresh (serving no_entries) 0)
                (errorString "computation failed") 1 eq_refl)
    as [_ [_ Hmiss]].
  destruct (Hmiss eq_refl) as [Hstr Hjson].
  split; [exact Hstr | exact (Hjson (VBool true))].
Defined.


End populators.




(* ===================================================================== *)
(** * Facts about the Go monad                                            *)
(* ===================================================================== *)

Lemma bind_returns {any W A B : Type} (m : Go any W A) (k : A -> Go any W B)
    (w w' : W) (a : A) :
  m w = (Returns a, w') -> bind m k w = k a w'.
Proof. intros H. unfold bind. now rewrite H. Qed.

Lemma bind_panics {any W A B : Type} (m : Go any W A) (k : A -> Go any W B)
    (w w' : W) (p : any) :
  m w = (Panics p, w') -> bind m k w = (Panics p, w').
Proof. intros H. unfold bind. now rewrite H. Qed.

Lemma call_run {any E D R : Type} (ev : E) (op : D -> R * D)
    (w : logged.World E D) (r : R) (d : D) :
  op (logged.state w) = (r, d) ->
  logged.call (any := any) ev op w
  = (Returns r, logged.mkWorld d (logged.log w ++ [ev])).
Proof. intros H. unfold logged.call. now rewrite H. Qed.

Lemma call_run_at {any E D R : Type} (ev : E) (op : D -> R * D)
    (d d' : D) (l : list E) (r : R) :
  op d = (r, d') ->
  logged.call (any := any) ev op (logged.mkWorld d l)
  = (Returns r, logged.mkWorld d' (l ++ [ev])).
Proof. intros H. unfold logged.call. cbn. now rewrite H. Qed.

(* ===================================================================== *)
(** * Properties of opening a SQLite database                             *)
(* ===================================================================== *)

Module sqlite_facts.
Import logged sqlite.

Lemma Sprintf_busy_timeout (n : Z) :
  fmt.Sprintf "PRAGMA busy_timeout=%d" [fmt.AInt n]
  = "PRAGMA busy_timeout=" +:+ fmt.itoa n.
Proof. unfold fmt.Sprintf. cbn. now rewrite append_nil_r. Qed.

Lemma Errorf_wrap_open (e : error) :
  fmt.Errorf "failed to open sqlite: %w" [fmt.AError e]
  = wrapError ("failed to open sqlite: " +:+ Error e) e.
Proof. unfold fmt.Errorf. cbn. now rewrite append_nil_r. Qed.

Lemma Errorf_wrap_ping (e : error) :
  fmt.Errorf "failed to ping sqlite: %w" [fmt.AError e]
  = wrapError ("failed to ping sqlite: " +:+ Error e) e.
Proof. unfold fmt.Errorf. cbn. now rewrite append_nil_r. Qed.

Lemma Errorf_wrap_pragma (pragma : string) (e : error) :
  fmt.Errorf "failed to set pragma %q: %w" [fmt.AString pragma; fmt.AError e]
  = wrapError ("failed to set pragma " +:+ fmt.Quote pragma +:+ ": " +:+ Error e) e.
Proof. unfold fmt.Errorf. cbn. now rewrite append_nil_r. Qed.

Section OpenFacts.
Context {any context D DB : Type} `{!SqlOpener context D DB}.

(** A setter that is called only for a positive value. *)
Lemma setter_run (b : bool) (ev : Event) (f : D -> D) (w : World Event D) :
  (if b then call_ (any := any) ev f else ret tt) w
  = (Returns tt,
     mkWorld (if b then f (state w) else state w)
             (log w ++ (if b then [ev] else []))).
Proof.
  destruct b; unfold call_, ret; [reflexivity |].
  rewrite app_nil_r. now destruct w.
Qed.

(** The pragma loop executes the pragmas in order and stops at the first
    one that fails. *)
Lemma exec_pragmas_run (db : DB) (ctx : context) (pragmas : list string) :
  forall w : World Event D,
    (exists w' : World Event D,
        exec_pragmas (any := any) db ctx pragmas w = (Returns None, w')
        /\ log w' = log w ++ map EvExec pragmas)
    \/
    (exists (done : list string) (p : string) (rest : list string)
            (e : error) (w' : World Event D),
        pragmas = done ++ p :: rest
        /\ exec_pragmas (any := any) db ctx pragmas w = (Returns (Some (p, e)), w')
        /\ log w' = log w ++ map EvExec (done ++ [p])).
Proof.
  induction pragmas as [| q rest IH]; intros w.
  - left. exists w. split; [reflexivity | now rewrite app_nil_r].
  - cbn [exec_pragmas]. unfold bind, call.
    destruct (db_ExecContext db ctx q (state w)) as [[e |] d] eqn:Hexec.
    + right. exists [], q, rest, e. eexists. repeat split.
    + destruct (IH (mkWorld d (log w ++ [EvExec q])))
        as [(w' & Hrun & Hlog) | (done & p & rest' & e & w' & Hsplit & Hrun & Hlog)].
      * left. exists w'. split; [exact Hrun |].
        rewrite Hlog. cbn. now rewrite <- app_assoc.
      * right. exists (q :: done), p, rest', e, w'.
        split; [now rewrite Hsplit |]. split; [exact Hrun |].
        rewrite Hlog. cbn. now rewrite <- app_assoc.
Qed.

(** Every run of [OpenSQLiteWithConfig]: what it returns and what it has
    called, for each way the driver can answer. *)
Lemma open_run (ctx : context) (cfg : SQLiteConfig) (w : World Event D) :
  (exists (e : error) (d : D),
      sql_Open "sqlite" (dsn_of cfg) (state w) = (inr e, d)
      /\ OpenSQLiteWithConfig (any := any) ctx cfg w
         = (Returns (inr (wrapError ("failed to open sqlite: " +:+ Error e) e)),
            mkWorld d (log w ++ [EvOpen "sqlite" (dsn_of cfg)])))
  \/
  (exists (db : DB) (d : D),
      sql_Open "sqlite" (dsn_of cfg) (state w) = (inl db, d)
      /\ ((fst (OpenSQLiteWithConfig (any := any) ctx cfg w) = Returns (inl db)
           /\ log (snd (OpenSQLiteWithConfig (any := any) ctx cfg w))
              = log w ++ EvOpen "sqlite" (dsn_of cfg) :: setter_calls cfg
                      ++ map EvExec (pragmas_of cfg) ++ [EvPing])
          \/
          (exists e : error,
              fst (OpenSQLiteWithConfig (any := any) ctx cfg w)
              = Returns (inr (wrapError ("failed to ping sqlite: " +:+ Error e) e))
              /\ log (snd (OpenSQLiteWithConfig (any := any) ctx cfg w))
                 = log w ++ EvOpen "sqlite" (dsn_of cfg) :: setter_calls cfg
                         ++ map EvExec (pragmas_of cfg) ++ [EvPing; EvClose])
          \/
          (exists (done : list string) (p : string) (rest : list string)
                  (e : error),
              pragmas_of cfg = done ++ p :: rest
              /\ fst (OpenSQLiteWithConfig (any := any) ctx cfg w)
                 = Returns (inr (wrapError
                      ("failed to set pragma " +:+ fmt.Quote p +:+ ": "
                       +:+ Error e) e))
              /\ log (snd (OpenSQLiteWithConfig (any := any) ctx cfg w))
                 = log w ++ EvOpen "sqlite" (dsn_of cfg) :: setter_calls cfg
                         ++ map EvExec (done ++ [p]) ++ [EvClose]))).
Proof.
  unfold OpenSQLiteWithConfig.
  destruct (sql_Open "sqlite" (dsn_of cfg) (state w)) as [[db | e] d] eqn:Hopen.
  2:{ left. exists e, d. split; [reflexivity |].
      rewrite (bind_returns _ _ _ _ _ (call_run _ _ _ _ _ Hopen)).
      unfold ret. now rewrite Errorf_wrap_open. }
  right. exists db, d. split; [reflexivity |].
  rewrite (bind_returns _ _ _ _ _ (call_run _ _ _ _ _ Hopen)).
  rewrite (bind_returns _ _ _ _ _ (setter_run _ _ _ _)).
  rewrite (bind_returns _ _ _ _ _ (setter_run _ _ _ _)).
  rewrite (bind_returns _ _ _ _ _ (setter_run _ _ _ _)).
  cbn [state log].
  match goal with
  | |- context [bind (exec_pragmas ?b ?c ?ps) _ ?W] =>
      destruct (exec_pragmas_run b c ps W)
        as [(w' & Hexec & Hlog)
           | (done & p & rest & e & w' & Hsplit & Hexec & Hlog)];
      rewrite (bind_returns _ _ _ _ _ Hexec); cbn [state log] in Hlog
  end.
  - destruct (db_PingContext db ctx (state w')) as [[e |] d2] eqn:Hping;
      rewrite (bind_returns _ _ _ _ _ (call_run _ _ _ _ _ Hping)).
    + destruct (db_Close db d2) as [r d3] eqn:Hclose.
      assert (Hclose' : db_Close db
                (state (mkWorld (E := Event) d2 (log w' ++ [EvPing]))) = (r, d3))
        by exact Hclose.
      rewrite (bind_returns _ _ _ _ _ (call_run _ _ _ _ _ Hclose')).
      right; left. exists e. unfold ret. cbn [fst snd log].
      rewrite Errorf_wrap_ping, Hlog. unfold setter_calls.
      rewrite <- !app_assoc. split; reflexivity.
    + left. unfold ret. cbn [fst snd log]. rewrite Hlog. unfold setter_calls.
      rewrite <- !app_assoc. split; reflexivity.
  - destruct (db_Close db (state w')) as [r d3] eqn:Hclose.
    rewrite (bind_returns _ _ _ _ _ (call_run _ _ _ _ _ Hclose)).
    right; right. exists done, p, rest, e. unfold ret. cbn [fst snd log].
    rewrite Errorf_wrap_pragma, Hlog. unfold setter_calls.
    rewrite <- !app_assoc. repeat split; assumption.
Qed.

(** The pragma loop against the driver's answers: when every statement
    succeeds the loop executes them all. *)
Lemma exec_pragmas_succeed (db : DB) (ctx : context) (pragmas : list string) :
  forall (w : World Event D) (d1 : D),
    succeed_all db ctx pragmas (state w) = Some d1 ->
    exec_pragmas (any := any) db ctx pragmas w
    = (Returns None, mkWorld d1 (log w ++ map EvExec pragmas)).
Proof.
  induction pragmas as [| q rest IH]; intros w d1 H; cbn [succeed_all] in H.
  - injection H as <-. cbn. unfold ret. rewrite app_nil_r. now destruct w.
  - cbn [exec_pragmas].
    destruct (db_ExecContext db ctx q (state w)) as [[e |] d] eqn:Hexec;
      [discriminate |].
    rewrite (bind_returns _ _ _ _ _ (call_run _ _ _ _ _ Hexec)).
    rewrite (IH (mkWorld d (log w ++ [EvExec q])) d1 H).
    cbn [log map]. now rewrite <- app_assoc.
Qed.

(** When the statements [done] succeed and the next one, [p], fails, the
    loop stops there and hands on [p] with the driver's error. *)
Lemma exec_pragmas_fail (db : DB) (ctx : context) (done : list string)
    (p : string) (rest : list string) (e : error) :
  forall (w : World Event D) (d1 d2 : D),
    succeed_all db ctx done (state w) = Some d1 ->
    db_ExecContext db ctx p d1 = (Some e, d2) ->
    exec_pragmas (any := any) db ctx (done ++ p :: rest) w
    = (Returns (Some (p, e)), mkWorld d2 (log w ++ map EvExec (done ++ [p]))).
Proof.
  induction done as [| q done IH]; intros w d1 d2 H Hp; cbn [succeed_all] in H.
  - injection H as <-. cbn [app exec_pragmas].
    now rewrite (bind_returns _ _ _ _ _ (call_run _ _ _ _ _ Hp)).
  - cbn [app exec_pragmas].
    destruct (db_ExecContext db ctx q (state w)) as [[e' |] d] eqn:Hexec;
      [discriminate |].
    rewrite (bind_returns _ _ _ _ _ (call_run _ _ _ _ _ Hexec)).
    rewrite (IH (mkWorld d (log w ++ [EvExec q])) d1 d2 H Hp).
    cbn [log map app]. now rewrite <- app_assoc.
Qed.

(** Either every statement succeeds, or there is a first one that fails. *)
Lemma succeed_all_cases (db : DB) (ctx : context) (pragmas : list string) :
  forall d : D,
    (exists d1 : D, succeed_all db ctx pragmas d = Some d1)
    \/ (exists (done : list string) (p : string) (rest : list string)
               (e : error) (d1 d2 : D),
           pragmas = done ++ p :: rest
           /\ succeed_all db ctx done d = Some d1
           /\ db_ExecContext db ctx p d1 = (Some e, d2)).
Proof.
  induction pragmas as [| q rest IH]; intros d.
  - left. now exists d.
  - cbn [succeed_all].
    destruct (db_ExecContext db ctx q d) as [[e |] d'] eqn:Hexec.
    + right. exists [], q, rest, e, d, d'. repeat split. exact Hexec.
    + destruct (IH d')
        as [(d1 & H) | (done & p & rest' & e & d1 & d2 & Hsplit & H & Hp)].
      * left. now exists d1.
      * right. exists (q :: done), p, rest', e, d1, d2.
        split; [now rewrite Hsplit |]. split; [| exact Hp].
        cbn [succeed_all]. now rewrite Hexec.
Qed.

(** The run in which [sql.Open] fails. *)
Lemma open_fails_run (ctx : context) (cfg : SQLiteConfig) (w : World Event D)
    (e : error) (d : D) :
  sql_Open "sqlite" (dsn_of cfg) (state w) = (inr e, d) ->
  OpenSQLiteWithConfig (any := any) ctx cfg w
  = (Returns (inr (wrapError ("failed to open sqlite: " +:+ Error e) e)),
     mkWorld d (log w ++ [EvOpen "sqlite" (dsn_of cfg)])).
Proof.
  intros Hopen. unfold OpenSQLiteWithConfig.
  rewrite (bind_returns _ _ _ _ _ (call_run _ _ _ _ _ Hopen)).
  unfold ret. now rewrite Errorf_wrap_open.
Qed.

(** The run in which a pragma fails. *)
Lemma pragma_fails_run (ctx : context) (cfg : SQLiteConfig) (w : World Event D)
    (db : DB) (d0 : D) (done : list string) (p : string) (rest : list string)
    (e : error) (d1 d2 : D) :
  sql_Open "sqlite" (dsn_of cfg) (state w) = (inl db, d0) ->
  pragmas_of cfg = done ++ p :: rest ->
  succeed_all db ctx done (with_pool_limits db cfg d0) = Some d1 ->
  db_ExecContext db ctx p d1 = (Some e, d2) ->
  OpenSQLiteWithConfig (any := any) ctx cfg w
  = (Returns (inr (wrapError
        ("failed to set pragma " +:+ fmt.Quote p +:+ ": " +:+ Error e) e)),
     mkWorld (snd (db_Close db d2))
       (log w ++ EvOpen "sqlite" (dsn_of cfg) :: setter_calls cfg
              ++ map EvExec (done ++ [p]) ++ [EvClose])).
Proof.
  intros Hopen Hsplit Hdone Hp. unfold OpenSQLiteWithConfig.
  rewrite (bind_returns _ _ _ _ _ (call_run _ _ _ _ _ Hopen)).
  rewrite (bind_returns _ _ _ _ _ (setter_run _ _ _ _)).
  rewrite (bind_returns _ _ _ _ _ (setter_run _ _ _ _)).
  rewrite (bind_returns _ _ _ _ _ (setter_run _ _ _ _)).
  cbn [state log]. rewrite Hsplit.
  match goal with
  | |- context [bind (exec_pragmas ?b ?c _) _ ?W] =>
      rewrite (bind_returns _ _ _ _ _
                 (exec_pragmas_fail b c done p rest e W d1 d2 Hdone Hp))
  end.
  destruct (db_Close db d2) as [r d3] eqn:Hclose.
  rewrite (bind_returns _ _ _ _ _ (call_run_at _ _ _ _ _ _ Hclose)).
  unfold ret. cbn [snd log state]. rewrite Errorf_wrap_pragma.
  unfold setter_calls. now rewrite <- !app_assoc.
Qed.

(** The runs in which every pragma succeeds: the ping decides. *)
Lemma pragmas_succeed_run (ctx : context) (cfg : SQLiteConfig)
    (w : World Event D) (db : DB) (d0 d1 : D) :
  sql_Open "sqlite" (dsn_of cfg) (state w) = (inl db, d0) ->
  succeed_all db ctx (pragmas_of cfg) (with_pool_limits db cfg d0) = Some d1 ->
  OpenSQLiteWithConfig (any := any) ctx cfg w
  = match db_PingContext db ctx d1 with
    | (Some e, d2) =>
        (Returns (inr (wrapError ("failed to ping sqlite: " +:+ Error e) e)),
         mkWorld (snd (db_Close db d2))
           (log w ++ EvOpen "sqlite" (dsn_of cfg) :: setter_calls cfg
                  ++ map EvExec (pragmas_of cfg) ++ [EvPing; EvClose]))
    | (None, d2) =>
        (Returns (inl db),
         mkWorld d2
           (log w ++ EvOpen "sqlite" (dsn_of cfg) :: setter_calls cfg
                  ++ map EvExec (pragmas_of cfg) ++ [EvPing]))
    end.
Proof.
  intros Hopen Hall. unfold OpenSQLiteWithConfig.
  rewrite (bind_returns _ _ _ _ _ (call_run _ _ _ _ _ Hopen)).
  rewrite (bind_returns _ _ _ _ _ (setter_run _ _ _ _)).
  rewrite (bind_returns _ _ _ _ _ (setter_run _ _ _ _)).
  rewrite (bind_returns _ _ _ _ _ (setter_run _ _ _ _)).
  cbn [state log].
  match goal with
  | |- context [bind (exec_pragmas ?b ?c ?ps) _ ?W] =>
      rewrite (bind_returns _ _ _ _ _ (exec_pragmas_succeed b c ps W d1 Hall))
  end.
  destruct (db_PingContext db ctx d1) as [[e |] d2] eqn:Hping;
    rewrite (bind_returns _ _ _ _ _ (call_run_at _ _ _ _ _ _ Hping)).
  - destruct (db_Close db d2) as [r d3] eqn:Hclose.
    rewrite (bind_returns _ _ _ _ _ (call_run_at _ _ _ _ _ _ Hclose)).
    unfold ret. cbn [snd log state]. rewrite Errorf_wrap_ping.
    unfold setter_calls. now rewrite <- !app_assoc.
  - unfold ret. cbn [log state]. unfold setter_calls.
    now rewrite <- !app_assoc.
Qed.

Lemma count_map_EvExec (ev : Event) (l : list string) :
  (forall q : string, ev <> EvExec q) -> count ev (map EvExec l) = 0.
Proof.
  intros Hne. unfold count. apply count_occ_not_In. rewrite in_map_iff.
  intros (q & Hq & _). exact (Hne q (eq_sym Hq)).
Qed.

Lemma count_setter_calls (ev : Event) (cfg : SQLiteConfig) :
  (forall n : Z, ev <> EvSetMaxOpenConns n) ->
  (forall n : Z, ev <> EvSetMaxIdleConns n) ->
  (forall n : Z, ev <> EvSetConnMaxLifetime n) ->
  count ev (setter_calls cfg) = 0.
Proof.
  intros H1 H2 H3. unfold count. apply count_occ_not_In. unfold setter_calls.
  rewrite !in_app_iff.
  destruct (0 <? MaxOpenConns cfg)%Z, (0 <? MaxIdleConns cfg)%Z,
    (0 <? ConnMaxLifetime cfg)%Z; cbn; intros H;
    repeat match goal with
           | H : _ \/ _ |- _ => destruct H
           | H : False |- _ => destruct H
           | H : EvSetMaxOpenConns _ = _ |- _ => exact (H1 _ (eq_sym H))
           | H : EvSetMaxIdleConns _ = _ |- _ => exact (H2 _ (eq_sym H))
           | H : EvSetConnMaxLifetime _ = _ |- _ => exact (H3 _ (eq_sym H))
           end.
Qed.

Lemma executed_app (l1 l2 : list Event) :
  executed (l1 ++ l2) = executed l1 ++ executed l2.
Proof. unfold executed. apply omap_app. Qed.

Lemma executed_map_EvExec (l : list string) : executed (map EvExec l) = l.
Proof. induction l as [| q l IH]; cbn; [reflexivity | now f_equal]. Qed.

Lemma executed_setter_calls (cfg : SQLiteConfig) :
  executed (setter_calls cfg) = [].
Proof.
  unfold setter_calls.
  now destruct (0 <? MaxOpenConns cfg)%Z, (0 <? MaxIdleConns cfg)%Z,
    (0 <? ConnMaxLifetime cfg)%Z.
Qed.

(** No pool-setting call and no statement is the ping. *)
Lemma EvPing_not_before (cfg : SQLiteConfig) (l : list string) :
  ~ In EvPing (EvOpen "sqlite" (dsn_of cfg) :: setter_calls cfg
               ++ map EvExec l).
Proof.
  cbn [In]. rewrite in_app_iff, in_map_iff.
  intros [H | [H | (q & Hq & _)]]; try discriminate.
  revert H. apply count_occ_not_In with (eq_dec := Event_eq_dec).
  apply count_setter_calls; discriminate.
Qed.

(** X1.  [OpenSQLiteWithConfig] never leaks the handle: when it returns a
    handle it has not closed it and its last call was the ping; when it
    returns an error, either [sql.Open] itself failed (there is no
    handle), or the handle was closed exactly once, as the last call. *)
Theorem open_closes_the_handle_on_every_failure
    (ctx : context) (cfg : SQLiteConfig) (w : World Event D) :
  exists evs : list Event,
    log (snd (OpenSQLiteWithConfig (any := any) ctx cfg w)) = log w ++ evs
    /\ match fst (OpenSQLiteWithConfig (any := any) ctx cfg w) with
       | Returns (inl db) =>
           count EvClose evs = 0 /\ last evs = Some EvPing
       | Returns (inr err) =>
           (exists e : error,
               fst (sql_Open "sqlite" (dsn_of cfg) (state w)) = inr e
               /\ count EvClose evs = 0)
           \/ (count EvClose evs = 1 /\ last evs = Some EvClose)
       | Panics _ => False
       end.
Proof.
  assert (Hc : forall (l : list string) (tail : list Event),
             count EvClose (EvOpen "sqlite" (dsn_of cfg) :: setter_calls cfg
                            ++ map EvExec l ++ tail)
             = count EvClose tail).
  { intros l tail. unfold count. cbn [count_occ].
    destruct (Event_eq_dec (EvOpen "sqlite" (dsn_of cfg)) EvClose);
      [discriminate |].
    rewrite !count_occ_app.
    change (count EvClose (setter_calls cfg) + (count EvClose (map EvExec l)
            + count EvClose tail) = count EvClose tail).
    rewrite count_setter_calls, count_map_EvExec by discriminate.
    reflexivity. }
  destruct (open_run ctx cfg w)
    as [(e & d & Hopen & Hrun)
       | (db & d & Hopen & [(Hres & Hlog)
                           | [(e & Hres & Hlog)
                             | (done & p & rest & e & Hsplit & Hres & Hlog)]])].
  - rewrite Hrun. cbn [fst snd log]. eexists. split; [reflexivity |].
    left. exists e. rewrite Hopen. split; reflexivity.
  - rewrite Hres, Hlog. eexists. split; [reflexivity |]. rewrite Hc.
    split; [reflexivity |].
    rewrite !app_comm_cons, !app_assoc. apply last_snoc.
  - rewrite Hres, Hlog. eexists. split; [reflexivity |]. right. rewrite Hc.
    split; [reflexivity |].
    change [EvPing; EvClose] with ([EvPing] ++ [EvClose]).
    rewrite !app_comm_cons, !app_assoc. apply last_snoc.
  - rewrite Hres, Hlog. eexists. split; [reflexivity |]. right. rewrite Hc.
    split; [reflexivity |].
    rewrite !app_comm_cons, !app_assoc. apply last_snoc.
Qed.

(** X2.  The pragmas are executed in the order of the list and the loop
    stops at the first failure.  Once the handle is open: when the
    driver executes the pragmas [done] and then fails the next one, [p],
    the statements executed are exactly [done] followed by [p], none of
    the pragmas after [p] is executed, the connection is not pinged, the
    handle is closed (as the last call, in the state the failed
    statement left) and an error is returned; when the driver executes
    every pragma, all of them were executed, in order, then the
    connection was pinged once, and the handle is returned exactly when
    that ping succeeds. *)
Theorem pragmas_run_in_order_until_the_first_failure
    (ctx : context) (cfg : SQLiteConfig) (w : World Event D)
    (db : DB) (d0 : D) :
  sql_Open "sqlite" (dsn_of cfg) (state w) = (inl db, d0) ->
  (forall (done : list string) (p : string) (rest : list string)
          (e : error) (d1 d2 : D),
      pragmas_of cfg = done ++ p :: rest ->
      succeed_all db ctx done (with_pool_limits db cfg d0) = Some d1 ->
      db_ExecContext db ctx p d1 = (Some e, d2) ->
      exists evs : list Event,
        snd (OpenSQLiteWithConfig (any := any) ctx cfg w)
        = mkWorld (snd (db_Close db d2)) (log w ++ evs)
        /\ executed evs = done ++ [p]
        /\ ~ In EvPing evs
        /\ last evs = Some EvClose
        /\ exists err : error,
             fst (OpenSQLiteWithConfig (any := any) ctx cfg w)
             = Returns (inr err))
  /\
  (forall d1 : D,
      succeed_all db ctx (pragmas_of cfg) (with_pool_limits db cfg d0)
      = Some d1 ->
      exists evs : list Event,
        log (snd (OpenSQLiteWithConfig (any := any) ctx cfg w)) = log w ++ evs
        /\ executed evs = pragmas_of cfg
        /\ count EvPing evs = 1
        /\ (fst (OpenSQLiteWithConfig (any := any) ctx cfg w) = Returns (inl db)
            <-> fst (db_PingContext db ctx d1) = None)).
Proof.
  intros Hopen.
  assert (Hx : forall (l : list string) (tail : list Event),
             executed (EvOpen "sqlite" (dsn_of cfg) :: setter_calls cfg
                       ++ map EvExec l ++ tail)
             = l ++ executed tail).
  { intros l tail.
    change (executed (setter_calls cfg ++ map EvExec l ++ tail)
            = l ++ executed tail).
    now rewrite !executed_app, executed_setter_calls, executed_map_EvExec. }
  assert (Hc : forall (l : list string) (tail : list Event),
             count EvPing (EvOpen "sqlite" (dsn_of cfg) :: setter_calls cfg
                           ++ map EvExec l ++ tail)
             = count EvPing tail).
  { intros l tail. unfold count. cbn [count_occ].
    destruct (Event_eq_dec (EvOpen "sqlite" (dsn_of cfg)) EvPing);
      [discriminate |].
    rewrite !count_occ_app.
    change (count EvPing (setter_calls cfg) + (count EvPing (map EvExec l)
            + count EvPing tail) = count EvPing tail).
    rewrite count_setter_calls, count_map_EvExec by discriminate.
    reflexivity. }
  split.
  - intros done p rest e d1 d2 Hsplit Hdone Hp.
    rewrite (pragma_fails_run ctx cfg w db d0 done p rest e d1 d2
               Hopen Hsplit Hdone Hp).
    cbn [fst snd]. eexists. split; [reflexivity |].
    split; [rewrite Hx; cbn; now rewrite app_nil_r |].
    split; [| split; [| eexists; reflexivity]].
    + rewrite !app_comm_cons, app_assoc, in_app_iff.
      intros [H | [H | []]]; [| discriminate].
      rewrite <- app_comm_cons in H.
      exact (EvPing_not_before cfg (done ++ [p]) H).
    + rewrite !app_comm_cons, !app_assoc. apply last_snoc.
  - intros d1 Hall.
    rewrite (pragmas_succeed_run ctx cfg w db d0 d1 Hopen Hall).
    destruct (db_PingContext db ctx d1) as [[e |] d2]; cbn [fst snd log];
      (eexists; split; [reflexivity |]);
      (split; [rewrite Hx; cbn; now rewrite app_nil_r |]);
      (split; [rewrite Hc; reflexivity |]);
      split; intros H; (discriminate || reflexivity).
Qed.

(** X3.  Every error [OpenSQLiteWithConfig] returns wraps the driver's
    error and names the step that failed.  When [sql.Open] fails with
    [e], when the first pragma to fail is [p] and fails with [e], and
    when the ping after the pragmas fails with [e], the error returned is
    the wrapper around that very [e] with the message of that step (for a
    pragma, with [p] quoted); and every error returned arises in one of
    these three ways. *)
Theorem open_errors_wrap_the_driver_error
    (ctx : context) (cfg : SQLiteConfig) (w : World Event D) :
  (forall (e : error) (d : D),
      sql_Open "sqlite" (dsn_of cfg) (state w) = (inr e, d) ->
      fst (OpenSQLiteWithConfig (any := any) ctx cfg w)
      = Returns (inr (wrapError ("failed to open sqlite: " +:+ Error e) e)))
  /\
  (forall (db : DB) (d0 : D) (done : list string) (p : string)
          (rest : list string) (e : error) (d1 d2 : D),
      sql_Open "sqlite" (dsn_of cfg) (state w) = (inl db, d0) ->
      pragmas_of cfg = done ++ p :: rest ->
      succeed_all db ctx done (with_pool_limits db cfg d0) = Some d1 ->
      db_ExecContext db ctx p d1 = (Some e, d2) ->
      fst (OpenSQLiteWithConfig (any := any) ctx cfg w)
      = Returns (inr (wrapError
           ("failed to set pragma " +:+ fmt.Quote p +:+ ": " +:+ Error e) e)))
  /\
  (forall (db : DB) (d0 d1 d2 : D) (e : error),
      sql_Open "sqlite" (dsn_of cfg) (state w) = (inl db, d0) ->
      succeed_all db ctx (pragmas_of cfg) (with_pool_limits db cfg d0)
      = Some d1 ->
      db_PingContext db ctx d1 = (Some e, d2) ->
      fst (OpenSQLiteWithConfig (any := any) ctx cfg w)
      = Returns (inr (wrapError ("failed to ping sqlite: " +:+ Error e) e)))
  /\
  (forall err : error,
      fst (OpenSQLiteWithConfig (any := any) ctx cfg w) = Returns (inr err) ->
      (exists e : error,
          fst (sql_Open "sqlite" (dsn_of cfg) (state w)) = inr e
          /\ err = wrapError ("failed to open sqlite: " +:+ Error e) e)
      \/
      (exists (db : DB) (d0 : D) (done : list string) (p : string)
              (rest : list string) (e : error) (d1 : D),
          sql_Open "sqlite" (dsn_of cfg) (state w) = (inl db, d0)
          /\ pragmas_of cfg = done ++ p :: rest
          /\ succeed_all db ctx done (with_pool_limits db cfg d0) = Some d1
          /\ fst (db_ExecContext db ctx p d1) = Some e
          /\ err = wrapError ("failed to set pragma " +:+ fmt.Quote p +:+ ": "
                              +:+ Error e) e)
      \/
      (exists (db : DB) (d0 d1 : D) (e : error),
          sql_Open "sqlite" (dsn_of cfg) (state w) = (inl db, d0)
          /\ succeed_all db ctx (pragmas_of cfg) (with_pool_limits db cfg d0)
             = Some d1
          /\ fst (db_PingContext db ctx d1) = Some e
          /\ err = wrapError ("failed to ping sqlite: " +:+ Error e) e)).
Proof.
  split; [| split; [| split]].
  - intros e d Hopen. now rewrite (open_fails_run ctx cfg w e d Hopen).
  - intros db d0 done p rest e d1 d2 Hopen Hsplit Hdone Hp.
    now rewrite (pragma_fails_run ctx cfg w db d0 done p rest e d1 d2
                   Hopen Hsplit Hdone Hp).
  - intros db d0 d1 d2 e Hopen Hall Hping.
    rewrite (pragmas_succeed_run ctx cfg w db d0 d1 Hopen Hall).
    now rewrite Hping.
  - intros err Herr.
    destruct (sql_Open "sqlite" (dsn_of cfg) (state w)) as [[db | e] d0]
      eqn:Hopen.
    2:{ left. exists e. split; [reflexivity |].
        rewrite (open_fails_run ctx cfg w e d0 Hopen) in Herr.
        cbn [fst] in Herr. now injection Herr as <-. }
    right.
    destruct (succeed_all_cases db ctx (pragmas_of cfg)
                (with_pool_limits db cfg d0))
      as [(d1 & Hall)
         | (done & p & rest & e & d1 & d2 & Hsplit & Hdone & Hp)].
    + right. exists db, d0, d1.
      rewrite (pragmas_succeed_run ctx cfg w db d0 d1 Hopen Hall) in Herr.
      destruct (db_PingContext db ctx d1) as [[e |] d2]; cbn [fst] in Herr;
        [| discriminate].
      exists e. injection Herr as <-. repeat split. exact Hall.
    + left. exists db, d0, done, p, rest, e, d1.
      rewrite (pragma_fails_run ctx cfg w db d0 done p rest e d1 d2
                 Hopen Hsplit Hdone Hp) in Herr.
      cbn [fst] in Herr. injection Herr as <-. rewrite Hp.
      repeat split; assumption.
Qed.

Lemma In_setter_calls (cfg : SQLiteConfig) (n : Z) :
  (In (EvSetMaxOpenConns n) (setter_calls cfg)
   <-> n = MaxOpenConns cfg /\ (0 < n)%Z)
  /\ (In (EvSetMaxIdleConns n) (setter_calls cfg)
      <-> n = MaxIdleConns cfg /\ (0 < n)%Z)
  /\ (In (EvSetConnMaxLifetime n) (setter_calls cfg)
      <-> n = ConnMaxLifetime cfg /\ (0 < n)%Z).
Proof.
  unfold setter_calls. rewrite !in_app_iff.
  destruct (0 <? MaxOpenConns cfg)%Z eqn:H1;
    [apply Z.ltb_lt in H1 | apply Z.ltb_ge in H1];
  (destruct (0 <? MaxIdleConns cfg)%Z eqn:H2;
    [apply Z.ltb_lt in H2 | apply Z.ltb_ge in H2]);
  (destruct (0 <? ConnMaxLifetime cfg)%Z eqn:H3;
    [apply Z.ltb_lt in H3 | apply Z.ltb_ge in H3]);
  cbn [In];
  intuition (try discriminate; try lia;
             try match goal with
                 | H : _ = _ |- _ => injection H as <-; lia || reflexivity
                 end;
             try (subst; tauto)).
Qed.

(** X6.  A pool limit is handed to the driver only when it is positive:
    once the handle is open, [SetMaxOpenConns], [SetMaxIdleConns] and
    [SetConnMaxLifetime] are each called exactly for a positive field of
    the configuration, with that value; a zero or negative field leaves
    the driver's own default in place. *)
Theorem pool_limits_are_set_only_when_positive
    (ctx : context) (cfg : SQLiteConfig) (w : World Event D) (db : DB) (d : D) :
  sql_Open "sqlite" (dsn_of cfg) (state w) = (inl db, d) ->
  exists evs : list Event,
    log (snd (OpenSQLiteWithConfig (any := any) ctx cfg w)) = log w ++ evs
    /\ (forall n : Z, In (EvSetMaxOpenConns n) evs
                      <-> n = MaxOpenConns cfg /\ (0 < n)%Z)
    /\ (forall n : Z, In (EvSetMaxIdleConns n) evs
                      <-> n = MaxIdleConns cfg /\ (0 < n)%Z)
    /\ (forall n : Z, In (EvSetConnMaxLifetime n) evs
                      <-> n = ConnMaxLifetime cfg /\ (0 < n)%Z).
Proof.
  intros Hopen.
  assert (Hin : forall (ev : Event) (l : list string) (tail : list Event),
             (forall ev', In ev' tail -> ev' = EvPing \/ ev' = EvClose) ->
             ev <> EvPing -> ev <> EvClose ->
             ev <> EvOpen "sqlite" (dsn_of cfg) ->
             (forall q, ev <> EvExec q) ->
             In ev (EvOpen "sqlite" (dsn_of cfg) :: setter_calls cfg
                    ++ map EvExec l ++ tail)
             <-> In ev (setter_calls cfg)).
  { intros ev l tail Htail Hp Hc Ho Hq. cbn [In].
    rewrite !in_app_iff, in_map_iff. split; [| tauto].
    intros [H | [H | [(q & H & _) | H]]].
    - congruence.
    - exact H.
    - exfalso. exact (Hq q (eq_sym H)).
    - exfalso. destruct (Htail _ H); congruence. }
  pose proof (In_setter_calls cfg) as Hset.
  assert (Hall : forall (l : list string) (tail : list Event),
             (forall ev', In ev' tail -> ev' = EvPing \/ ev' = EvClose) ->
             (forall n : Z, In (EvSetMaxOpenConns n)
                 (EvOpen "sqlite" (dsn_of cfg) :: setter_calls cfg
                  ++ map EvExec l ++ tail)
               <-> n = MaxOpenConns cfg /\ (0 < n)%Z)
             /\ (forall n : Z, In (EvSetMaxIdleConns n)
                    (EvOpen "sqlite" (dsn_of cfg) :: setter_calls cfg
                     ++ map EvExec l ++ tail)
                  <-> n = MaxIdleConns cfg /\ (0 < n)%Z)
             /\ (forall n : Z, In (EvSetConnMaxLifetime n)
                    (EvOpen "sqlite" (dsn_of cfg) :: setter_calls cfg
                     ++ map EvExec l ++ tail)
                  <-> n = ConnMaxLifetime cfg /\ (0 < n)%Z)).
  { intros l tail Htail.
    split; [| split]; intros n;
      (etransitivity;
       [apply Hin; [exact Htail | discriminate ..] | apply (Hset n)]). }
  destruct (open_run ctx cfg w)
    as [(e & d' & Hopen' & Hrun)
       | (db' & d' & Hopen' & [(Hres & Hlog)
                           | [(e & Hres & Hlog)
                             | (done & p & rest & e & Hsplit & Hres & Hlog)]])].
  - rewrite Hopen in Hopen'. discriminate.
  - rewrite Hlog. eexists. split; [reflexivity |]. apply Hall.
    intros ev [<- | []]. now left.
  - rewrite Hlog. eexists. split; [reflexivity |]. apply Hall.
    intros ev [<- | [<- | []]]; [now left | now right].
  - rewrite Hlog. eexists. split; [reflexivity |]. apply Hall.
    intros ev [<- | []]. now right.
Qed.
End OpenFacts.

(** X4.  The busy timeout reaches SQLite in whole milliseconds, rounded
    down: a positive [BusyTimeout] gives the pragma with the quotient by
    one millisecond, so a positive timeout below one millisecond sets
    [busy_timeout=0]; a zero or negative [BusyTimeout] gives no
    busy-timeout pragma at all. *)
Theorem busy_timeout_is_truncated_to_milliseconds (cfg : SQLiteConfig) :
  ((0 < BusyTimeout cfg)%Z ->
   In ("PRAGMA busy_timeout=" +:+ fmt.itoa (BusyTimeout cfg ÷ 1000000))
      (pragmas_of cfg)
   /\ ((BusyTimeout cfg < time.Millisecond)%Z ->
       In "PRAGMA busy_timeout=0" (pragmas_of cfg)))
  /\
  ((BusyTimeout cfg <= 0)%Z ->
   forall p : string,
     In p (pragmas_of cfg) -> String.prefix "PRAGMA busy_timeout" p = false).
Proof.
  split.
  - intros Hpos.
    assert (Hin : In ("PRAGMA busy_timeout="
                      +:+ fmt.itoa (BusyTimeout cfg ÷ 1000000)) (pragmas_of cfg)).
    { unfold pragmas_of. apply Z.ltb_lt in Hpos. rewrite Hpos.
      rewrite Sprintf_busy_timeout. unfold time.Milliseconds.
      destruct (WALMode cfg), (ForeignKeys cfg); cbn [app In]; tauto. }
    split; [exact Hin |].
    intros Hsmall. unfold time.Millisecond in Hsmall.
    rewrite Z.quot_small in Hin by lia. exact Hin.
  - intros Hle p. unfold pragmas_of. apply Z.ltb_ge in Hle. rewrite Hle.
    destruct (WALMode cfg), (ForeignKeys cfg); cbn [app In];
      intros H;
      repeat match goal with
             | H : _ \/ _ |- _ => destruct H
             | H : False |- _ => destruct H
             | H : _ = p |- _ => subst p; reflexivity
             end.
Qed.

(** X5.  The flags of the configuration decide the pragmas: the two
    performance pragmas close the list for every configuration; before
    them, the two WAL pragmas are present exactly when [WALMode] is set
    and the foreign-key pragma exactly when [ForeignKeys] is set; at most
    four pragmas precede the performance pragmas. *)
Theorem pragmas_follow_the_flags (cfg : SQLiteConfig) :
  exists front : list string,
    pragmas_of cfg
    = front ++ ["PRAGMA cache_size=-2000"; "PRAGMA temp_store=MEMORY"]
    /\ (In "PRAGMA journal_mode=WAL" front <-> WALMode cfg = true)
    /\ (In "PRAGMA synchronous=NORMAL" front <-> WALMode cfg = true)
    /\ (In "PRAGMA foreign_keys=ON" front <-> ForeignKeys cfg = true)
    /\ length front <= 4.
Proof.
  unfold pragmas_of. rewrite Sprintf_busy_timeout.
  set (busy := "PRAGMA busy_timeout=" +:+ fmt.itoa _).
  assert (Hb1 : busy <> "PRAGMA journal_mode=WAL")
    by (unfold busy; cbv [String.append]; discriminate).
  assert (Hb2 : busy <> "PRAGMA synchronous=NORMAL")
    by (unfold busy; cbv [String.append]; discriminate).
  assert (Hb3 : busy <> "PRAGMA foreign_keys=ON")
    by (unfold busy; cbv [String.append]; discriminate).
  clearbody busy.
  exists ((if WALMode cfg
           then ["PRAGMA journal_mode=WAL"; "PRAGMA synchronous=NORMAL"]
           else [])
          ++ (if (0 <? BusyTimeout cfg)%Z then [busy] else [])
          ++ (if ForeignKeys cfg then ["PRAGMA foreign_keys=ON"] else [])).
  destruct (WALMode cfg), (0 <? BusyTimeout cfg)%Z, (ForeignKeys cfg);
    (split; [reflexivity |]); cbn [app In length];
    repeat split; try lia; try tauto; try discriminate;
    intros H;
    repeat match goal with
           | H : _ \/ _ |- _ => destruct H
           | H : False |- _ => destruct H
           end;
    try discriminate; try congruence.
Qed.

Section InMemory.
Context {any context D DB : Type} `{!SqlOpener context D DB}.

(** X7.  [SQLiteInMemory] opens the data source [:memory:], executes no
    pragma but the busy timeout of five seconds, the foreign keys and the
    two performance pragmas (so never a WAL pragma), and, once the handle
    is open, caps the pool at one open and one idle connection, whatever
    the driver answers. *)
Theorem in_memory_database_has_one_connection_and_no_wal
    (background : context) (w : World Event D) :
  exists evs : list Event,
    log (snd (SQLiteInMemory (any := any) background w)) = log w ++ evs
    /\ head evs = Some (EvOpen "sqlite" ":memory:")
    /\ (forall q : string,
           In (EvExec q) evs ->
           In q ["PRAGMA busy_timeout=5000"; "PRAGMA foreign_keys=ON";
                 "PRAGMA cache_size=-2000"; "PRAGMA temp_store=MEMORY"])
    /\ (forall n : Z, In (EvSetMaxOpenConns n) evs -> n = 1%Z)
    /\ (forall n : Z, In (EvSetMaxIdleConns n) evs -> n = 1%Z)
    /\ (forall db : DB,
           fst (SQLiteInMemory (any := any) background w) = Returns (inl db) ->
           In (EvSetMaxOpenConns 1) evs /\ In (EvSetMaxIdleConns 1) evs).
Proof.
  unfold SQLiteInMemory. cbv zeta.
  set (cfg := mkConfig _ _ _ _ _ _ _).
  assert (Hp : pragmas_of cfg
               = ["PRAGMA busy_timeout=5000"; "PRAGMA foreign_keys=ON";
                  "PRAGMA cache_size=-2000"; "PRAGMA temp_store=MEMORY"])
    by reflexivity.
  assert (Hd : dsn_of cfg = ":memory:") by reflexivity.
  assert (Hs : setter_calls cfg
               = [EvSetMaxOpenConns 1; EvSetMaxIdleConns 1;
                  EvSetConnMaxLifetime time.Hour]) by reflexivity.
  clearbody cfg.
  assert (Hshape : forall (l : list string) (tail : list Event),
             (forall ev, In ev tail -> ev = EvPing \/ ev = EvClose) ->
             (forall q, In q l -> In q (pragmas_of cfg)) ->
             let evs := EvOpen "sqlite" (dsn_of cfg) :: setter_calls cfg
                        ++ map EvExec l ++ tail in
             head evs = Some (EvOpen "sqlite" ":memory:")
             /\ (forall q : string, In (EvExec q) evs -> In q (pragmas_of cfg))
             /\ (forall n : Z, In (EvSetMaxOpenConns n) evs -> n = 1%Z)
             /\ (forall n : Z, In (EvSetMaxIdleConns n) evs -> n = 1%Z)
             /\ In (EvSetMaxOpenConns 1) evs /\ In (EvSetMaxIdleConns 1) evs).
  { intros l tail Htail Hl evs. subst evs. rewrite Hs, Hd.
    split; [reflexivity |].
    cbn [app].
    assert (Hcase : forall ev : Event,
               In ev (EvOpen "sqlite" ":memory:" :: EvSetMaxOpenConns 1
                      :: EvSetMaxIdleConns 1 :: EvSetConnMaxLifetime time.Hour
                      :: map EvExec l ++ tail) ->
               ev = EvOpen "sqlite" ":memory:" \/ ev = EvSetMaxOpenConns 1
               \/ ev = EvSetMaxIdleConns 1
               \/ ev = EvSetConnMaxLifetime time.Hour
               \/ (exists q, ev = EvExec q /\ In q l)
               \/ ev = EvPing \/ ev = EvClose).
    { intros ev Hev. cbn [In] in Hev. rewrite in_app_iff, in_map_iff in Hev.
      destruct Hev as [H | [H | [H | [H | [(q & Hq & Hin) | H]]]]];
        [auto | auto | auto | auto 6 | | ].
      - do 4 right. left. exists q. split; [now symmetry | exact Hin].
      - do 5 right. exact (Htail _ H). }
    repeat split.
    - intros q Hq. apply Hcase in Hq.
      destruct Hq as [H | [H | [H | [H | [(q' & H & Hin) | [H | H]]]]]];
        try discriminate.
      injection H as ->. now apply Hl.
    - intros n Hn. apply Hcase in Hn.
      destruct Hn as [H | [H | [H | [H | [(q' & H & Hin) | [H | H]]]]]];
        try discriminate.
      now injection H.
    - intros n Hn. apply Hcase in Hn.
      destruct Hn as [H | [H | [H | [H | [(q' & H & Hin) | [H | H]]]]]];
        try discriminate.
      now injection H.
    - right; now left.
    - right; right; now left. }
  rewrite <- Hp.
  destruct (open_run (any := any) background cfg w)
    as [(e & d & Hopen & Hrun)
       | (db & d & Hopen & [(Hres & Hlog)
                           | [(e & Hres & Hlog)
                             | (done & p & rest & e & Hsplit & Hres & Hlog)]])].
  - rewrite Hrun. cbn [fst snd log]. eexists. split; [reflexivity |].
    rewrite Hd. split; [reflexivity |].
    split; [intros q [H | []]; discriminate |].
    split; [intros n [H | []]; discriminate |].
    split; [intros n [H | []]; discriminate |].
    intros db0 H; discriminate.
  - rewrite Hres, Hlog. eexists. split; [reflexivity |].
    destruct (Hshape (pragmas_of cfg) [EvPing])
      as (H1 & H2 & H3 & H4 & H5 & H6);
      [intros ev [<- | []]; now left | auto |].
    split; [exact H1 |]. split; [exact H2 |]. split; [exact H3 |].
    split; [exact H4 |]. intros db0 _. split; assumption.
  - rewrite Hres, Hlog. eexists. split; [reflexivity |].
    destruct (Hshape (pragmas_of cfg) [EvPing; EvClose])
      as (H1 & H2 & H3 & H4 & H5 & H6);
      [intros ev [<- | [<- | []]]; [now left | now right] | auto |].
    split; [exact H1 |]. split; [exact H2 |]. split; [exact H3 |].
    split; [exact H4 |]. intros db0 H. discriminate.
  - rewrite Hres, Hlog. eexists. split; [reflexivity |].
    destruct (Hshape (done ++ [p]) [EvClose])
      as (H1 & H2 & H3 & H4 & H5 & H6);
      [intros ev [<- | []]; now right
      | intros q Hq; rewrite Hsplit;
        change (p :: rest) with ([p] ++ rest); rewrite app_assoc;
        apply in_app_iff; now left |].
    split; [exact H1 |]. split; [exact H2 |]. split; [exact H3 |].
    split; [exact H4 |]. intros db0 H. discriminate.
Qed.
End InMemory.

End sqlite_facts.

Module sqlite_witnesses.
Import logged sqlite memsqlite.

Lemma pragmas_run_in_order_until_the_first_failure_witness :
  exists evs : list Event,
    snd (OpenSQLiteWithConfig (any := unit) tt (DefaultSQLiteConfig "app.db")
           (fresh (exec_fails "PRAGMA foreign_keys=ON"
                              (errorString "database is locked"))))
    = mkWorld (mkDriver None
                 (Some ("PRAGMA foreign_keys=ON",
                        errorString "database is locked"))
                 None (Some 25%Z) (Some 5%Z) (Some time.Hour) true)
              ([] ++ evs)
    /\ executed evs
       = ["PRAGMA journal_mode=WAL"; "PRAGMA synchronous=NORMAL";
          "PRAGMA busy_timeout=5000"] ++ ["PRAGMA foreign_keys=ON"]
    /\ ~ In EvPing evs
    /\ last evs = Some EvClose
    /\ exists err : error,
         fst (OpenSQLiteWithConfig (any := unit) tt
                (DefaultSQLiteConfig "app.db")
                (fresh (exec_fails "PRAGMA foreign_keys=ON"
                                   (errorString "database is locked"))))
         = Returns (inr err).
Proof.
  exact (proj1 (sqlite_facts.pragmas_run_in_order_until_the_first_failure
                  (any := unit) tt (DefaultSQLiteConfig "app.db")
                  (fresh (exec_fails "PRAGMA foreign_keys=ON"
                                     (errorString "database is locked")))
                  tt
                  (exec_fails "PRAGMA foreign_keys=ON"
                              (errorString "database is locked"))
                  eq_refl)
               ["PRAGMA journal_mode=WAL"; "PRAGMA synchronous=NORMAL";
                "PRAGMA busy_timeout=5000"]
               "PRAGMA foreign_keys=ON"
               ["PRAGMA cache_size=-2000"; "PRAGMA temp_store=MEMORY"]
               (errorString "database is locked")
               (limits_set "PRAGMA foreign_keys=ON"
                           (errorString "database is locked"))
               (limits_set "PRAGMA foreign_keys=ON"
                           (errorString "database is locked"))
               eq_refl eq_refl eq_refl).
Defined.

Lemma open_errors_wrap_the_driver_error_witness :
  fst (OpenSQLiteWithConfig (any := unit) tt (DefaultSQLiteConfig "app.db")
         (fresh (open_fails (errorString "out of memory"))))
  = Returns (inr (wrapError ("failed to open sqlite: "
                             +:+ Error (errorString "out of memory"))
                            (errorString "out of memory")))
  /\
  fst (OpenSQLiteWithConfig (any := unit) tt (DefaultSQLiteConfig "app.db")
         (fresh (exec_fails "PRAGMA foreign_keys=ON"
                            (errorString "database is locked"))))
  = Returns (inr (wrapError ("failed to set pragma "
                             +:+ fmt.Quote "PRAGMA foreign_keys=ON" +:+ ": "
                             +:+ Error (errorString "database is locked"))
                            (errorString "database is locked")))
  /\
  fst (OpenSQLiteWithConfig (any := unit) tt (DefaultSQLiteConfig "app.db")
         (fresh (ping_fails (errorString "disk I/O error"))))
  = Returns (inr (wrapError ("failed to ping sqlite: "
                             +:+ Error (errorString "disk I/O error"))
                            (errorString "disk I/O error"))).
Proof.
  split; [| split].
  - exact (proj1 (sqlite_facts.open_errors_wrap_the_driver_error
                    (any := unit) tt (DefaultSQLiteConfig "app.db")
                    (fresh (open_fails (errorString "out of memory"))))
                 (errorString "out of memory")
                 (open_fails (errorString "out of memory")) eq_refl).
  - exact (proj1 (proj2 (sqlite_facts.open_errors_wrap_the_driver_error
                    (any := unit) tt (DefaultSQLiteConfig "app.db")
                    (fresh (exec_fails "PRAGMA foreign_keys=ON"
                                       (errorString "database is locked")))))
                 tt
                 (exec_fails "PRAGMA foreign_keys=ON"
                             (errorString "database is locked"))
                 ["PRAGMA journal_mode=WAL"; "PRAGMA synchronous=NORMAL";
                  "PRAGMA busy_timeout=5000"]
                 "PRAGMA foreign_keys=ON"
                 ["PRAGMA cache_size=-2000"; "PRAGMA temp_store=MEMORY"]
                 (errorString "database is locked")
                 (limits_set "PRAGMA foreign_keys=ON"
                             (errorString "database is locked"))
                 (limits_set "PRAGMA foreign_keys=ON"
                             (errorString "database is locked"))
                 eq_refl eq_refl eq_refl eq_refl).
  - exact (proj1 (proj2 (proj2
                    (sqlite_facts.open_errors_wrap_the_driver_error
                       (any := unit) tt (DefaultSQLiteConfig "app.db")
                       (fresh (ping_fails (errorString "disk I/O error"))))))
                 tt (ping_fails (errorString "disk I/O error"))
                 (mkDriver None None (Some (errorString "disk I/O error"))
                    (Some 25%Z) (Some 5%Z) (Some time.Hour) false)
                 (mkDriver None None (Some (errorString "disk I/O error"))
                    (Some 25%Z) (Some 5%Z) (Some time.Hour) false)
                 (errorString "disk I/O error")
                 eq_refl eq_refl eq_refl).
Defined.

Lemma pool_limits_are_set_only_when_positive_witness :
  exists evs : list Event,
    log (snd (OpenSQLiteWithConfig (any := unit) tt
                (mkConfig "app.db" true 0 10 0 (-5) true) (fresh working)))
    = [] ++ evs
    /\ (forall n : Z, In (EvSetMaxOpenConns n) evs <-> n = 10%Z /\ (0 < n)%Z)
    /\ (forall n : Z, In (EvSetMaxIdleConns n) evs <-> n = 0%Z /\ (0 < n)%Z)
    /\ (forall n : Z, In (EvSetConnMaxLifetime n) evs
                      <-> n = (-5)%Z /\ (0 < n)%Z).
Proof.
  exact (sqlite_facts.pool_limits_are_set_only_when_positive (any := unit)
           tt (mkConfig "app.db" true 0 10 0 (-5) true) (fresh working)
           tt _ eq_refl).
Defined.

Lemma busy_timeout_is_truncated_to_milliseconds_witness :
  In "PRAGMA busy_timeout=0"
     (pragmas_of (mkConfig "app.db" false 500000 0 0 0 false)).
Proof.
  destruct (proj1 (sqlite_facts.busy_timeout_is_truncated_to_milliseconds
                     (mkConfig "app.db" false 500000 0 0 0 false)))
    as [_ Hsmall].
  - reflexivity.
  - apply Hsmall. reflexivity.
Defined.

(** Opening "app.db" with the defaults on a working driver. *)
Example open_with_defaults :
  OpenSQLite (any := unit) tt "app.db" (fresh working)
  = (Returns (inl tt),
     mkWorld (mkDriver None None None (Some 25%Z) (Some 5%Z)
                       (Some time.Hour) false)
       [EvOpen "sqlite" "file:app.db?_txlock=immediate";
        EvSetMaxOpenConns 25; EvSetMaxIdleConns 5;
        EvSetConnMaxLifetime time.Hour;
        EvExec "PRAGMA journal_mode=WAL"; EvExec "PRAGMA synchronous=NORMAL";
        EvExec "PRAGMA busy_timeout=5000"; EvExec "PRAGMA foreign_keys=ON";
        EvExec "PRAGMA cache_size=-2000"; EvExec "PRAGMA temp_store=MEMORY";
        EvPing]).
Proof. reflexivity. Qed.

End sqlite_witnesses.

(* ===================================================================== *)
(** * Properties of opening a PostgreSQL pool                             *)
(* ===================================================================== *)

Module postgres_facts.
Import logged postgres.

(** Closes a goal whose hypothesis [H] puts an event into a list of
    events that are all different from it. *)
Ltac absurd_in H :=
  cbn in H;
  repeat match type of H with
         | _ \/ _ => destruct H as [H | H]
         end;
  first [discriminate H | contradiction H].

Lemma Errorf_invalid_url (e : error) :
  fmt.Errorf "invalid postgres URL: %w" [fmt.AError e]
  = wrapError ("invalid postgres URL: " +:+ Error e) e.
Proof. unfold fmt.Errorf. cbn. now rewrite append_nil_r. Qed.

Lemma Errorf_create_pool (e : error) :
  fmt.Errorf "failed to create postgres pool: %w" [fmt.AError e]
  = wrapError ("failed to create postgres pool: " +:+ Error e) e.
Proof. unfold fmt.Errorf. cbn. now rewrite append_nil_r. Qed.

Lemma Errorf_create_pool_env (e : error) :
  fmt.Errorf "failed to create postgres pool from env: %w" [fmt.AError e]
  = wrapError ("failed to create postgres pool from env: " +:+ Error e) e.
Proof. unfold fmt.Errorf. cbn. now rewrite append_nil_r. Qed.

Lemma Errorf_ping (e : error) :
  fmt.Errorf "failed to ping postgres: %w" [fmt.AError e]
  = wrapError ("failed to ping postgres: " +:+ Error e) e.
Proof. unfold fmt.Errorf. cbn. now rewrite append_nil_r. Qed.

(** The overrides are independent of each other. *)
Lemma apply_config_fields
    {C : Type} (cfg : PostgresConfig) (poolCfg : PoolConfig C) :
  conn (apply_config cfg poolCfg) = conn poolCfg
  /\ pc_MaxConns (apply_config cfg poolCfg)
     = (if (0 <? MaxConns cfg)%Z then MaxConns cfg else pc_MaxConns poolCfg)
  /\ pc_MinConns (apply_config cfg poolCfg)
     = (if (0 <? MinConns cfg)%Z then MinConns cfg else pc_MinConns poolCfg)
  /\ pc_MaxConnLifetime (apply_config cfg poolCfg)
     = (if (0 <? MaxConnLifetime cfg)%Z then MaxConnLifetime cfg
        else pc_MaxConnLifetime poolCfg)
  /\ pc_MaxConnIdleTime (apply_config cfg poolCfg)
     = (if (0 <? MaxConnIdleTime cfg)%Z then MaxConnIdleTime cfg
        else pc_MaxConnIdleTime poolCfg)
  /\ pc_HealthCheckPeriod (apply_config cfg poolCfg)
     = (if (0 <? HealthCheckPeriod cfg)%Z then HealthCheckPeriod cfg
        else pc_HealthCheckPeriod poolCfg).
Proof.
  unfold apply_config.
  destruct (0 <? MaxConns cfg)%Z, (0 <? MinConns cfg)%Z,
    (0 <? MaxConnLifetime cfg)%Z, (0 <? MaxConnIdleTime cfg)%Z,
    (0 <? HealthCheckPeriod cfg)%Z; cbn; repeat split; reflexivity.
Qed.

Section OpenFacts.
Context {any context D C Pool : Type} `{!PgxOpener context D C Pool}.

(** Every run of [OpenPostgresWithConfig]. *)
Lemma pool_open_run (ctx : context) (cfg : PostgresConfig)
    (w : World (Event C) D) :
  (exists (e : error) (d : D),
      pgxpool_ParseConfig (URL cfg) (state w) = (inr e, d)
      /\ OpenPostgresWithConfig (any := any) ctx cfg w
         = (Returns (inr (wrapError ("invalid postgres URL: " +:+ Error e) e)),
            mkWorld d (log w ++ [EvParseConfig (URL cfg)])))
  \/
  (exists (poolCfg : PoolConfig C) (d : D),
      pgxpool_ParseConfig (URL cfg) (state w) = (inl poolCfg, d)
      /\ ((exists (e : error) (d' : D),
              OpenPostgresWithConfig (any := any) ctx cfg w
              = (Returns (inr (wrapError
                   ("failed to create postgres pool: " +:+ Error e) e)),
                 mkWorld d' (log w ++ [EvParseConfig (URL cfg);
                                      EvNewWithConfig (apply_config cfg poolCfg)])))
          \/
          (exists (pool : Pool) (e : error) (d' : D),
              OpenPostgresWithConfig (any := any) ctx cfg w
              = (Returns (inr (wrapError
                   ("failed to ping postgres: " +:+ Error e) e)),
                 mkWorld (pool_Close pool d')
                   (log w ++ [EvParseConfig (URL cfg);
                              EvNewWithConfig (apply_config cfg poolCfg);
                              EvPing; EvClose])))
          \/
          (exists (pool : Pool) (d' : D),
              OpenPostgresWithConfig (any := any) ctx cfg w
              = (Returns (inl pool),
                 mkWorld d'
                   (log w ++ [EvParseConfig (URL cfg);
                              EvNewWithConfig (apply_config cfg poolCfg);
                              EvPing]))))).
Proof.
  unfold OpenPostgresWithConfig.
  destruct (pgxpool_ParseConfig (URL cfg) (state w)) as [[poolCfg | e] d] eqn:Hparse.
  2:{ left. exists e, d. split; [reflexivity |].
      rewrite (bind_returns _ _ _ _ _ (call_run _ _ _ _ _ Hparse)).
      unfold ret. now rewrite Errorf_invalid_url. }
  right. exists poolCfg, d. split; [reflexivity |].
  rewrite (bind_returns _ _ _ _ _ (call_run _ _ _ _ _ Hparse)). cbv zeta.
  destruct (pgxpool_NewWithConfig ctx (apply_config cfg poolCfg) d)
    as [[pool | e] d1] eqn:Hnew.
  2:{ left. exists e, d1.
      rewrite (bind_returns _ _ _ _ _ (call_run_at _ _ _ _ _ _ Hnew)).
      unfold ret. now rewrite Errorf_create_pool, <- app_assoc. }
  rewrite (bind_returns _ _ _ _ _ (call_run_at _ _ _ _ _ _ Hnew)).
  destruct (pool_Ping pool ctx d1) as [[e |] d2] eqn:Hping;
    rewrite (bind_returns _ _ _ _ _ (call_run_at _ _ _ _ _ _ Hping)).
  - right; left. exists pool, e, d2. unfold bind, call_, ret. cbn [state log].
    now rewrite Errorf_ping, <- !app_assoc.
  - right; right. exists pool, d2. unfold ret.
    now rewrite <- !app_assoc.
Qed.

(** X8.  [OpenPostgresWithConfig] creates the pool from the parsed
    connection string with exactly the positive fields of the
    configuration put in: each pool setting handed to
    [pgxpool.NewWithConfig] is the field of the configuration when that
    field is positive and the setting parsed from the connection string
    when the field is zero or negative; the rest of the parsed
    configuration is handed on untouched. *)
Theorem positive_fields_override_the_parsed_settings
    (ctx : context) (cfg : PostgresConfig) (w : World (Event C) D)
    (poolCfg : PoolConfig C) (d : D) :
  pgxpool_ParseConfig (URL cfg) (state w) = (inl poolCfg, d) ->
  exists (c : PoolConfig C) (evs : list (Event C)),
    log (snd (OpenPostgresWithConfig (any := any) ctx cfg w))
    = log w ++ EvParseConfig (URL cfg) :: EvNewWithConfig c :: evs
    /\ conn c = conn poolCfg
    /\ pc_MaxConns c
       = (if (0 <? MaxConns cfg)%Z then MaxConns cfg else pc_MaxConns poolCfg)
    /\ pc_MinConns c
       = (if (0 <? MinConns cfg)%Z then MinConns cfg else pc_MinConns poolCfg)
    /\ pc_MaxConnLifetime c
       = (if (0 <? MaxConnLifetime cfg)%Z then MaxConnLifetime cfg
          else pc_MaxConnLifetime poolCfg)
    /\ pc_MaxConnIdleTime c
       = (if (0 <? MaxConnIdleTime cfg)%Z then MaxConnIdleTime cfg
          else pc_MaxConnIdleTime poolCfg)
    /\ pc_HealthCheckPeriod c
       = (if (0 <? HealthCheckPeriod cfg)%Z then HealthCheckPeriod cfg
          else pc_HealthCheckPeriod poolCfg).
Proof.
  intros Hparse. exists (apply_config cfg poolCfg).
  destruct (pool_open_run ctx cfg w)
    as [(e & d' & Hparse' & Hrun)
       | (poolCfg' & d' & Hparse' & [(e & d'' & Hrun)
                                    | [(pool & e & d'' & Hrun)
                                      | (pool & d'' & Hrun)]])];
    rewrite Hparse in Hparse'; [discriminate | ..];
    injection Hparse' as <- <-; rewrite Hrun; cbn [snd log];
    eexists; (split; [reflexivity | apply apply_config_fields]).
Qed.

(** X9.  [OpenPostgres] overrides the pool settings of the connection
    string: whatever [pgxpool.ParseConfig] read from the URL (for
    instance [pool_max_conns]), the pool is created with 25 and 5
    connections, one hour, thirty minutes and one minute, and with the
    rest of the parsed configuration. *)
Theorem open_postgres_overrides_the_pool_settings_of_the_url
    (ctx : context) (url : string) (w : World (Event C) D)
    (poolCfg : PoolConfig C) (d : D) :
  pgxpool_ParseConfig url (state w) = (inl poolCfg, d) ->
  exists evs : list (Event C),
    log (snd (OpenPostgres (any := any) ctx url w))
    = log w ++ EvParseConfig url
        :: EvNewWithConfig
             (mkPoolConfig (conn poolCfg) 25 5 time.Hour (30 * time.Minute)
                           time.Minute)
        :: evs.
Proof.
  intros Hparse. unfold OpenPostgres.
  destruct (pool_open_run ctx (DefaultPostgresConfig url) w)
    as [(e & d' & Hparse' & Hrun)
       | (poolCfg' & d' & Hparse' & [(e & d'' & Hrun)
                                    | [(pool & e & d'' & Hrun)
                                      | (pool & d'' & Hrun)]])];
    cbn [URL DefaultPostgresConfig] in Hparse'; rewrite Hparse in Hparse';
    [discriminate | ..]; injection Hparse' as <- <-; rewrite Hrun;
    cbn [snd log]; eexists; reflexivity.
Qed.

(** [OpenPostgresWithConfig] against the driver's answers. *)
Lemma pool_open_exact (ctx : context) (cfg : PostgresConfig)
    (w : World (Event C) D) :
  OpenPostgresWithConfig (any := any) ctx cfg w
  = match pgxpool_ParseConfig (URL cfg) (state w) with
    | (inr e, d) =>
        (Returns (inr (wrapError ("invalid postgres URL: " +:+ Error e) e)),
         mkWorld d (log w ++ [EvParseConfig (URL cfg)]))
    | (inl poolCfg, d) =>
        match pgxpool_NewWithConfig ctx (apply_config cfg poolCfg) d with
        | (inr e, d1) =>
            (Returns (inr (wrapError
               ("failed to create postgres pool: " +:+ Error e) e)),
             mkWorld d1 (log w ++ [EvParseConfig (URL cfg);
                                   EvNewWithConfig (apply_config cfg poolCfg)]))
        | (inl pool, d1) =>
            match pool_Ping pool ctx d1 with
            | (Some e, d2) =>
                (Returns (inr (wrapError
                   ("failed to ping postgres: " +:+ Error e) e)),
                 mkWorld (pool_Close pool d2)
                   (log w ++ [EvParseConfig (URL cfg);
                              EvNewWithConfig (apply_config cfg poolCfg);
                              EvPing; EvClose]))
            | (None, d2) =>
                (Returns (inl pool),
                 mkWorld d2
                   (log w ++ [EvParseConfig (URL cfg);
                              EvNewWithConfig (apply_config cfg poolCfg);
                              EvPing]))
            end
        end
    end.
Proof.
  unfold OpenPostgresWithConfig.
  destruct (pgxpool_ParseConfig (URL cfg) (state w)) as [[poolCfg | e] d]
    eqn:Hparse;
    rewrite (bind_returns _ _ _ _ _ (call_run _ _ _ _ _ Hparse)).
  2:{ unfold ret. now rewrite Errorf_invalid_url. }
  cbv zeta.
  destruct (pgxpool_NewWithConfig ctx (apply_config cfg poolCfg) d)
    as [[pool | e] d1] eqn:Hnew;
    rewrite (bind_returns _ _ _ _ _ (call_run_at _ _ _ _ _ _ Hnew)).
  2:{ unfold ret. now rewrite Errorf_create_pool, <- app_assoc. }
  destruct (pool_Ping pool ctx d1) as [[e |] d2] eqn:Hping;
    rewrite (bind_returns _ _ _ _ _ (call_run_at _ _ _ _ _ _ Hping)).
  - unfold bind, call_, ret. cbn [state log].
    now rewrite Errorf_ping, <- !app_assoc.
  - unfold ret. now rewrite <- !app_assoc.
Qed.

(** [PostgresFromEnv] against the driver's answers. *)
Lemma from_env_exact (ctx : context) (w : World (Event C) D) :
  PostgresFromEnv (any := any) ctx w
  = match pgxpool_New ctx "" (state w) with
    | (inr e, d) =>
        (Returns (inr (wrapError
           ("failed to create postgres pool from env: " +:+ Error e) e)),
         mkWorld d (log w ++ [EvNew ""]))
    | (inl pool, d) =>
        match pool_Ping pool ctx d with
        | (Some e, d2) =>
            (Returns (inr (wrapError
               ("failed to ping postgres: " +:+ Error e) e)),
             mkWorld (pool_Close pool d2)
                     (log w ++ [EvNew ""; EvPing; EvClose]))
        | (None, d2) =>
            (Returns (inl pool), mkWorld d2 (log w ++ [EvNew ""; EvPing]))
        end
    end.
Proof.
  unfold PostgresFromEnv.
  destruct (pgxpool_New ctx "" (state w)) as [[pool | e] d] eqn:Hnew;
    rewrite (bind_returns _ _ _ _ _ (call_run _ _ _ _ _ Hnew)).
  2:{ unfold ret. now rewrite Errorf_create_pool_env. }
  destruct (pool_Ping pool ctx d) as [[e |] d2] eqn:Hping;
    rewrite (bind_returns _ _ _ _ _ (call_run_at _ _ _ _ _ _ Hping)).
  - unfold bind, call_, ret. cbn [state log].
    now rewrite Errorf_ping, <- !app_assoc.
  - unfold ret. now rewrite <- !app_assoc.
Qed.

(** X10.  The opening functions never leak a pool: the pool is closed
    exactly when it was created and its ping failed, and then as the
    last call, on the state the ping left; a returned pool is the one
    the driver created, was pinged last and not closed.  Every error
    returned wraps the driver's error of the step that failed: the
    error of [pgxpool.ParseConfig], of [pgxpool.NewWithConfig] (of
    [pgxpool.New] for [PostgresFromEnv]) or of [Ping], with the message
    of that step. *)
Theorem pool_is_closed_exactly_when_its_ping_fails
    (ctx : context) (cfg : PostgresConfig) (w : World (Event C) D) :
  (exists evs : list (Event C),
      log (snd (OpenPostgresWithConfig (any := any) ctx cfg w)) = log w ++ evs
      /\ match fst (OpenPostgresWithConfig (any := any) ctx cfg w) with
         | Returns (inl pool) =>
             ~ In EvClose evs /\ last evs = Some EvPing
             /\ exists (poolCfg : PoolConfig C) (d d1 : D),
                  pgxpool_ParseConfig (URL cfg) (state w) = (inl poolCfg, d)
                  /\ pgxpool_NewWithConfig ctx (apply_config cfg poolCfg) d
                     = (inl pool, d1)
                  /\ fst (pool_Ping pool ctx d1) = None
         | Returns (inr err) =>
             ((exists e : error,
                  fst (pgxpool_ParseConfig (URL cfg) (state w)) = inr e
                  /\ err = wrapError ("invalid postgres URL: " +:+ Error e) e)
              \/
              (exists (poolCfg : PoolConfig C) (d : D) (e : error),
                  pgxpool_ParseConfig (URL cfg) (state w) = (inl poolCfg, d)
                  /\ fst (pgxpool_NewWithConfig ctx (apply_config cfg poolCfg) d)
                     = inr e
                  /\ err = wrapError
                             ("failed to create postgres pool: " +:+ Error e) e)
              \/
              (exists (poolCfg : PoolConfig C) (d : D) (pool : Pool) (d1 : D)
                      (e : error) (d2 : D),
                  pgxpool_ParseConfig (URL cfg) (state w) = (inl poolCfg, d)
                  /\ pgxpool_NewWithConfig ctx (apply_config cfg poolCfg) d
                     = (inl pool, d1)
                  /\ pool_Ping pool ctx d1 = (Some e, d2)
                  /\ err = wrapError ("failed to ping postgres: " +:+ Error e) e
                  /\ state (snd (OpenPostgresWithConfig (any := any) ctx cfg w))
                     = pool_Close pool d2))
             /\ (In EvClose evs <-> In EvPing evs)
             /\ (In EvClose evs -> last evs = Some EvClose)
         | Panics _ => False
         end)
  /\
  (exists evs : list (Event C),
      log (snd (PostgresFromEnv (any := any) ctx w)) = log w ++ evs
      /\ match fst (PostgresFromEnv (any := any) ctx w) with
         | Returns (inl pool) =>
             ~ In EvClose evs /\ last evs = Some EvPing
             /\ exists d : D,
                  pgxpool_New ctx "" (state w) = (inl pool, d)
                  /\ fst (pool_Ping pool ctx d) = None
         | Returns (inr err) =>
             ((exists e : error,
                  fst (pgxpool_New ctx "" (state w)) = inr e
                  /\ err = wrapError
                             ("failed to create postgres pool from env: "
                              +:+ Error e) e)
              \/
              (exists (pool : Pool) (d : D) (e : error) (d2 : D),
                  pgxpool_New ctx "" (state w) = (inl pool, d)
                  /\ pool_Ping pool ctx d = (Some e, d2)
                  /\ err = wrapError ("failed to ping postgres: " +:+ Error e) e
                  /\ state (snd (PostgresFromEnv (any := any) ctx w))
                     = pool_Close pool d2))
             /\ (In EvClose evs <-> In EvPing evs)
             /\ (In EvClose evs -> last evs = Some EvClose)
         | Panics _ => False
         end).
Proof.
  split.
  - rewrite pool_open_exact.
    destruct (pgxpool_ParseConfig (URL cfg) (state w)) as [[poolCfg | e] d].
    2:{ cbn [fst snd log]. eexists. split; [reflexivity |].
        split; [left; exists e; split; reflexivity |].
        split; [split |]; intros H; absurd_in H. }
    destruct (pgxpool_NewWithConfig ctx (apply_config cfg poolCfg) d)
      as [[pool | e] d1] eqn:Hnew.
    2:{ cbn [fst snd log]. eexists. split; [reflexivity |].
        split; [right; left; exists poolCfg, d, e; rewrite Hnew;
                repeat split |].
        split; [split |]; intros H; absurd_in H. }
    destruct (pool_Ping pool ctx d1) as [[e |] d2] eqn:Hping;
      cbn [fst snd log state]; eexists; (split; [reflexivity |]).
    + split; [right; right; exists poolCfg, d, pool, d1, e, d2;
              repeat split; assumption |].
      split; [split; intros _; cbn; tauto | intros _; reflexivity].
    + split; [intros H; absurd_in H |]. split; [reflexivity |].
      exists poolCfg, d, d1. rewrite Hping. repeat split. exact Hnew.
  - rewrite from_env_exact.
    destruct (pgxpool_New ctx "" (state w)) as [[pool | e] d].
    2:{ cbn [fst snd log]. eexists. split; [reflexivity |].
        split; [left; exists e; split; reflexivity |].
        split; [split |]; intros H; absurd_in H. }
    destruct (pool_Ping pool ctx d) as [[e |] d2] eqn:Hping;
      cbn [fst snd log state]; eexists; (split; [reflexivity |]).
    + split; [right; exists pool, d, e, d2; repeat split; assumption |].
      split; [split; intros _; cbn; tauto | intros _; reflexivity].
    + split; [intros H; absurd_in H |]. split; [reflexivity |].
      exists d. rewrite Hping. repeat split.
Qed.
End OpenFacts.

End postgres_facts.

Module postgres_witnesses.
Import logged postgres mempgx.

Lemma open_postgres_overrides_the_pool_settings_of_the_url_witness :
  exists evs : list (Event string),
    log (snd (OpenPostgres (any := unit) tt "postgres://db/app?pool_max_conns=4"
                           (fresh working)))
    = [] ++ EvParseConfig "postgres://db/app?pool_max_conns=4"
        :: EvNewWithConfig
             (mkPoolConfig "postgres://db/app?pool_max_conns=4" 25 5 time.Hour
                           (30 * time.Minute) time.Minute)
        :: evs.
Proof.
  exact (postgres_facts.open_postgres_overrides_the_pool_settings_of_the_url
           (any := unit) tt "postgres://db/app?pool_max_conns=4" (fresh working)
           (mkPoolConfig "postgres://db/app?pool_max_conns=4" 4 0 time.Hour
                         (30 * time.Minute) time.Minute)
           working eq_refl).
Defined.

Lemma positive_fields_override_the_parsed_settings_witness :
  exists (c : PoolConfig string) (evs : list (Event string)),
    log (snd (OpenPostgresWithConfig (any := unit) tt
                (mkConfig "postgres://db/app" 0 2 0 (-1) 0) (fresh working)))
    = [] ++ EvParseConfig "postgres://db/app" :: EvNewWithConfig c :: evs
    /\ conn c = "postgres://db/app"
    /\ pc_MaxConns c = 4%Z
    /\ pc_MinConns c = 2%Z
    /\ pc_MaxConnLifetime c = time.Hour
    /\ pc_MaxConnIdleTime c = (30 * time.Minute)%Z
    /\ pc_HealthCheckPeriod c = time.Minute.
Proof.
  exact (postgres_facts.positive_fields_override_the_parsed_settings
           (any := unit) tt (mkConfig "postgres://db/app" 0 2 0 (-1) 0)
           (fresh working)
           (mkPoolConfig "postgres://db/app" 4 0 time.Hour (30 * time.Minute)
                         time.Minute)
           working eq_refl).
Defined.

(** A ping that fails: the pool made is closed again. *)
Example failed_ping_closes_the_pool :
  PostgresFromEnv (any := unit) tt (fresh (ping_fails (errorString "refused")))
  = (Returns (inr (wrapError "failed to ping postgres: refused"
                             (errorString "refused"))),
     mkWorld (ping_fails (errorString "refused"))
             [EvNew ""; EvPing; EvClose]).
Proof. reflexivity. Qed.

End postgres_witnesses.

(* ===================================================================== *)
(** * Properties of the retrying HTTP client                              *)
(* ===================================================================== *)

Module httpclient_facts.
Import httpclient.
Open Scope Z_scope.

Lemma int64_id (z : Z) :
  time.MinInt64 <= z <= time.MaxInt64 -> time.int64 z = z.
Proof.
  unfold time.MinInt64, time.MaxInt64, time.int64. intros H.
  rewrite Z.mod_small; lia.
Qed.

Lemma int64_range (z : Z) : time.MinInt64 <= time.int64 z <= time.MaxInt64.
Proof.
  unfold time.MinInt64, time.MaxInt64, time.int64.
  pose proof (Z.mod_pos_bound (z + 2 ^ 63) (2 ^ 64) ltac:(lia)). lia.
Qed.

(** X11.  Whatever the configuration, the client [NewHTTPClient] returns
    retries at least once, has a timeout different from zero (zero, "no
    timeout", is replaced by thirty seconds) and a positive minimal wait;
    it takes nothing but the untouched rest from
    [retryablehttp.NewClient()]: the four fields are set on every path. *)
Theorem client_always_retries_and_times_out
    {R : Type} (NewClient : Client R) (cfg : HTTPConfig) :
  1 <= client_RetryMax (NewHTTPClient NewClient cfg)
  /\ HTTPClient_Timeout (NewHTTPClient NewClient cfg) <> 0
  /\ 0 < RetryWaitMin (NewHTTPClient NewClient cfg)
  /\ (RetryMax cfg <= 0 -> client_RetryMax (NewHTTPClient NewClient cfg) = 3)
  /\ (Timeout cfg <> 0 ->
      HTTPClient_Timeout (NewHTTPClient NewClient cfg) = Timeout cfg)
  /\ (forall NewClient' : Client R,
         rest NewClient' = rest NewClient ->
         NewHTTPClient NewClient' cfg = NewHTTPClient NewClient cfg).
Proof.
  assert (H30 : time.int64 (30 * time.Second) = 30000000000)
    by (vm_compute; reflexivity).
  assert (H1 : time.int64 (1 * time.Second) = 1000000000)
    by (vm_compute; reflexivity).
  unfold NewHTTPClient. rewrite H30, H1. clear H30 H1.
  destruct (Timeout cfg =? 0) eqn:Ht;
    [apply Z.eqb_eq in Ht | apply Z.eqb_neq in Ht];
  (destruct (0 <? RetryMax cfg) eqn:Hm;
    [apply Z.ltb_lt in Hm | apply Z.ltb_ge in Hm]);
  (destruct (0 <? RetryWait cfg) eqn:Hw;
    [apply Z.ltb_lt in Hw | apply Z.ltb_ge in Hw]);
  cbn [client_RetryMax HTTPClient_Timeout RetryWaitMin rest];
  (split; [lia |]); (split; [first [exact Ht | discriminate] |]);
  (split; [lia |]); (split; [intros; first [reflexivity | lia] |]);
  (split; [intros; first [reflexivity | contradiction] |]);
  intros NewClient' ->; reflexivity.
Qed.

(** X12.  For a positive [RetryWait] the maximal wait is ten times the
    minimal wait exactly as long as the product fits an [int64], that is
    for a wait of at most 922337203685477580 nanoseconds; above that the
    product wraps around and the maximal wait is another value (still an
    [int64]). *)
Theorem maximal_wait_is_ten_times_the_wait_unless_it_overflows
    {R : Type} (NewClient : Client R) (cfg : HTTPConfig) :
  0 < RetryWait cfg <= time.MaxInt64 ->
  RetryWaitMin (NewHTTPClient NewClient cfg) = RetryWait cfg
  /\ (RetryWaitMax (NewHTTPClient NewClient cfg) = 10 * RetryWait cfg
      <-> RetryWait cfg <= 922337203685477580)
  /\ time.MinInt64 <= RetryWaitMax (NewHTTPClient NewClient cfg) <= time.MaxInt64.
Proof.
  intros [Hpos Hmax]. unfold NewHTTPClient.
  apply Z.ltb_lt in Hpos. rewrite Hpos. apply Z.ltb_lt in Hpos.
  destruct (0 <? RetryMax cfg); cbn [RetryWaitMin RetryWaitMax];
    (split; [reflexivity |]); (split; [| apply int64_range]).
  all: split.
  all: try (intros Hle; rewrite int64_id;
            [lia | unfold time.MinInt64, time.MaxInt64; lia]).
  all: intros Heq;
    pose proof (int64_range (RetryWait cfg * 10)) as Hr;
    unfold time.MaxInt64 in Hr, Hmax; lia.
Qed.

Lemma maximal_wait_is_ten_times_the_wait_unless_it_overflows_witness :
  RetryWaitMin (NewHTTPClient (mkClient tt 0 4 1 30)
                              (mkConfig 0 0 (2 * time.Second)))
  = 2 * time.Second
  /\ (RetryWaitMax (NewHTTPClient (mkClient tt 0 4 1 30)
                                  (mkConfig 0 0 (2 * time.Second)))
      = 10 * (2 * time.Second)
      <-> 2 * time.Second <= 922337203685477580)
  /\ time.MinInt64
     <= RetryWaitMax (NewHTTPClient (mkClient tt 0 4 1 30)
                                    (mkConfig 0 0 (2 * time.Second)))
     <= time.MaxInt64.
Proof.
  apply (maximal_wait_is_ten_times_the_wait_unless_it_overflows
           (mkClient tt 0 4 1 30) (mkConfig 0 0 (2 * time.Second))).
  split; [reflexivity | discriminate].
Defined.

(** The defaults of [NewStandardClient], and a wait that overflows. *)
Example default_client :
  NewHTTPClient (mkClient tt 0 4 1 30) (mkConfig 0 0 0)
  = mkClient tt (30 * time.Second) 3 time.Second (10 * time.Second).
Proof. reflexivity. Qed.

Example overflowing_wait :
  RetryWaitMax (NewHTTPClient (mkClient tt 0 4 1 30) (mkConfig 0 0 (2 ^ 62)))
  = - 2 ^ 63.
Proof. reflexivity. Qed.

End httpclient_facts.

(* ===================================================================== *)
(** * Properties of loading configuration                                 *)
(* ===================================================================== *)

Module config_facts.
Import logged config.

Lemma Errorf_no_config (paths : list string) :
  fmt.Errorf "no config file found in paths: %v" [fmt.AStrings paths]
  = errorString ("no config file found in paths: ["
                 +:+ fmt.Join paths " " +:+ "]").
Proof. unfold fmt.Errorf. cbn. now rewrite append_nil_r. Qed.

Section LoadFacts.
Context {any V T : Type} `{!Viper V T}.

Lemma set_run (f : V -> V) (w : World string V) :
  set (any := any) f w = (Returns tt, mkWorld (f (state w)) (log w)).
Proof. reflexivity. Qed.

(** The loop reads the paths in order and stops at the first readable. *)
Lemma try_paths_run (readable : string -> bool) :
  (forall (v : V) (path : string),
      fst (ReadInConfig (SetConfigFile path v)) = None <-> readable path = true) ->
  forall (paths : list string) (w : World string V),
  exists v' : V,
    try_paths (any := any) paths w
    = (Returns (existsb readable paths),
       mkWorld v' (log w ++ up_to_first readable paths)).
Proof.
  intros Hread paths. induction paths as [| path rest IH]; intros w.
  - exists (state w). cbn. unfold ret. rewrite app_nil_r. now destruct w.
  - cbn [try_paths up_to_first existsb]. unfold bind, set, call. cbn [state log].
    pose proof (Hread (state w) path) as Hp.
    destruct (ReadInConfig (SetConfigFile path (state w))) as [[e |] v1].
    + cbn [fst] in Hp. destruct (readable path).
      * destruct Hp as [_ Hp]. discriminate (Hp eq_refl).
      * destruct (IH (mkWorld v1 (log w ++ [path]))) as (v' & Hrun).
        exists v'. rewrite Hrun. cbn [log orb]. now rewrite <- app_assoc.
    + cbn [fst] in Hp. destruct (readable path).
      * exists v1. reflexivity.
      * destruct Hp as [Hp _]. discriminate (Hp eq_refl).
Qed.


(** X14.  When paths are given and none of them can be read, the loader
    returns the defaults with an error that lists the paths; the errors
    of the single reads are dropped (the error wraps nothing). *)
Theorem unreadable_paths_return_the_defaults (readable : string -> bool) :
  (forall (v : V) (path : string),
      fst (ReadInConfig (SetConfigFile path v)) = None <-> readable path = true) ->
  forall (zero defaults : T) (paths : list string),
    paths <> [] ->
    (forall path : string, In path paths -> readable path = false) ->
    exists err : error,
      fst (LoadConfigWithDefaults (any := any) zero defaults paths)
      = Returns (defaults, Some err)
      /\ Error err = "no config file found in paths: ["
                     +:+ fmt.Join paths " " +:+ "]"
      /\ Unwrap err = None.
Proof.
  intros Hread zero defaults paths Hne Hnone. unfold LoadConfigWithDefaults.
  rewrite (bind_returns _ _ _ _ _ (set_run _ _)).
  rewrite (bind_returns _ _ _ _ _ (set_run _ _)). cbn [state log].
  destruct (try_paths_run readable Hread paths
              (mkWorld (SetEnvKeyReplacer "." "_" (AutomaticEnv viper_New)) []))
    as (v' & Hrun).
  rewrite (bind_returns _ _ _ _ _ Hrun).
  assert (Hex : existsb readable paths = false).
  { apply not_true_is_false. intros H. apply existsb_exists in H.
    destruct H as (path & Hin & Hr). rewrite (Hnone path Hin) in Hr.
    discriminate. }
  assert (Hlen : (0 <? length paths)%nat = true).
  { destruct paths; [contradiction | reflexivity]. }
  rewrite Hex, Hlen. cbn [negb andb]. unfold ret. cbn [fst].
  rewrite Errorf_no_config. eexists. repeat split.
Qed.

(** X15.  The defaults never reach a loaded configuration: they are
    returned only together with an error; when the load succeeds, the
    result and everything read are the same whatever defaults were
    passed. *)
Theorem defaults_are_returned_only_with_an_error
    (zero d1 d2 : T) (paths : list string) :
  snd (LoadConfigWithDefaults (any := any) zero d1 paths)
  = snd (LoadConfigWithDefaults (any := any) zero d2 paths)
  /\ (forall r : T,
         fst (LoadConfigWithDefaults (any := any) zero d1 paths)
         = Returns (r, None) ->
         fst (LoadConfigWithDefaults (any := any) zero d2 paths)
         = Returns (r, None))
  /\ (forall (r : T) (e : error),
         fst (LoadConfigWithDefaults (any := any) zero d1 paths)
         = Returns (r, Some e) ->
         r = d1).
Proof.
  unfold LoadConfigWithDefaults.
  repeat rewrite (bind_returns _ _ _ _ _ (set_run _ _)). cbn [state log].
  destruct (try_paths (any := any) paths
              (mkWorld (SetEnvKeyReplacer "." "_" (AutomaticEnv viper_New)) []))
    as [[found | p] w'] eqn:Htry.
  - repeat rewrite (bind_returns _ _ _ _ _ Htry).
    destruct (negb found && (0 <? length paths)%nat).
    + unfold ret. cbn [fst snd].
      split; [reflexivity |]. split; intros; congruence.
    + unfold bind, ret. cbn [state].
      destruct (Unmarshal (state w') zero) as [[e |] r]; cbn [fst snd];
        (split; [reflexivity |]); split; intros; congruence.
  - repeat rewrite (bind_panics _ _ _ _ _ Htry). cbn [fst snd].
    split; [reflexivity |]. split; intros; discriminate.
Qed.
End LoadFacts.

End config_facts.

Module config_witnesses.
Import logged config memviper.

Lemma on_files_readable (fs : gmap string AppConfig) (decodable : bool)
    (v : Instance) (path : string) :
  fst (ReadInConfig (Viper := on_files fs decodable)
         (SetConfigFile (Viper := on_files fs decodable) path v)) = None
  <-> readable_in fs path = true.
Proof.
  unfold readable_in. cbn. destruct (fs !! path); cbn; split; congruence.
Qed.


Lemma unreadable_paths_return_the_defaults_witness :
  exists err : error,
    fst (LoadConfigWithDefaults (any := unit)
           (Viper0 := on_files one_file true) zero local ["a.yaml"; "b.toml"])
    = Returns (local, Some err)
    /\ Error err = "no config file found in paths: [a.yaml b.toml]"
    /\ Unwrap err = None.
Proof.
  apply (config_facts.unreadable_paths_return_the_defaults (any := unit)
           (Viper0 := on_files one_file true) (readable_in one_file)
           (on_files_readable one_file true) zero local ["a.yaml"; "b.toml"]).
  - discriminate.
  - intros path [<- | [<- | []]]; vm_compute; reflexivity.
Defined.

(** Without paths nothing is read and the result is decoded from the
    zero value: the defaults passed are not in it. *)
Example no_paths_no_defaults :
  LoadConfigWithDefaults (any := unit) (Viper0 := on_files one_file true)
                         zero local []
  = (Returns (zero, None), mkWorld (mkInstance "" None) []).
Proof. reflexivity. Qed.

End config_witnesses.

(* ===================================================================== *)
(** * Properties of the validation helpers                                *)
(* ===================================================================== *)

Module validate_facts.
Import validate.

(** X16.  [NewValidator] registers the JSON tag-name function for every
    configuration: the condition that guards the registration holds
    whether [UseJSONNames] is set or not. *)
Theorem json_names_are_registered_for_every_config (cfg : ValidatorConfig) :
  registers_json_names cfg = true.
Proof.
  destruct cfg as [[|]]; unfold registers_json_names; cbn; [reflexivity |].
  now rewrite bool_decide_eq_true_2.
Qed.

Lemma cut_without_sep (s : string) (sep : ascii) :
  has_byte sep s = false -> cut s sep = None.
Proof.
  induction s as [| c s IH]; cbn; [reflexivity |].
  destruct (Ascii.eqb c sep); cbn; [discriminate |].
  intros H. now rewrite (IH H).
Qed.

Lemma cut_at_first_sep (name opts : string) (sep : ascii) :
  has_byte sep name = false ->
  cut (name +:+ String sep opts) sep = Some (name, opts).
Proof.
  induction name as [| c name IH].
  - intros _. change (EmptyString +:+ String sep opts) with (String sep opts).
    cbn [cut]. now rewrite Ascii.eqb_refl.
  - cbn [has_byte]. intros H. apply orb_false_iff in H as [Hc Hrest].
    change (String c name +:+ String sep opts)
      with (String c (name +:+ String sep opts)).
    cbn [cut]. rewrite Hc, (IH Hrest). reflexivity.
Qed.

Lemma cut_before_has_no_sep (s : string) (sep : ascii) :
  forall before after : string,
    cut s sep = Some (before, after) ->
    has_byte sep before = false /\ s = before +:+ String sep after.
Proof.
  induction s as [| c s IH]; intros before after; cbn [cut]; [discriminate |].
  destruct (Ascii.eqb c sep) eqn:Hc.
  - intros H. injection H as <- <-. apply Ascii.eqb_eq in Hc as ->.
    split; reflexivity.
  - destruct (cut s sep) as [[b a] |]; [| discriminate].
    intros H. injection H as <- <-.
    destruct (IH b a eq_refl) as [Hb Hs]. split.
    + cbn [has_byte]. now rewrite Hc, Hb.
    + change (String c b +:+ String sep a) with (String c (b +:+ String sep a)).
      now rewrite <- Hs.
Qed.

(** X17.  The tag-name function reads the name before the first comma of
    the [json] tag and nothing else: the options after the comma never
    change the result; a name "-" gives the empty string, an empty name
    the Go name of the field, any other name itself.  The result never
    contains a comma unless the Go field name does. *)
Theorem json_name_is_the_tag_name_before_the_comma
    (field name opts : string) :
  has_byte "," name = false ->
  json_name (mkField field (name +:+ "," +:+ opts))
  = json_name (mkField field name)
  /\ json_name (mkField field name)
     = (if String.eqb name "-" then EmptyString
        else if String.eqb name EmptyString then field
        else name)
  /\ (has_byte "," field = false ->
      forall tag : string, has_byte "," (json_name (mkField field tag)) = false).
Proof.
  intros Hname.
  assert (H1 : json_name (mkField field name)
               = (if String.eqb name "-" then EmptyString
                  else if String.eqb name EmptyString then field
                  else name)).
  { unfold json_name, SplitN2. cbn [json_tag Name].
    now rewrite (cut_without_sep name "," Hname). }
  split; [| split; [exact H1 |]].
  - rewrite H1. unfold json_name, SplitN2. cbn [json_tag Name].
    change (name +:+ "," +:+ opts) with (name +:+ String "," opts).
    now rewrite (cut_at_first_sep name opts "," Hname).
  - intros Hfield tag. unfold json_name, SplitN2. cbn [json_tag Name].
    destruct (cut tag ",") as [[before after] |] eqn:Hcut; cbn [nth].
    + destruct (cut_before_has_no_sep tag "," before after Hcut) as [Hb _].
      destruct (String.eqb before "-"); [reflexivity |].
      now destruct (String.eqb before EmptyString).
    + assert (Htag : has_byte "," tag = false).
      { clear -Hcut. induction tag as [| c tag IH]; [reflexivity |].
        cbn in *. destruct (Ascii.eqb c ","); [discriminate |].
        destruct (cut tag ","); [destruct p; discriminate |]. now apply IH. }
      destruct (String.eqb tag "-"); [reflexivity |].
      now destruct (String.eqb tag EmptyString).
Qed.

Lemma json_name_is_the_tag_name_before_the_comma_witness :
  json_name (mkField "Email" ("email" +:+ "," +:+ "omitempty"))
  = json_name (mkField "Email" "email")
  /\ json_name (mkField "Email" "email")
     = (if String.eqb "email" "-" then EmptyString
        else if String.eqb "email" EmptyString then "Email"
        else "email")
  /\ (has_byte "," "Email" = false ->
      forall tag : string, has_byte "," (json_name (mkField "Email" tag)) = false).
Proof.
  apply (json_name_is_the_tag_name_before_the_comma "Email" "email" "omitempty").
  reflexivity.
Defined.

(** The table of names for one field. *)
Example json_names :
  json_name (mkField "Email" "email,omitempty") = "email"
  /\ json_name (mkField "Email" "-") = ""
  /\ json_name (mkField "Email" "") = "Email"
  /\ json_name (mkField "Email" ",omitempty") = "Email".
Proof. repeat split. Qed.

(** The messages of all errors in [ve] for the field [f], in order. *)
Lemma fold_insert_lookup (ve : list FieldError) :
  forall (m : gmap string string) (f : string),
    fold_left (fun errors fe => <[Field fe := validationMessage fe]> errors) ve m
      !! f
    = match last (filter (fun fe => Field fe = f) ve) with
      | Some fe => Some (validationMessage fe)
      | None => m !! f
      end.
Proof.
  induction ve as [| fe ve IH]; intros m f; cbn [fold_left]; [reflexivity |].
  rewrite IH. rewrite filter_cons.
  destruct (decide (Field fe = f)) as [Heq | Hne].
  - destruct (filter (fun fe0 => Field fe0 = f) ve) as [| fe' l] eqn:Hf.
    + cbn. subst f. now rewrite lookup_insert_eq.
    + change (last (fe :: fe' :: l)) with (last (fe' :: l)).
      destruct (last (fe' :: l)) eqn:Hl; [reflexivity |].
      apply last_None in Hl. discriminate.
  - destruct (last (filter (fun fe0 => Field fe0 = f) ve)); [reflexivity |].
    now rewrite lookup_insert_ne.
Qed.

(** X18.  [ValidationErrors] gives one entry per failed field: a field
    is a key of the map exactly when some error is about it, its message
    is that of the last error about it in the slice (earlier errors of
    the same field are overwritten), and the map has at most as many
    entries as there are errors.  For an error that is not a
    [validator.ValidationErrors], nil included, the map is nil. *)
Theorem validation_errors_keeps_the_last_message_per_field :
  (forall ve : list FieldError,
      exists errors : gmap string string,
        ValidationErrors (IsValidationErrors ve) = Some errors
        /\ (forall f : string,
               errors !! f
               = validationMessage <$> last (filter (fun fe => Field fe = f) ve))
        /\ (forall f : string,
               is_Some (errors !! f) <-> exists fe, In fe ve /\ Field fe = f)
        /\ size errors <= length ve)
  /\ (forall err : option error, ValidationErrors (IsOther err) = None).
Proof.
  split; [| reflexivity].
  intros ve. eexists. split; [reflexivity |].
  assert (Hlookup : forall f : string,
    fold_left (fun errors fe => <[Field fe := validationMessage fe]> errors)
              ve (empty : gmap string string) !! f
    = validationMessage <$> last (filter (fun fe => Field fe = f) ve)).
  { intros f. rewrite fold_insert_lookup.
    destruct (last (filter (fun fe => Field fe = f) ve)); [reflexivity |].
    apply lookup_empty. }
  split; [exact Hlookup |]. split.
  - intros f. rewrite Hlookup. split.
    + intros [msg Hmsg].
      destruct (last (filter (fun fe => Field fe = f) ve)) as [fe |] eqn:Hl;
        [| discriminate].
      apply last_Some_elem_of in Hl. apply list_elem_of_filter in Hl as [Hf Hin].
      exists fe. split; [now apply list_elem_of_In | exact Hf].
    + intros (fe & Hin & Hf).
      destruct (filter (fun fe0 => Field fe0 = f) ve) as [| x l] eqn:Hfl.
      * exfalso. apply list_elem_of_In in Hin.
        assert (Hx : fe ∈ filter (fun fe0 => Field fe0 = f) ve)
          by (apply list_elem_of_filter; split; assumption).
        rewrite Hfl in Hx. inversion Hx.
      * destruct (last (x :: l)) as [fe' |] eqn:Hl; [eexists; reflexivity |].
        apply last_None in Hl. discriminate.
  - clear Hlookup.
    assert (Hsize : forall m : gmap string string,
      size (fold_left (fun errors fe => <[Field fe := validationMessage fe]> errors)
                      ve m) <= size m + length ve).
    { induction ve as [| fe ve IH]; intros m; cbn [fold_left length]; [lia |].
      etransitivity; [apply IH |].
      pose proof (map_size_insert (Field fe) (validationMessage fe) m) as Hs.
      destruct (m !! Field fe); unfold id in Hs; lia. }
    etransitivity; [apply Hsize |]. rewrite map_size_empty. lia.
Qed.

End validate_facts.

(* ===================================================================== *)
(** * Properties of the response helpers                                  *)
(* ===================================================================== *)

Module response_facts.
Import logged response.

Lemma Errorf_json_encode (e : error) :
  fmt.Errorf "json encode: %w" [fmt.AError e]
  = wrapError ("json encode: " +:+ errors.Error e) e.
Proof. unfold fmt.Errorf. cbn. now rewrite append_nil_r. Qed.

(** Two outcomes of different result types that are the same panic, or
    both no panic. *)
Ltac alike :=
  let H := fresh in
  intros ?; split; intros H;
  first [discriminate H | injection H as <-; reflexivity].

Section Facts.
Context {any W : Type} `{!ResponseWriter any W}.
Context (Marshal : any -> Outcome any (string + error)).

(** X19.  The status line is sent before the body is encoded.  On every
    input [JSONStatus] and [JSONStatusE] leave the writer in the same
    state and panic alike; they differ only in what they return.  Once
    the content type is set: when [WriteHeader] panics (as the writers
    of [net/http] do for a status outside 100..999) both helpers panic
    with that value and nothing is encoded or written; when it returns
    and the data cannot be encoded, the content type and the status are
    already with the writer, no body is written, [JSONStatus] reports
    nothing and [JSONStatusE] returns the encoder's error wrapped; when
    the data is encoded, the text and a newline are written once, and
    [JSONStatusE] returns the error of that write wrapped, where
    [JSONStatus] drops it. *)
Theorem status_is_sent_before_the_body_is_encoded
    (status : Z) (data : any) (w : World Event W) :
  snd (JSONStatus Marshal status data w) = snd (JSONStatusE Marshal status data w)
  /\ (forall p : any,
         fst (JSONStatus Marshal status data w) = Panics p
         <-> fst (JSONStatusE Marshal status data w) = Panics p)
  /\ (forall w1 : W,
         w_Header_Set "Content-Type" "application/json" (state w)
         = (Returns tt, w1) ->
         (forall (p : any) (w2 : W),
             w_WriteHeader status w1 = (Panics p, w2) ->
             JSONStatus Marshal status data w
             = (Panics p,
                mkWorld w2 (log w ++ [EvHeaderSet "Content-Type" "application/json";
                                      EvWriteHeader status]))
             /\ JSONStatusE Marshal status data w
                = (Panics p,
                   mkWorld w2
                     (log w ++ [EvHeaderSet "Content-Type" "application/json";
                                EvWriteHeader status])))
         /\
         (forall w2 : W,
             w_WriteHeader status w1 = (Returns tt, w2) ->
             (forall e : error,
                 Marshal data = Returns (inr e) ->
                 JSONStatus Marshal status data w
                 = (Returns tt,
                    mkWorld w2
                      (log w ++ [EvHeaderSet "Content-Type" "application/json";
                                 EvWriteHeader status]))
                 /\ JSONStatusE Marshal status data w
                    = (Returns (Some (wrapError
                                        ("json encode: " +:+ errors.Error e) e)),
                       mkWorld w2
                         (log w ++ [EvHeaderSet "Content-Type" "application/json";
                                    EvWriteHeader status])))
             /\
             (forall (b : string) (o : Outcome any (option error)) (w3 : W),
                 Marshal data = Returns (inl b) ->
                 w_Write (b +:+ String "010" EmptyString) w2 = (o, w3) ->
                 snd (JSONStatus Marshal status data w)
                 = mkWorld w3
                     (log w ++ [EvHeaderSet "Content-Type" "application/json";
                                EvWriteHeader status;
                                EvWrite (b +:+ String "010" EmptyString)])
                 /\ fst (JSONStatus Marshal status data w)
                    = match o with
                      | Returns _ => Returns tt
                      | Panics p => Panics p
                      end
                 /\ fst (JSONStatusE Marshal status data w)
                    = match o with
                      | Returns None => Returns None
                      | Returns (Some e) =>
                          Returns (Some (wrapError
                             ("json encode: " +:+ errors.Error e) e))
                      | Panics p => Panics p
                      end))).
Proof.
  unfold JSONStatus, JSONStatusE, Encode, bind, call_or_panic, ret, panic.
  destruct (w_Header_Set "Content-Type" "application/json" (state w))
    as [[[] | p0] w1'] eqn:Hset; cbn [state log fst snd].
  2:{ split; [reflexivity |]. split; [alike |]. intros w1 H; discriminate. }
  destruct (w_WriteHeader status w1') as [[[] | p1] w2'] eqn:Hwh;
    cbn [state log fst snd]; rewrite <- ?app_assoc; cbn [app].
  2:{ split; [reflexivity |]. split; [alike |].
      intros w1 H. injection H as <-. rewrite Hwh. split.
      - intros p w2 H. injection H as <- <-. split; reflexivity.
      - intros w2 H. discriminate. }
  destruct (Marshal data) as [[b | e] | pm] eqn:Hm;
    cbv zeta; cbn [state log fst snd].
  - destruct (w_Write (b +:+ String "010" EmptyString) w2')
      as [[[e |] | pw] w3'] eqn:Hw;
      cbn [state log fst snd]; rewrite <- ?app_assoc; cbn [app];
      (split; [reflexivity |]);
      (split; [alike |]);
      intros w1 H; injection H as <-; rewrite Hwh;
      (split; [intros p w2 H; discriminate |]);
      intros w2 H; injection H as <-;
      (split; [intros e' H; discriminate |]);
      intros b' o w3 Hb Ho; injection Hb as <-; rewrite Hw in Ho;
      injection Ho as <- <-; rewrite ?Errorf_json_encode;
      repeat split; reflexivity.
  - cbn [state log fst snd]. split; [reflexivity |].
    split; [alike |].
    intros w1 H. injection H as <-. rewrite Hwh.
    split; [intros p w2 H; discriminate |].
    intros w2 H. injection H as <-.
    split; [| intros b o w3 H; discriminate].
    intros e' H. injection H as <-. rewrite Errorf_json_encode.
    split; reflexivity.
  - cbn [state log fst snd]. split; [reflexivity |]. split; [alike |].
    intros w1 H. injection H as <-. rewrite Hwh.
    split; [intros p w2 H; discriminate |].
    intros w2 H. injection H as <-.
    split; [intros e' H; discriminate | intros b o w3 H; discriminate].
Qed.
End Facts.

End response_facts.

Module response_witnesses.
Import logged response memwriter.

Lemma status_is_sent_before_the_body_is_encoded_witness :
  (JSONStatus marshal 0 "ok" (fresh empty)
   = (Panics "invalid WriteHeader code 0",
      mkWorld (mkRecorder [("Content-Type", "application/json")] false 200
                          EmptyString)
        ([] ++ [EvHeaderSet "Content-Type" "application/json";
                EvWriteHeader 0]))
   /\ JSONStatusE marshal 0 "ok" (fresh empty)
      = (Panics "invalid WriteHeader code 0",
         mkWorld (mkRecorder [("Content-Type", "application/json")] false 200
                             EmptyString)
           ([] ++ [EvHeaderSet "Content-Type" "application/json";
                   EvWriteHeader 0])))
  /\
  (JSONStatus marshal 201 "NaN" (fresh empty)
   = (Returns tt,
      mkWorld (mkRecorder [("Content-Type", "application/json")] true 201
                          EmptyString)
        ([] ++ [EvHeaderSet "Content-Type" "application/json";
                EvWriteHeader 201]))
   /\ JSONStatusE marshal 201 "NaN" (fresh empty)
      = (Returns (Some (wrapError
                          ("json encode: "
                           +:+ errors.Error
                                 (errorString "json: unsupported value: NaN"))
                          (errorString "json: unsupported value: NaN"))),
         mkWorld (mkRecorder [("Content-Type", "application/json")] true 201
                             EmptyString)
           ([] ++ [EvHeaderSet "Content-Type" "application/json";
                   EvWriteHeader 201]))).
Proof.
  split.
  - exact (proj1 (proj2 (proj2
             (response_facts.status_is_sent_before_the_body_is_encoded
                marshal 0 "ok" (fresh empty)))
             (mkRecorder [("Content-Type", "application/json")] false 200
                         EmptyString)
             eq_refl)
             "invalid WriteHeader code 0"
             (mkRecorder [("Content-Type", "application/json")] false 200
                         EmptyString)
             eq_refl).
  - exact (proj1 (proj2 (proj2 (proj2
             (response_facts.status_is_sent_before_the_body_is_encoded
                marshal 201 "NaN" (fresh empty)))
             (mkRecorder [("Content-Type", "application/json")] false 200
                         EmptyString)
             eq_refl)
             (mkRecorder [("Content-Type", "application/json")] true 201
                         EmptyString)
             eq_refl)
             (errorString "json: unsupported value: NaN") eq_refl).
Defined.

(** A value that can be encoded, sent with status 201. *)
Example created :
  JSONStatusE marshal 201 "ok" (fresh empty)
  = (Returns None,
     mkWorld (mkRecorder [("Content-Type", "application/json")] true 201
                (String "034" "ok" +:+ String "034" (String "010" EmptyString)))
       [EvHeaderSet "Content-Type" "application/json"; EvWriteHeader 201;
        EvWrite (String "034" "ok" +:+ String "034" (String "010" EmptyString))]).
Proof. vm_compute. reflexivity. Qed.

End response_witnesses.

(* ===================================================================== *)
(** * Properties of the terminal tables                                   *)
(* ===================================================================== *)

Module cli_facts.
Import cli.

Lemma fold_AddRow (new_rows : list (list string)) :
  forall t : Table,
    fold_left AddRow new_rows t
    = mkTable (headers t) (rows t ++ new_rows) (writer t).
Proof.
  induction new_rows as [| r new_rows IH]; intros t; cbn [fold_left].
  - rewrite app_nil_r. now destruct t.
  - rewrite IH. unfold AddRow. cbn [headers rows writer].
    now rewrite <- app_assoc.
Qed.

Lemma nth_alter_last {A : Type} (f : A -> A) (l : list A) (x d : A) :
  nth (length l) (alter f (length l) (l ++ [x])) d = f x.
Proof. induction l as [| a l IH]; cbn; [reflexivity | exact IH]. Qed.

Section Facts.
Context (render : list string -> list (list string) -> string).

(** X20.  [SimpleTable] prints nothing at all for an empty list of rows,
    whatever the headers; otherwise it writes to standard output, once,
    the table rendered from the headers and all the rows in their
    order, followed by a newline, and touches no other writer. *)
Theorem simple_table_prints_all_rows_or_nothing
    (headers : list string) (rows : list (list string)) (o : Output) :
  SimpleTable render headers rows o
  = match rows with
    | [] => o
    | _ :: _ =>
        mkOutput (stdout o +:+ render headers rows +:+ String "010" EmptyString)
                 (builders o)
    end.
Proof.
  unfold SimpleTable. rewrite fold_AddRow. unfold NewTable, Print.
  cbn [cli.headers cli.rows writer app].
  destruct rows as [| r rows]; reflexivity.
Qed.

(** X21.  [String] returns the rendered table (the empty string for a
    table without rows) and writes nothing to standard output, but it
    leaves the table pointed at its own builder: a later [Print] of the
    same table never reaches standard output. *)
Theorem string_leaves_the_table_redirected (t : Table) (o : Output) :
  fst (fst (String_ render t o))
  = (if (length (rows t) =? 0)%nat then EmptyString
     else render (headers t) (rows t) +:+ String "010" EmptyString)
  /\ stdout (snd (String_ render t o)) = stdout o
  /\ writer (snd (fst (String_ render t o))) = Builder (length (builders o))
  /\ headers (snd (fst (String_ render t o))) = headers t
  /\ rows (snd (fst (String_ render t o))) = rows t
  /\ (forall o' : Output,
         stdout (Print render (snd (fst (String_ render t o))) o') = stdout o').
Proof.
  unfold String_, Print, SetWriter. cbn [fst snd headers rows writer].
  destruct (length (rows t) =? 0)%nat eqn:Hrows;
    cbn [fst snd write_to stdout builders].
  - repeat split.
    + rewrite <- (Nat.add_0_r (length (builders o))).
      rewrite app_nth2_plus. reflexivity.
  - repeat split.
    apply (nth_alter_last
             (fun held => held +:+ render (headers t) (rows t)
                          +:+ String "010" EmptyString)
             (builders o) EmptyString EmptyString).
Qed.
End Facts.

(** Two rows: one write to standard output. *)
Example two_rows :
  SimpleTable (fun headers rows =>
                 fmt.Join (map (fun r => fmt.Join r ",") (headers :: rows)) ";")
              ["Name"; "Value"] [["Host"; "localhost"]; ["Port"; "8080"]]
              (mkOutput "" [])
  = mkOutput ("Name,Value;Host,localhost;Port,8080" +:+ String "010" EmptyString) [].
Proof. reflexivity. Qed.

End cli_facts.
